(** * Nordic data pipeline: ETL cleaning and RFM feature derivation

    A shallow embedding of [src/config.py], [src/etl.py] and
    [src/features.py].

    Modelling conventions.
    - A polars DataFrame is a [list] of row records, in row order.
    - A nullable column is an [option]; a column is given a non-null type
      only where an explicit [is_not_null] filter or a [when/otherwise]
      of the cleaning stage makes it so (ids, [amount], [currency],
      [category]).  [timestamp], [signup_date] and [email] stay nullable:
      the cleaning stage lets a null through.
    - [Int64] is [Z].  A [Float64] that is read from the input or computed
      from it is a [float64]: a number, held as an exact rational (no
      rounding error, no infinity), or NaN.  A statistic of an integer
      column, which cannot be NaN, and a percentile are plain [Q].
      [Date] is a day number and [Datetime] a number of microseconds since
      the epoch, both [Z].
    - What polars and chrono compute and the repository does not define
      (case mapping, [strptime], [round], square root, the Float64 rank
      of a quantile, the order in which [mode()] lists tied values) is the
      interface [Engine].
    - A Python exception is the [Err] branch of [result]. *)

From Stdlib Require Import List ZArith QArith Qround String Ascii Bool Lia Lqa Permutation Sorted.
Import ListNotations.

Local Open Scope string_scope.
Local Open Scope Z_scope.

(** ** Errors *)

Inductive error : Type :=
| ComputeError      (* polars: strict conversion failed, quantile out of range *)
| AttributeError.   (* Python: attribute access on None *)

Inductive result (A : Type) : Type :=
| Ok (a : A)
| Err (e : error).

Arguments Ok {A} a.
Arguments Err {A} e.

Definition bind {A B : Type} (r : result A) (k : A -> result B) : result B :=
  match r with
  | Ok a => k a
  | Err e => Err e
  end.

Notation "x <- r ;; k" := (bind r (fun x => k))
  (at level 61, r at next level, right associativity).

Fixpoint map_result {A B : Type} (f : A -> result B) (l : list A) : result (list B) :=
  match l with
  | [] => Ok []
  | x :: r => y <- f x ;; ys <- map_result f r ;; Ok (y :: ys)
  end.

(** ** The engine interface *)

Class Engine : Type := {
  (** [str.to_uppercase], [str.to_lowercase] *)
  to_uppercase : string -> string;
  to_lowercase : string -> string;
  (** [strptime] with format "%Y-%m-%d": the day number, or no parse *)
  strptime_date : string -> option Z;
  (** [strptime] with format "%Y-%m-%d %H:%M:%S": microseconds, or no parse *)
  strptime_datetime : string -> option Z;
  (** [Expr.round(2)] on Float64 *)
  round2 : Q -> Q;
  (** square root on Float64 *)
  fsqrt : Q -> Q;
  (** [Series.quantile(q)], interpolation "nearest", on [n] values: the
      index [round((n - 1) * q)], product and rounding in Float64 *)
  nearest_index : nat -> Q -> nat;
  (** the order in which the hash grouping behind [mode()] lists the
      distinct values of a column *)
  group_order : list string -> list string
}.

(** ** config.py *)

Definition VALID_COUNTRIES : list string := ["DK"; "FI"; "SE"; "NO"].

Definition COUNTRY_CURRENCY_MAP : list (string * string) :=
  [("DK", "DKK"); ("SE", "SEK"); ("NO", "NOK"); ("FI", "EUR")].

Definition CONVERSION_RATES : list (string * Q) :=
  [("EUR", 1%Q); ("DKK", (134 # 1000)%Q); ("SEK", (94 # 1000)%Q); ("NOK", (87 # 1000)%Q)].

Definition INFER_MISSING_CURRENCY : bool := true.

Definition HIGH_VALUE_PERCENTILE : Q := (80 # 100)%Q.

Definition CHURN_DAYS : Z := 50.

Definition CHURN_Z_SCORE_THRESHOLD : Z := 2.

(** ** Float64 values *)

Inductive float64 : Type :=
| Num (q : Q)
| NaN.

(** An arithmetic operation: NaN in, NaN out. *)
Definition f_map (g : Q -> Q) (a : float64) : float64 :=
  match a with
  | Num q => Num (g q)
  | NaN => NaN
  end.

Definition f_map2 (g : Q -> Q -> Q) (a b : float64) : float64 :=
  match a, b with
  | Num x, Num y => Num (g x y)
  | _, _ => NaN
  end.

(** A positive number, or NaN. *)
Definition positive_or_nan (a : float64) : Prop :=
  match a with
  | Num q => (0 < q)%Q
  | NaN => True
  end.

(** The order of polars' comparisons and sorts on floats: NaN is equal to
    itself and above every number. *)
Definition f_leb (a b : float64) : bool :=
  match a, b with
  | Num x, Num y => Qle_bool x y
  | _, NaN => true
  | NaN, Num _ => false
  end.

Definition f_ltb (a b : float64) : bool := negb (f_leb b a).

Definition f_le (a b : float64) : Prop := f_leb a b = true.

(** ** Tables *)

Record raw_customer : Type := {
  raw_c_customer_id : option Z;
  raw_country : option string;
  raw_signup_date : option string;
  raw_email : option string
}.

Record customer : Type := {
  c_customer_id : Z;
  country : string;
  signup_date : option Z;
  email : option string
}.

Record raw_transaction : Type := {
  raw_transaction_id : option Z;
  raw_t_customer_id : option Z;
  raw_amount : option float64;
  raw_currency : option string;
  raw_timestamp : option string;
  raw_category : option string
}.

Record transaction : Type := {
  transaction_id : Z;
  t_customer_id : Z;
  amount : float64;
  currency : string;
  timestamp : option Z;
  category : string
}.

(** A transaction row with the column [amount_in_eur] added. *)
Record eur_transaction : Type := {
  txn : transaction;
  amount_in_eur : option float64
}.

(** ** Column helpers *)

Definition is_in (s : string) (l : list string) : bool := existsb (String.eqb s) l.

Fixpoint lookup {V : Type} (k : string) (m : list (string * V)) : option V :=
  match m with
  | [] => None
  | (k', v) :: r => if String.eqb k k' then Some v else lookup k r
  end.

(** [Expr.replace_strict(mapping, default=d)]: a value with no entry in the
    mapping, null included, becomes the default. *)
Definition replace_strict {V : Type} (m : list (string * V)) (default : option V)
    (x : option string) : option V :=
  match x with
  | Some k => match lookup k m with
              | Some v => Some v
              | None => default
              end
  | None => default
  end.

(** A strict string conversion: null stays null, a string that does not
    parse raises. *)
Definition strict_parse (p : string -> option Z) (x : option string) : result (option Z) :=
  match x with
  | None => Ok None
  | Some s => match p s with
              | Some v => Ok (Some v)
              | None => Err ComputeError
              end
  end.

(** [DataFrame.unique(subset=[key], keep="first")]: of the rows that share a
    key, the first one in row order stays.  [seen] holds the keys met so far. *)
Fixpoint unique_first {A : Type} (key : A -> Z) (seen : list Z) (l : list A) : list A :=
  match l with
  | [] => []
  | x :: r =>
      if existsb (Z.eqb (key x)) seen
      then unique_first key seen r
      else x :: unique_first key (key x :: seen) r
  end.

(** [DataFrame.sort], ascending in the order [leb]. *)
Fixpoint insert_by {A : Type} (leb : A -> A -> bool) (x : A) (l : list A) : list A :=
  match l with
  | [] => [x]
  | y :: r => if leb x y then x :: y :: r else y :: insert_by leb x r
  end.

Fixpoint sort_by {A : Type} (leb : A -> A -> bool) (l : list A) : list A :=
  match l with
  | [] => []
  | x :: r => insert_by leb x (sort_by leb r)
  end.

(** [DataFrame.sort(key)] on an Int64 column. *)
Definition sort_on {A : Type} (key : A -> Z) (l : list A) : list A :=
  sort_by (fun x y => key x <=? key y) l.

Fixpoint filter_map {A B : Type} (f : A -> option B) (l : list A) : list B :=
  match l with
  | [] => []
  | x :: r => match f x with
              | Some y => y :: filter_map f r
              | None => filter_map f r
              end
  end.

Definition Qlt_bool (x y : Q) : bool := negb (Qle_bool y x).

(** ** etl.py *)

Section Etl.

Context {E : Engine}.

(** *** clean_customers *)

(** The row after [with_columns]: country upper-cased, date parsed, email
    lower-cased. *)
Record std_customer : Type := {
  std_c_customer_id : option Z;
  std_country : option string;
  std_signup_date : option Z;
  std_email : option string
}.

Definition standardize_customer (r : raw_customer) : result std_customer :=
  d <- strict_parse strptime_date (raw_signup_date r) ;;
  Ok {| std_c_customer_id := raw_c_customer_id r;
        std_country := option_map to_uppercase (raw_country r);
        std_signup_date := d;
        std_email := option_map to_lowercase (raw_email r) |}.

(** The [filter]: a row stays when [customer_id] is not null and [country]
    is in [VALID_COUNTRIES] (a null country makes the predicate null, and
    the row goes). *)
Definition keep_customer (s : std_customer) : option customer :=
  match std_c_customer_id s, std_country s with
  | Some i, Some c =>
      if is_in c VALID_COUNTRIES
      then Some {| c_customer_id := i; country := c;
                   signup_date := std_signup_date s; email := std_email s |}
      else None
  | _, _ => None
  end.

Definition clean_customers (df : list raw_customer) : result (list customer) :=
  std <- map_result standardize_customer df ;;
  Ok (sort_on c_customer_id (unique_first c_customer_id [] (filter_map keep_customer std))).

(** *** clean_transactions *)

Definition std_currency (c : option string) : string :=
  match c with
  | None => "NA"
  | Some s => if String.eqb s "" then "NA" else to_uppercase s
  end.

Definition std_category (c : option string) : string :=
  match c with
  | None => "NA"
  | Some s => if String.eqb s "" then "NA" else to_lowercase s
  end.

Record std_transaction : Type := {
  std_transaction_id : option Z;
  std_t_customer_id : option Z;
  std_amount : option float64;
  std_t_currency : string;
  std_timestamp : option Z;
  std_t_category : string
}.

Definition standardize_transaction (r : raw_transaction) : result std_transaction :=
  ts <- strict_parse strptime_datetime (raw_timestamp r) ;;
  Ok {| std_transaction_id := raw_transaction_id r;
        std_t_customer_id := raw_t_customer_id r;
        std_amount := raw_amount r;
        std_t_currency := std_currency (raw_currency r);
        std_timestamp := ts;
        std_t_category := std_category (raw_category r) |}.

Definition keep_transaction (s : std_transaction) : option transaction :=
  match std_transaction_id s, std_t_customer_id s, std_amount s with
  | Some i, Some c, Some a =>
      if f_ltb (Num 0) a
      then Some {| transaction_id := i; t_customer_id := c; amount := a;
                   currency := std_t_currency s; timestamp := std_timestamp s;
                   category := std_t_category s |}
      else None
  | _, _, _ => None
  end.

Definition clean_transactions (df : list raw_transaction) : result (list transaction) :=
  std <- map_result standardize_transaction df ;;
  Ok (sort_on transaction_id (unique_first transaction_id [] (filter_map keep_transaction std))).

(** *** infer_currency_from_country *)

(** [transactions.join(customers.select(["customer_id", "country"]),
    on="customer_id", how="left")]: every transaction row, once per customer
    row with its id, or once with a null country when there is none. *)
Definition join_country (transactions : list transaction) (customers : list customer)
    : list (transaction * option string) :=
  flat_map
    (fun t =>
       match filter (fun c => c_customer_id c =? t_customer_id t) customers with
       | [] => [(t, None)]
       | cs => map (fun c => (t, Some (country c))) cs
       end)
    transactions.

Definition with_currency (t : transaction) (c : string) : transaction :=
  {| transaction_id := transaction_id t; t_customer_id := t_customer_id t;
     amount := amount t; currency := c; timestamp := timestamp t;
     category := category t |}.

Definition inferred_currency (t : transaction) (ctry : option string) : string :=
  if String.eqb (currency t) "NA"
  then match replace_strict COUNTRY_CURRENCY_MAP (Some "NA") ctry with
       | Some c => c
       | None => "NA"
       end
  else currency t.

Definition infer_currency_from_country (transactions : list transaction)
    (customers : list customer) : list transaction :=
  map (fun tc => with_currency (fst tc) (inferred_currency (fst tc) (snd tc)))
      (join_country transactions customers).

(** *** remove_orphan_transactions *)

Definition remove_orphan_transactions (transactions : list transaction)
    (customers : list customer) : list transaction :=
  let valid_customer_ids := nodup Z.eq_dec (map c_customer_id customers) in
  filter (fun t => existsb (Z.eqb (t_customer_id t)) valid_customer_ids) transactions.

(** *** add_amount_in_eur *)

Definition convert (t : transaction) : option float64 :=
  option_map (fun rate => f_map round2 (f_map2 Qmult (amount t) (Num rate)))
             (replace_strict CONVERSION_RATES None (Some (currency t))).

Definition add_amount_in_eur (transactions : list transaction) : list eur_transaction :=
  map (fun t => {| txn := t; amount_in_eur := convert t |}) transactions.

End Etl.

(** ** features.py *)

(** *** Column reductions, as polars computes them: nulls are skipped *)

Definition drop_nulls {A : Type} (c : list (option A)) : list A :=
  filter_map (fun x => x) c.

Definition Qsum (l : list Q) : Q := fold_right Qplus 0%Q l.

Definition Qlen (l : list Q) : Q := inject_Z (Z.of_nat (List.length l)).

Definition Qmean (l : list Q) : Q := (Qsum l / Qlen l)%Q.

(** The sum of squared deviations over [n - 1] (sample variance, ddof = 1). *)
Definition Qvar (l : list Q) : Q :=
  let m := Qmean l in
  (Qsum (map (fun x => (x - m) * (x - m)) l) / (Qlen l - 1))%Q.

Definition Qmin (x y : Q) : Q := if Qle_bool x y then x else y.
Definition Qmax (x y : Q) : Q := if Qle_bool x y then y else x.

Definition reduce {A : Type} (f : A -> A -> A) (l : list A) : option A :=
  match l with
  | [] => None
  | x :: r => Some (fold_left f r x)
  end.

(** [Expr.mean()] on a column of whole numbers: null when there is no
    non-null value. *)
Definition col_mean (c : list (option Q)) : option Q :=
  match drop_nulls c with
  | [] => None
  | v => Some (Qmean v)
  end.

(** The reductions on a Float64 column, which may hold NaN: [sum()] (0
    when there is no non-null value), [mean()] and [std()] carry a NaN,
    [min()] and [max()] pass over it. *)

Definition f_sum (l : list float64) : float64 := fold_right (f_map2 Qplus) (Num 0) l.

Definition f_len (l : list float64) : Q := inject_Z (Z.of_nat (List.length l)).

Definition f_mean (l : list float64) : float64 := f_map2 Qdiv (f_sum l) (Num (f_len l)).

Definition f_var (l : list float64) : float64 :=
  let m := f_mean l in
  f_map2 Qdiv
    (f_sum (map (fun x => f_map2 Qmult (f_map2 Qminus x m) (f_map2 Qminus x m)) l))
    (Num (f_len l - 1)).

Definition f_skip_nan (g : Q -> Q -> Q) (a b : float64) : float64 :=
  match a, b with
  | NaN, _ => b
  | _, NaN => a
  | Num x, Num y => Num (g x y)
  end.

Definition f_min : float64 -> float64 -> float64 := f_skip_nan Qmin.

Definition f_max : float64 -> float64 -> float64 := f_skip_nan Qmax.

Definition fcol_sum (c : list (option float64)) : float64 := f_sum (drop_nulls c).

Definition fcol_mean (c : list (option float64)) : option float64 :=
  match drop_nulls c with
  | [] => None
  | v => Some (f_mean v)
  end.

Definition fcol_min (c : list (option float64)) : option float64 :=
  reduce f_min (drop_nulls c).

Definition fcol_max (c : list (option float64)) : option float64 :=
  reduce f_max (drop_nulls c).

Definition col_min_Z (c : list (option Z)) : option Z := reduce Z.min (drop_nulls c).
Definition col_max_Z (c : list (option Z)) : option Z := reduce Z.max (drop_nulls c).

(** The distinct values of a column, in order of first occurrence. *)
Definition distinct (l : list Z) : list Z := unique_first (fun k => k) [] l.

(** [DataFrame.group_by(key)]: one group per distinct key, the rows of a
    group in row order.  polars leaves the order of the groups open; here
    they come in order of first occurrence. *)
Definition group_by {A : Type} (key : A -> Z) (l : list A) : list (Z * list A) :=
  map (fun k => (k, filter (fun x => key x =? k) l)) (distinct (map key l)).

Definition count_of (v : string) (c : list string) : nat := count_occ string_dec c v.

Definition max_count (c : list string) : nat :=
  fold_right Nat.max 0%nat (map (fun v => count_of v c) c).

Section Features.

Context {E : Engine}.

(** [Expr.std()]: null with fewer than two non-null values. *)
Definition col_std (c : list (option Q)) : option Q :=
  match drop_nulls c with
  | [] => None
  | [_] => None
  | v => Some (fsqrt (Qvar v))
  end.

Definition fcol_std (c : list (option float64)) : option float64 :=
  match drop_nulls c with
  | [] => None
  | [_] => None
  | v => Some (f_map fsqrt (f_var v))
  end.

(** [Expr.mode()]: the values with the highest count, in the engine's
    group order. *)
Definition mode (c : list string) : list string :=
  filter (fun v => Nat.eqb (count_of v c) (max_count c)) (group_order c).

(** [Expr.first()] *)
Definition first {A : Type} (l : list A) : option A := hd_error l.

Definition US_PER_DAY : Z := 86400000000.

(** [dt.date()] of a Datetime, and Python's [datetime.date()]. *)
Definition date_of (ts : Z) : Z := ts / US_PER_DAY.

(** [dt.total_days()] of a Duration in microseconds. *)
Definition total_days (d : Z) : Z := Z.quot d US_PER_DAY.

Definition lift2 {A B C : Type} (f : A -> B -> C) (x : option A) (y : option B) : option C :=
  match x, y with
  | Some a, Some b => Some (f a b)
  | _, _ => None
  end.

(** **** compute_rfm_features *)

Definition t_cust (t : eur_transaction) : Z := t_customer_id (txn t).
Definition t_time (t : eur_transaction) : option Z := timestamp (txn t).

Definition opt_leb (x y : option Z) : bool :=
  match x, y with
  | None, _ => true
  | Some _, None => false
  | Some a, Some b => a <=? b
  end.

(** The order of [sort(["customer_id", "timestamp"])], nulls first. *)
Definition customer_time_leb (a b : eur_transaction) : bool :=
  (t_cust a <? t_cust b) || ((t_cust a =? t_cust b) && opt_leb (t_time a) (t_time b)).

(** [timestamp.shift(1).over("customer_id")] at a row, given the rows
    before it, latest first: the timestamp of the latest earlier row of the
    same customer, null when there is none. *)
Definition shift_over (before : list eur_transaction) (t : eur_transaction) : option Z :=
  match find (fun p => t_cust p =? t_cust t) before with
  | Some p => t_time p
  | None => None
  end.

Definition interevent_of (before : list eur_transaction) (t : eur_transaction) : option Z :=
  option_map total_days (lift2 Z.sub (t_time t) (shift_over before t)).

(** [with_columns(... .alias("interevent_days"))] over the sorted table. *)
Fixpoint with_interevent_days (before l : list eur_transaction)
    : list (eur_transaction * option Z) :=
  match l with
  | [] => []
  | t :: r => (t, interevent_of before t) :: with_interevent_days (t :: before) r
  end.

Record interevent_row : Type := {
  ie_customer_id : Z;
  ie_mean : option Q;
  ie_std : option Q
}.

Definition to_float (c : list (option Z)) : list (option Q) := map (option_map inject_Z) c.

Definition interevent_stats (transactions : list eur_transaction) : list interevent_row :=
  let transactions_sorted := sort_by customer_time_leb transactions in
  let rows := filter (fun r => match snd r with Some _ => true | None => false end)
                     (with_interevent_days [] transactions_sorted) in
  map (fun g =>
         let days := to_float (map snd (snd g)) in
         {| ie_customer_id := fst g; ie_mean := col_mean days; ie_std := col_std days |})
      (group_by (fun r => t_cust (fst r)) rows).

Record feature : Type := {
  f_customer_id : Z;
  total_spend : float64;
  avg_transaction_amount : option float64;
  std_transaction_amount : option float64;
  min_transaction_amount : option float64;
  max_transaction_amount : option float64;
  transaction_count : Z;
  last_transaction_date : option Z;
  first_transaction_date : option Z;
  preferred_category : option string;
  preferred_currency : option string;
  days_since_last_transaction : option Z;
  customer_tenure_days : option Z;
  mean_interevent_days : option Q;
  std_interevent_days : option Q
}.

(** One row of [group_by("customer_id").agg(...).with_columns(...)
    .join(interevent_stats, on="customer_id", how="left")]. *)
Definition rfm_row (reference_date : Z) (stats : list interevent_row)
    (g : Z * list eur_transaction) : feature :=
  let rows := snd g in
  let amounts := map amount_in_eur rows in
  let last := col_max_Z (map t_time rows) in
  let first_ts := col_min_Z (map t_time rows) in
  let ie := find (fun s => ie_customer_id s =? fst g) stats in
  {| f_customer_id := fst g;
     total_spend := f_map round2 (fcol_sum amounts);
     avg_transaction_amount := option_map (f_map round2) (fcol_mean amounts);
     std_transaction_amount := option_map (f_map round2) (fcol_std amounts);
     min_transaction_amount := fcol_min amounts;
     max_transaction_amount := fcol_max amounts;
     transaction_count := Z.of_nat (List.length (map (fun t => transaction_id (txn t)) rows));
     last_transaction_date := last;
     first_transaction_date := first_ts;
     preferred_category := first (mode (map (fun t => category (txn t)) rows));
     preferred_currency := first (mode (map (fun t => currency (txn t)) rows));
     days_since_last_transaction :=
       option_map (fun d => reference_date - d) (option_map date_of last);
     customer_tenure_days :=
       lift2 Z.sub (option_map date_of last) (option_map date_of first_ts);
     mean_interevent_days := match ie with Some s => ie_mean s | None => None end;
     std_interevent_days := match ie with Some s => ie_std s | None => None end |}.

(** [transactions["timestamp"].max().date()]: [max()] of a column with no
    non-null value is [None], and [None.date()] raises. *)
Definition default_reference_date (transactions : list eur_transaction) : result Z :=
  match col_max_Z (map t_time transactions) with
  | Some m => Ok (date_of m)
  | None => Err AttributeError
  end.

Definition compute_rfm_features (transactions : list eur_transaction)
    (reference_date : option Z) : result (list feature) :=
  ref <- match reference_date with
         | Some d => Ok d
         | None => default_reference_date transactions
         end ;;
  let stats := interevent_stats transactions in
  Ok (map (rfm_row ref stats) (group_by t_cust transactions)).

(** **** add_customer_flags *)

Definition Qround (x : Q) : Z := Qfloor (x + (1 # 2))%Q.

(** [Series.quantile(q)] with the default interpolation, "nearest": the
    value at index [round((n - 1) * q)] of the values in ascending order. *)
Definition quantile (c : list float64) (q : Q) : result (option float64) :=
  if Qle_bool 0 q && Qle_bool q 1
  then match c with
       | [] => Ok None
       | _ => Ok (nth_error (sort_by f_leb c) (nearest_index (List.length c) q))
       end
  else Err ComputeError.

Record flagged : Type := {
  feat : feature;
  is_high_value : option bool;
  is_churning : option bool;
  is_churning_2 : option bool;
  has_single_transaction : bool
}.

Definition Qz (z : Z) : Q := inject_Z z.

Definition flag_row (high_value_threshold : option float64) (churn_days : Z) (f : feature) : flagged :=
  {| feat := f;
     is_high_value :=
       lift2 (fun s t => f_leb t s) (Some (total_spend f)) high_value_threshold;
     is_churning :=
       option_map (fun d => churn_days <=? d) (days_since_last_transaction f);
     is_churning_2 :=
       lift2 (fun d limit => Qlt_bool limit (Qz d))
             (days_since_last_transaction f)
             (lift2 Qplus (mean_interevent_days f)
                    (option_map (Qmult (Qz CHURN_Z_SCORE_THRESHOLD)) (std_interevent_days f)));
     has_single_transaction := transaction_count f =? 1 |}.

Definition add_customer_flags (features : list feature)
    (high_value_percentile : option Q) (churn_days : option Z) : result (list flagged) :=
  let high_value_percentile :=
    match high_value_percentile with Some p => p | None => HIGH_VALUE_PERCENTILE end in
  let churn_days :=
    match churn_days with Some d => d | None => CHURN_DAYS end in
  high_value_threshold <- quantile (map total_spend features) high_value_percentile ;;
  Ok (map (flag_row high_value_threshold churn_days) features).

End Features.

(** ** A reference engine

    An executable instance of [Engine] on which the model can be run:
    ASCII case mapping, ISO dates of fixed width, rounding half up, an
    integer square root carried to four decimals, and the quantile rank
    in exact arithmetic.  [mode()] lists tied
    values in order of first occurrence. *)

Definition upper_ascii (c : ascii) : ascii :=
  let n := nat_of_ascii c in
  if ((97 <=? n) && (n <=? 122))%nat then ascii_of_nat (n - 32) else c.

Definition lower_ascii (c : ascii) : ascii :=
  let n := nat_of_ascii c in
  if ((65 <=? n) && (n <=? 90))%nat then ascii_of_nat (n + 32) else c.

Fixpoint map_string (f : ascii -> ascii) (s : string) : string :=
  match s with
  | EmptyString => EmptyString
  | String c r => String (f c) (map_string f r)
  end.

Definition digit (c : ascii) : option Z :=
  let n := nat_of_ascii c in
  if ((48 <=? n) && (n <=? 57))%nat then Some (Z.of_nat (n - 48)) else None.

(** The number written by the first [n] characters, and the rest. *)
Fixpoint number (n : nat) (acc : Z) (s : string) : option (Z * string) :=
  match n with
  | O => Some (acc, s)
  | S k => match s with
           | String c r => match digit c with
                           | Some d => number k (10 * acc + d) r
                           | None => None
                           end
           | EmptyString => None
           end
  end.

Definition expect (c : ascii) (s : string) : option string :=
  match s with
  | String c' r => if Ascii.eqb c c' then Some r else None
  | EmptyString => None
  end.

Definition days_from_civil (y m d : Z) : Z :=
  let y' := if m <=? 2 then y - 1 else y in
  let era := y' / 400 in
  let yoe := y' - era * 400 in
  let mp := (m + 9) mod 12 in
  let doy := (153 * mp + 2) / 5 + d - 1 in
  let doe := yoe * 365 + yoe / 4 - yoe / 100 + doy in
  era * 146097 + doe - 719468.

Definition option_bind {A B : Type} (x : option A) (k : A -> option B) : option B :=
  match x with
  | Some a => k a
  | None => None
  end.

Definition parse_ymd (s : string) : option (Z * string) :=
  option_bind (number 4 0 s) (fun '(y, s) =>
  option_bind (expect "-" s) (fun s =>
  option_bind (number 2 0 s) (fun '(m, s) =>
  option_bind (expect "-" s) (fun s =>
  option_bind (number 2 0 s) (fun '(d, s) =>
  if (1 <=? m) && (m <=? 12) && (1 <=? d) && (d <=? 31)
  then Some (days_from_civil y m d, s)
  else None))))).

Definition parse_date (s : string) : option Z :=
  option_bind (parse_ymd s) (fun '(d, s) =>
  match s with
  | EmptyString => Some d
  | _ => None
  end).

Definition parse_datetime (s : string) : option Z :=
  option_bind (parse_ymd s) (fun '(d, s) =>
  option_bind (expect " " s) (fun s =>
  option_bind (number 2 0 s) (fun '(h, s) =>
  option_bind (expect ":" s) (fun s =>
  option_bind (number 2 0 s) (fun '(mi, s) =>
  option_bind (expect ":" s) (fun s =>
  option_bind (number 2 0 s) (fun '(sec, s) =>
  match s with
  | EmptyString =>
      if (h <=? 23) && (mi <=? 59) && (sec <=? 59)
      then Some ((d * 86400 + h * 3600 + mi * 60 + sec) * 1000000)
      else None
  | _ => None
  end))))))).

Definition round_half_up_2 (q : Q) : Q := (Qround (q * 100) # 100)%Q.

Definition sqrt_4 (q : Q) : Q :=
  (Z.sqrt (Qnum q * 100000000 / Z.pos (Qden q)) # 10000)%Q.

(** The rank [round((n - 1) * q)] in exact arithmetic. *)
Definition exact_rank (n : nat) (q : Q) : nat :=
  Z.to_nat (Qround ((inject_Z (Z.of_nat n) - 1) * q)).

Fixpoint first_seen (seen l : list string) : list string :=
  match l with
  | [] => []
  | x :: r => if is_in x seen then first_seen seen r else x :: first_seen (x :: seen) r
  end.

#[export] Instance reference_engine : Engine := {|
  to_uppercase := map_string upper_ascii;
  to_lowercase := map_string lower_ascii;
  strptime_date := parse_date;
  strptime_datetime := parse_datetime;
  round2 := round_half_up_2;
  fsqrt := sqrt_4;
  nearest_index := exact_rank;
  group_order := first_seen []
|}.

(** The same engine with a hash grouping that lists the distinct values
    latest first. *)
Definition latest_first_engine : Engine := {|
  to_uppercase := map_string upper_ascii;
  to_lowercase := map_string lower_ascii;
  strptime_date := parse_date;
  strptime_datetime := parse_datetime;
  round2 := round_half_up_2;
  fsqrt := sqrt_4;
  nearest_index := exact_rank;
  group_order := fun c => rev (first_seen [] c)
|}.

(** ** Vocabulary of the statements *)

Section Vocabulary.

Context {E : Engine}.

(** The transaction's customer is in the customer table. *)
Definition has_customer (customers : list customer) (t : transaction) : bool :=
  if in_dec Z.eq_dec (t_customer_id t) (map c_customer_id customers) then true else false.

(** The country joined to a transaction of customer [k] when ids are unique. *)
Definition customer_country (customers : list customer) (k : Z) : option string :=
  option_map country (find (fun c => c_customer_id c =? k) customers).

(** Inference on one row, when ids are unique. *)
Definition infer_row (customers : list customer) (t : transaction) : transaction :=
  with_currency t (inferred_currency t (customer_country customers (t_customer_id t))).

(** What inference does to one row: nothing but the currency moves, the
    currency moves only from the sentinel to the currency mapped to the
    country of the row's customer, and stays when no customer row with
    that id has a mapped country. *)
Definition inferred_from (customers : list customer) (t t' : transaction) : Prop :=
  transaction_id t' = transaction_id t /\
  t_customer_id t' = t_customer_id t /\
  amount t' = amount t /\
  timestamp t' = timestamp t /\
  category t' = category t /\
  (currency t' <> currency t ->
   currency t = "NA" /\
   exists c, In c customers /\ c_customer_id c = t_customer_id t /\
             lookup (country c) COUNTRY_CURRENCY_MAP = Some (currency t')) /\
  ((forall c, In c customers -> c_customer_id c = t_customer_id t ->
              lookup (country c) COUNTRY_CURRENCY_MAP = None) ->
   currency t' = currency t).

(** The rows of customer [k]. *)
Definition rows_of (k : Z) (transactions : list eur_transaction) : list eur_transaction :=
  filter (fun t => t_cust t =? k) transactions.



(** The engine's group order lists the values of the column, all of them
    and no other. *)
Definition group_order_complete : Prop :=
  forall (c : list string) (v : string), In v (group_order c) <-> In v c.

Definition categories_of (k : Z) (transactions : list eur_transaction) : list string :=
  map (fun t => category (txn t)) (rows_of k transactions).

Definition currencies_of (k : Z) (transactions : list eur_transaction) : list string :=
  map (fun t => currency (txn t)) (rows_of k transactions).

Definition percentile_of (high_value_percentile : option Q) : Q :=
  match high_value_percentile with
  | Some p => p
  | None => HIGH_VALUE_PERCENTILE
  end.

(** What Float64 arithmetic keeps of the rank of a quantile of [n] values:
    the product [(n - 1) * q] is off by less than a half, so that its
    rounding is one of the two whole numbers around the exact product. *)
Definition index_adjacent (n : nat) (q : Q) : Prop :=
  let x := ((inject_Z (Z.of_nat n) - 1) * q)%Q in
  Qfloor x <= Z.of_nat (nearest_index n q) <= Qceiling x.

Definition in_unit_interval (q : Q) : Prop := (0 <= q)%Q /\ (q <= 1)%Q.


(** The spec's stable mode, for comparison with [first (mode c)]: of the
    most frequent values, the one met first in row order. *)
Definition spec_stable_mode (c : list string) : option string :=
  first (filter (fun v => Nat.eqb (count_of v c) (max_count c)) c).

End Vocabulary.

(** ** Sample tables

    Two raw tables with the defects the cleaning stage handles (mixed
    case, a duplicate id, a null id, a country outside the valid set, a
    null currency and category, an amount that is not positive, a currency
    with no rate, an orphan transaction), and the tables the stages of the
    pipeline make of them on the reference engine. *)

Definition raw_c (i : option Z) (c d e : option string) : raw_customer :=
  {| raw_c_customer_id := i; raw_country := c; raw_signup_date := d; raw_email := e |}.

Definition raw_t (i c : option Z) (a : option float64) (cur ts cat : option string)
    : raw_transaction :=
  {| raw_transaction_id := i; raw_t_customer_id := c; raw_amount := a;
     raw_currency := cur; raw_timestamp := ts; raw_category := cat |}.

Definition sample_raw_customers : list raw_customer :=
  [ raw_c (Some 2) (Some "FI") (Some "2023-02-01") None;
    raw_c (Some 1) (Some "dk") (Some "2023-01-01") (Some "A@x.dk");
    raw_c (Some 1) (Some "SE") (Some "2023-03-01") (Some "b@x.se");
    raw_c None (Some "NO") None (Some "c@x.no");
    raw_c (Some 3) (Some "DE") (Some "2023-04-01") (Some "d@x.de");
    raw_c (Some 4) (Some "no") (Some "2023-05-01") (Some "e@x.no") ].

Definition sample_raw_transactions : list raw_transaction :=
  [ raw_t (Some 1) (Some 1) (Some (Num 100)) (Some "dkk") (Some "2024-01-01 10:00:00") (Some "Food");
    raw_t (Some 2) (Some 1) (Some (Num 100)) (Some "DKK") (Some "2024-01-10 09:00:00") (Some "food");
    raw_t (Some 3) (Some 2) (Some (Num 50)) None (Some "2024-01-01 00:00:00") None;
    raw_t (Some 3) (Some 2) (Some (Num 60)) (Some "EUR") (Some "2024-01-02 00:00:00") (Some "toys");
    raw_t (Some 4) (Some 9) (Some (Num 5)) None (Some "2024-01-03 00:00:00") (Some "food");
    raw_t (Some 5) (Some 2) (Some (Num 7)) (Some "usd") (Some "2024-01-05 12:00:00") (Some "books");
    raw_t (Some 6) (Some 4) (Some (Num 200)) (Some "") (Some "2024-01-07 08:30:00") (Some "");
    raw_t (Some 7) (Some 4) (Some (Num (-1))) (Some "NOK") (Some "2024-01-08 08:30:00") (Some "food");
    raw_t None (Some 4) (Some (Num 1)) (Some "NOK") (Some "2024-01-09 08:30:00") (Some "food") ].

(** A transaction whose amount was read as NaN. *)
Definition nan_raw_transactions : list raw_transaction :=
  [ raw_t (Some 1) (Some 1) (Some NaN) (Some "EUR") (Some "2024-01-01 10:00:00") (Some "food") ].

Definition or_empty {A : Type} (r : result (list A)) : list A :=
  match r with
  | Ok l => l
  | Err _ => []
  end.

Definition sample_customers : list customer :=
  Eval vm_compute in or_empty (clean_customers (E := reference_engine) sample_raw_customers).

Definition sample_transactions : list transaction :=
  Eval vm_compute in or_empty (clean_transactions (E := reference_engine) sample_raw_transactions).

Definition sample_resolved : list transaction :=
  Eval vm_compute in
    remove_orphan_transactions
      (infer_currency_from_country sample_transactions sample_customers)
      sample_customers.

Definition sample_converted : list eur_transaction :=
  Eval vm_compute in add_amount_in_eur (E := reference_engine) sample_resolved.

Definition sample_features : list feature :=
  Eval vm_compute in or_empty (compute_rfm_features (E := reference_engine) sample_converted None).

Definition sample_flagged : list flagged :=
  Eval vm_compute in
    or_empty (add_customer_flags (E := reference_engine) sample_features None None).

(** A feature table with the given customers and spends. *)
Definition spend_row (k : Z) (s : Q) : feature :=
  {| f_customer_id := k; total_spend := Num s;
     avg_transaction_amount := Some (Num s); std_transaction_amount := None;
     min_transaction_amount := Some (Num s); max_transaction_amount := Some (Num s);
     transaction_count := 1;
     last_transaction_date := Some 0; first_transaction_date := Some 0;
     preferred_category := Some "food"; preferred_currency := Some "EUR";
     days_since_last_transaction := Some 0; customer_tenure_days := Some 0;
     mean_interevent_days := None; std_interevent_days := None |}.

Definition five_spenders : list feature :=
  [spend_row 1 10; spend_row 2 20; spend_row 3 30; spend_row 4 40; spend_row 5 50].


Definition sale (i k : Z) (a : Q) (cat : string) (ts : option Z) : eur_transaction :=
  {| txn := {| transaction_id := i; t_customer_id := k; amount := Num a; currency := "EUR";
               timestamp := ts; category := cat |};
     amount_in_eur := Some (Num a) |}.

(** One transaction, its timestamp null. *)
Definition undated_sale : list eur_transaction := [sale 1 7 50 "food" None].

(** Two customers, the second with a null timestamp only. *)
Definition dated_and_undated : list eur_transaction :=
  [sale 1 7 50 "food" (Some 0); sale 2 8 20 "food" None].

(** One customer, two categories once each. *)
Definition tied_categories : list eur_transaction :=
  [sale 1 7 50 "food" (Some 0); sale 2 7 20 "toys" (Some US_PER_DAY)].

(** ** The reports and the drivers

    [validate_transactions], [compute_feature_summary],
    [enrich_with_customer_data] and the table-to-table part of [run_etl],
    [run_feature_engineering] and [main]: what they do between reading
    the CSV files and writing them. *)

(** Python's [round(x, ndigits)] on a float. *)
Class Builtins : Type := {
  py_round : nat -> Q -> Q
}.

(** What a driver can raise: an [error] of the stages, or the [TypeError]
    of [round(None, ndigits)]. *)
Inductive exception : Type :=
| Raised (e : error)
| TypeError.

Inductive outcome (A : Type) : Type :=
| Returns (a : A)
| Raises (x : exception).

Arguments Returns {A} a.
Arguments Raises {A} x.

Definition and_then {A B : Type} (o : outcome A) (k : A -> outcome B) : outcome B :=
  match o with
  | Returns a => k a
  | Raises x => Raises x
  end.

Notation "x <~ o ;; k" := (and_then o (fun x => k))
  (at level 61, o at next level, right associativity).

Definition stage {A : Type} (r : result A) : outcome A :=
  match r with
  | Ok a => Returns a
  | Err e => Raises (Raised e)
  end.

(** [Series.median()]: the linear quantile at 0.5 of the non-null values. *)
Definition fcol_median (c : list (option float64)) : option float64 :=
  let v := sort_by f_leb (drop_nulls c) in
  let n := List.length v in
  if Nat.even n
  then lift2 (fun lo hi => f_map2 (fun a b => (1 # 2) * (b - a) + a)%Q lo hi)
             (nth_error v (n / 2 - 1)) (nth_error v (n / 2))
  else nth_error v (n / 2).

Definition col_median (c : list (option Q)) : option Q :=
  let v := sort_by Qle_bool (drop_nulls c) in
  let n := List.length v in
  if Nat.even n
  then lift2 (fun lo hi => ((1 # 2) * (hi - lo) + lo)%Q)
             (nth_error v (n / 2 - 1)) (nth_error v (n / 2))
  else nth_error v (n / 2).

Section Reports.

Context {E : Engine} {B : Builtins}.

(** [round(x, ndigits)] where [x] may be [None]; [round(nan, ndigits)] is
    [nan]. *)
Definition round_value (ndigits : nat) (x : option float64) : outcome float64 :=
  match x with
  | Some a => Returns (f_map (py_round ndigits) a)
  | None => Raises TypeError
  end.

(** *** validate_transactions *)

Record amount_stats : Type := {
  amount_min : float64;
  amount_max : float64;
  amount_mean : float64;
  amount_median : float64
}.

Record transaction_report : Type := {
  total_transactions : nat;
  unique_customers : nat;
  amount_report : amount_stats;
  na_currency_count : nat;
  na_category_count : nat
}.

Definition na_count (col : transaction -> string) (df : list transaction) : nat :=
  List.length (filter (fun t => String.eqb (col t) "NA") df).

(** The entries of the report that are numbers.  The sorted code lists,
    the distributions and the timestamp range (strings) are left out: on
    a cleaned table they cannot raise. *)
Definition validate_transactions (df : list transaction) : outcome transaction_report :=
  let amounts := map (fun t => Some (amount t)) df in
  lo <~ round_value 2 (fcol_min amounts) ;;
  hi <~ round_value 2 (fcol_max amounts) ;;
  mean <~ round_value 2 (fcol_mean amounts) ;;
  median <~ round_value 2 (fcol_median amounts) ;;
  Returns {| total_transactions := List.length df;
             unique_customers := List.length (distinct (map t_customer_id df));
             amount_report := {| amount_min := lo; amount_max := hi;
                                 amount_mean := mean; amount_median := median |};
             na_currency_count := na_count currency df;
             na_category_count := na_count category df |}.

(** *** infer_currency_from_country, the count it reports *)

Definition inferred_count (transactions : list transaction) (customers : list customer) : Z :=
  Z.of_nat (na_count currency transactions)
  - Z.of_nat (na_count currency (infer_currency_from_country transactions customers)).

(** *** run_etl, from the loaded tables to the tables it writes

    [validate_customers] builds a report of counts and strings that
    cannot raise on a cleaned customer table; it is left out. *)

Definition run_etl (raw_customers : list raw_customer)
    (raw_transactions : list raw_transaction) (infer_missing_currency : option bool)
    : outcome (list customer * list eur_transaction) :=
  let infer_missing_currency :=
    match infer_missing_currency with Some b => b | None => INFER_MISSING_CURRENCY end in
  clean_cust <~ stage (clean_customers raw_customers) ;;
  clean_txn <~ stage (clean_transactions raw_transactions) ;;
  txn_validation <~ validate_transactions clean_txn ;;
  clean_txn <~ (if infer_missing_currency
                then let inferred := infer_currency_from_country clean_txn clean_cust in
                     txn_validation <~ validate_transactions inferred ;;
                     Returns inferred
                else Returns clean_txn) ;;
  let clean_txn := remove_orphan_transactions clean_txn clean_cust in
  let clean_txn := add_amount_in_eur clean_txn in
  Returns (clean_cust, clean_txn).

(** *** enrich_with_customer_data *)

Record enriched : Type := {
  flags : flagged;
  e_country : option string;
  e_signup_date : option Z;
  e_email : option string
}.

(** The left join on [customer_id]: a feature row once per customer row
    with its id, or once with null attributes when there is none. *)
Definition enrich_with_customer_data (features : list flagged) (customers : list customer)
    : list enriched :=
  flat_map
    (fun r =>
       match filter (fun c => c_customer_id c =? f_customer_id (feat r)) customers with
       | [] => [ {| flags := r; e_country := None; e_signup_date := None; e_email := None |} ]
       | cs => map (fun c => {| flags := r; e_country := Some (country c);
                                e_signup_date := signup_date c; e_email := email c |}) cs
       end)
    features.

(** *** compute_feature_summary *)

(** [DataFrame.filter(column).height] on a boolean column: a null is
    not counted. *)
Definition height_where {A : Type} (col : A -> option bool) (df : list A) : nat :=
  List.length (filter (fun r => match col r with Some true => true | _ => false end) df).

Record spend_stats : Type := {
  spend_min : float64;
  spend_max : float64;
  spend_mean : float64;
  spend_median : float64
}.

Record count_stats : Type := {
  count_min : option Z;
  count_max : option Z;
  count_mean : float64;
  count_median : option Q
}.

Record feature_summary : Type := {
  total_customers : nat;
  high_value_customers : nat;
  churning_customers : nat;
  churning_customers_based_on_z_score : nat;
  single_transaction_customers : nat;
  total_spend_stats : spend_stats;
  transaction_count_stats : count_stats;
  avg_days_since_last_transaction : float64
}.

Definition compute_feature_summary (features : list enriched) : outcome feature_summary :=
  let spend := map (fun r => Some (total_spend (feat (flags r)))) features in
  let counts := map (fun r => Some (transaction_count (feat (flags r)))) features in
  let days := map (fun r => days_since_last_transaction (feat (flags r))) features in
  s_min <~ round_value 2 (fcol_min spend) ;;
  s_max <~ round_value 2 (fcol_max spend) ;;
  s_mean <~ round_value 2 (fcol_mean spend) ;;
  s_median <~ round_value 2 (fcol_median spend) ;;
  c_mean <~ round_value 2 (option_map Num (col_mean (to_float counts))) ;;
  d_mean <~ round_value 1 (option_map Num (col_mean (to_float days))) ;;
  Returns {| total_customers := List.length features;
             high_value_customers := height_where (fun r => is_high_value (flags r)) features;
             churning_customers := height_where (fun r => is_churning (flags r)) features;
             churning_customers_based_on_z_score :=
               height_where (fun r => is_churning_2 (flags r)) features;
             single_transaction_customers :=
               height_where (fun r => Some (has_single_transaction (flags r))) features;
             total_spend_stats := {| spend_min := s_min; spend_max := s_max;
                                     spend_mean := s_mean; spend_median := s_median |};
             transaction_count_stats :=
               {| count_min := col_min_Z counts; count_max := col_max_Z counts;
                  count_mean := c_mean; count_median := col_median (to_float counts) |};
             avg_days_since_last_transaction := d_mean |}.

(** *** run_feature_engineering, from the cleaned tables to the table it writes *)

Definition run_feature_engineering (customers : list customer)
    (transactions : list eur_transaction) (reference_date : option Z)
    (high_value_percentile : option Q) (churn_days : option Z) : outcome (list enriched) :=
  let high_value_percentile :=
    match high_value_percentile with Some p => p | None => HIGH_VALUE_PERCENTILE end in
  let churn_days :=
    match churn_days with Some d => d | None => CHURN_DAYS end in
  features <~ stage (compute_rfm_features transactions reference_date) ;;
  features <~ stage (add_customer_flags features (Some high_value_percentile) (Some churn_days)) ;;
  let features := enrich_with_customer_data features customers in
  summary <~ compute_feature_summary features ;;
  Returns features.

(** *** main *)

Definition main (raw_customers : list raw_customer) (raw_transactions : list raw_transaction)
    : outcome (list enriched) :=
  tables <~ run_etl raw_customers raw_transactions None ;;
  run_feature_engineering (fst tables) (snd tables) None None None.

End Reports.

(** Rounding half to even at [ndigits] decimals, for the runs. *)
Definition round_half_even (ndigits : nat) (q : Q) : Q :=
  let scale := 10 ^ Z.of_nat ndigits in
  let x := (q * inject_Z scale)%Q in
  let lo := Qfloor x in
  let twice := Qfloor (2 * (x - inject_Z lo))%Q in
  let up := if twice =? 0 then false
            else if Qeq_bool (x - inject_Z lo) (1 # 2) then Z.odd lo else true in
  ((if up then lo + 1 else lo) # Z.to_pos scale)%Q.

#[export] Instance reference_builtins : Builtins := {|
  py_round := round_half_even
|}.

(** ** Vocabulary of the further statements *)

Section MoreVocabulary.

Context {E : Engine}.

(** The cleaned row a raw row gives, when it parses and passes the filter. *)
Definition cleaned_customer (r : raw_customer) : option customer :=
  match standardize_customer r with
  | Ok s => keep_customer s
  | Err _ => None
  end.

Definition cleaned_transaction (r : raw_transaction) : option transaction :=
  match standardize_transaction r with
  | Ok s => keep_transaction s
  | Err _ => None
  end.

Definition dated (t : eur_transaction) : bool :=
  match t_time t with
  | Some _ => true
  | None => false
  end.

(** The number of transactions of customer [k] with a timestamp. *)
Definition dated_count (k : Z) (transactions : list eur_transaction) : nat :=
  List.length (filter dated (rows_of k transactions)).

(** A feature row with its recency moved by [delta] days. *)
Definition shift_recency (delta : Z) (f : feature) : feature :=
  {| f_customer_id := f_customer_id f;
     total_spend := total_spend f;
     avg_transaction_amount := avg_transaction_amount f;
     std_transaction_amount := std_transaction_amount f;
     min_transaction_amount := min_transaction_amount f;
     max_transaction_amount := max_transaction_amount f;
     transaction_count := transaction_count f;
     last_transaction_date := last_transaction_date f;
     first_transaction_date := first_transaction_date f;
     preferred_category := preferred_category f;
     preferred_currency := preferred_currency f;
     days_since_last_transaction :=
       option_map (fun d => d + delta) (days_since_last_transaction f);
     customer_tenure_days := customer_tenure_days f;
     mean_interevent_days := mean_interevent_days f;
     std_interevent_days := std_interevent_days f |}.

(** The engine with another order of the values of a group: what may
    differ from one call to the next. *)
Definition with_group_order (g : list string -> list string) : Engine :=
  {| to_uppercase := to_uppercase;
     to_lowercase := to_lowercase;
     strptime_date := strptime_date;
     strptime_datetime := strptime_datetime;
     round2 := round2;
     fsqrt := fsqrt;
     nearest_index := nearest_index;
     group_order := g |}.

(** A feature row without its preferred category and currency. *)
Definition forget_preferences (f : feature) : feature :=
  {| f_customer_id := f_customer_id f;
     total_spend := total_spend f;
     avg_transaction_amount := avg_transaction_amount f;
     std_transaction_amount := std_transaction_amount f;
     min_transaction_amount := min_transaction_amount f;
     max_transaction_amount := max_transaction_amount f;
     transaction_count := transaction_count f;
     last_transaction_date := last_transaction_date f;
     first_transaction_date := first_transaction_date f;
     preferred_category := None;
     preferred_currency := None;
     days_since_last_transaction := days_since_last_transaction f;
     customer_tenure_days := customer_tenure_days f;
     mean_interevent_days := mean_interevent_days f;
     std_interevent_days := std_interevent_days f |}.

(** The table [run_etl] writes for cleaned tables [cs], [ct]. *)
Definition resolved (infer_missing_currency : option bool) (cs : list customer)
    (ct : list transaction) : list eur_transaction :=
  add_amount_in_eur
    (remove_orphan_transactions
       (if match infer_missing_currency with
           | Some b => b
           | None => INFER_MISSING_CURRENCY
           end
        then infer_currency_from_country ct cs
        else ct)
       cs).

(** The interevent column over the rows of one customer, given the row
    before: a row's sample is its distance in days to the row before. *)
Fixpoint gaps (prev : option eur_transaction) (l : list eur_transaction) : list (option Z) :=
  match l with
  | [] => []
  | t :: r =>
      match prev with
      | Some p => option_map total_days (lift2 Z.sub (t_time t) (t_time p))
      | None => None
      end :: gaps (Some t) r
  end.

Definition of_customer (k : Z) (t : eur_transaction) : bool := t_cust t =? k.

(** The interevent samples of customer [k], as [interevent_stats] takes them. *)
Definition samples_of (k : Z) (transactions : list eur_transaction) : list Z :=
  drop_nulls
    (map snd
       (filter (fun r => of_customer k (fst r))
               (with_interevent_days [] (sort_by customer_time_leb transactions)))).

(** The interevent samples as the Float64 column the statistics are taken of. *)
Definition float_samples (k : Z) (transactions : list eur_transaction) : list (option Q) :=
  map (fun d => Some (inject_Z d)) (samples_of k transactions).

(** Ascending timestamps, nulls first. *)
Definition time_leb (a b : eur_transaction) : Prop :=
  opt_leb (t_time a) (t_time b) = true.

(** The enriched row of a feature row, when ids are unique. *)
Definition enrich_row (customers : list customer) (r : flagged) : enriched :=
  match find (fun c => c_customer_id c =? f_customer_id (feat r)) customers with
  | Some c => {| flags := r; e_country := Some (country c);
                 e_signup_date := signup_date c; e_email := email c |}
  | None => {| flags := r; e_country := None; e_signup_date := None; e_email := None |}
  end.

End MoreVocabulary.

(** ** Sample runs of the drivers *)

Definition or_nothing {A : Type} (o : outcome (list A)) : list A :=
  match o with
  | Returns l => l
  | Raises _ => []
  end.

Definition sample_enriched : list enriched :=
  Eval vm_compute in
    or_nothing (main (E := reference_engine) sample_raw_customers sample_raw_transactions).

(** ** Facts about the column helpers *)

Lemma bind_ok {A B : Type} (r : result A) (k : A -> result B) (b : B) :
  bind r k = Ok b -> exists a, r = Ok a /\ k a = Ok b.
Proof.
  destruct r as [a | e]; simpl; intro H.
  - exists a. split; [reflexivity | exact H].
  - discriminate H.
Qed.

Lemma map_result_In {A B : Type} (f : A -> result B) (l : list A) (l' : list B) :
  map_result f l = Ok l' ->
  forall y, In y l' -> exists x, In x l /\ f x = Ok y.
Proof.
  revert l'. induction l as [| x r IH]; simpl; intros l' H y Hy.
  - inversion H; subst. destruct Hy.
  - apply bind_ok in H. destruct H as [y0 [Hx H]].
    apply bind_ok in H. destruct H as [ys [Hr H]].
    inversion H; subst. destruct Hy as [-> | Hy].
    + exists x. auto.
    + destruct (IH ys Hr y Hy) as [x' [Hin Hf]]. exists x'. auto.
Qed.

Lemma map_result_total {A B : Type} (f : A -> result B) (l : list A) :
  (forall x, In x l -> exists y, f x = Ok y) ->
  exists l', map_result f l = Ok l'.
Proof.
  induction l as [| x r IH]; simpl; intro H.
  - exists []. reflexivity.
  - destruct (H x (or_introl eq_refl)) as [y Hy].
    destruct IH as [ys Hys]; [intros; apply H; auto |].
    exists (y :: ys). rewrite Hy, Hys. reflexivity.
Qed.

Lemma filter_map_In {A B : Type} (f : A -> option B) (l : list A) (y : B) :
  In y (filter_map f l) <-> exists x, In x l /\ f x = Some y.
Proof.
  induction l as [| x r IH]; simpl.
  - split; [intros [] | intros [x [[] _]]].
  - destruct (f x) as [y' |] eqn:Hx; simpl; rewrite IH; split.
    + intros [-> | [x' [Hin Hf]]]; [exists x | exists x']; auto.
    + intros [x' [[-> | Hin] Hf]].
      * left. congruence.
      * right. exists x'. auto.
    + intros [x' [Hin Hf]]. exists x'. auto.
    + intros [x' [[-> | Hin] Hf]]; [congruence | exists x'; auto].
Qed.

Lemma filter_map_map {A B C : Type} (g : A -> B) (f : B -> option C) (l : list A) :
  filter_map f (map g l) = filter_map (fun x => f (g x)) l.
Proof.
  induction l as [| x r IH]; simpl; [reflexivity |].
  rewrite IH. reflexivity.
Qed.

Lemma existsb_Zeqb (k : Z) (l : list Z) :
  existsb (Z.eqb k) l = true <-> In k l.
Proof.
  rewrite existsb_exists. split.
  - intros [x [Hin Heq]]. apply Z.eqb_eq in Heq. subst. exact Hin.
  - intro Hin. exists k. split; [exact Hin | apply Z.eqb_refl].
Qed.

Lemma unique_first_In {A : Type} (key : A -> Z) (l : list A) :
  forall seen x, In x (unique_first key seen l) -> In x l /\ ~ In (key x) seen.
Proof.
  induction l as [| y r IH]; simpl; intros seen x H; [destruct H |].
  destruct (existsb (Z.eqb (key y)) seen) eqn:Hs.
  - destruct (IH _ _ H). auto.
  - destruct H as [-> | H].
    + split; [auto |]. intro Hin. apply existsb_Zeqb in Hin. congruence.
    + destruct (IH _ _ H) as [Hin Hn]. split; [auto |].
      intro Hx. apply Hn. right. exact Hx.
Qed.

Lemma unique_first_NoDup {A : Type} (key : A -> Z) (l : list A) :
  forall seen, NoDup (map key (unique_first key seen l)).
Proof.
  induction l as [| y r IH]; simpl; intro seen; [constructor |].
  destruct (existsb (Z.eqb (key y)) seen); [apply IH |].
  simpl. constructor; [| apply IH].
  intro Hin. apply in_map_iff in Hin. destruct Hin as [x [Hk Hx]].
  apply unique_first_In in Hx. destruct Hx as [_ Hn].
  apply Hn. left. symmetry. exact Hk.
Qed.

Lemma unique_first_keeps {A : Type} (key : A -> Z) (l : list A) :
  forall seen x, In x l -> ~ In (key x) seen ->
  In (key x) (map key (unique_first key seen l)).
Proof.
  induction l as [| y r IH]; simpl; intros seen x H Hn; [destruct H |].
  destruct (existsb (Z.eqb (key y)) seen) eqn:Hs.
  - destruct H as [-> | H].
    + apply existsb_Zeqb in Hs. contradiction.
    + apply IH; assumption.
  - simpl. destruct (Z.eq_dec (key y) (key x)) as [Heq | Hne]; [left; exact Heq |].
    right. destruct H as [-> | H]; [congruence |].
    apply IH; [exact H |]. intros [Hc | Hc]; [congruence | contradiction].
Qed.

Lemma insert_by_perm {A : Type} (leb : A -> A -> bool) (x : A) (l : list A) :
  Permutation (insert_by leb x l) (x :: l).
Proof.
  induction l as [| y r IH]; simpl; [apply Permutation_refl |].
  destruct (leb x y); [apply Permutation_refl |].
  eapply perm_trans; [apply perm_skip, IH | apply perm_swap].
Qed.

Lemma sort_by_perm {A : Type} (leb : A -> A -> bool) (l : list A) :
  Permutation (sort_by leb l) l.
Proof.
  induction l as [| x r IH]; simpl; [apply perm_nil |].
  eapply perm_trans; [apply insert_by_perm | apply perm_skip, IH].
Qed.

Lemma sort_on_NoDup {A : Type} (key : A -> Z) (l : list A) :
  NoDup (map key l) -> NoDup (map key (sort_on key l)).
Proof.
  intro H. eapply Permutation_NoDup; [| exact H].
  apply Permutation_map, Permutation_sym, sort_by_perm.
Qed.

Lemma sort_on_In {A : Type} (key : A -> Z) (l : list A) (x : A) :
  In x (sort_on key l) -> In x l.
Proof.
  apply Permutation_in, sort_by_perm.
Qed.

(** ** The cleaning stage *)

Section EtlFacts.

Context {E : Engine}.

Lemma keep_customer_valid (s : std_customer) (c : customer) :
  keep_customer s = Some c -> In (country c) VALID_COUNTRIES.
Proof.
  unfold keep_customer.
  destruct (std_c_customer_id s) as [i |]; [| discriminate].
  destruct (std_country s) as [k |]; [| discriminate].
  destruct (is_in k VALID_COUNTRIES) eqn:Hk; [| discriminate].
  intro H. inversion H; subst; simpl.
  unfold is_in in Hk. apply existsb_exists in Hk.
  destruct Hk as [v [Hin Hv]]. apply String.eqb_eq in Hv. subst. exact Hin.
Qed.

Lemma Qlt_bool_lt (x y : Q) : Qlt_bool x y = true -> (x < y)%Q.
Proof.
  unfold Qlt_bool. intro H. apply negb_true_iff in H.
  apply Qnot_le_lt. intro Hle. apply Qle_bool_iff in Hle. congruence.
Qed.

(** What passes the comparison [> 0]: a positive number, and NaN. *)
Lemma f_ltb_zero (a : float64) :
  f_ltb (Num 0) a = true <-> positive_or_nan a.
Proof.
  unfold f_ltb, positive_or_nan. destruct a as [q |]; simpl.
  - split; intro H.
    + apply Qlt_bool_lt. exact H.
    + apply negb_true_iff, not_true_is_false. intro Hle.
      apply Qle_bool_iff in Hle. apply (Qlt_not_le _ _ H Hle).
  - tauto.
Qed.

Lemma keep_transaction_spec (s : std_transaction) (t : transaction) :
  keep_transaction s = Some t ->
  positive_or_nan (amount t) /\
  std_amount s = Some (amount t) /\
  std_transaction_id s = Some (transaction_id t) /\
  currency t = std_t_currency s /\ category t = std_t_category s.
Proof.
  unfold keep_transaction.
  destruct (std_transaction_id s) as [i |]; [| discriminate].
  destruct (std_t_customer_id s) as [c |]; [| discriminate].
  destruct (std_amount s) as [a |]; [| discriminate].
  destruct (f_ltb (Num 0) a) eqn:Ha; [| discriminate].
  intro H. inversion H; subst; simpl.
  split; [apply f_ltb_zero; exact Ha | auto].
Qed.

Lemma standardize_transaction_spec (r : raw_transaction) (s : std_transaction) :
  standardize_transaction r = Ok s ->
  std_transaction_id s = raw_transaction_id r /\
  std_t_currency s = std_currency (raw_currency r) /\
  std_t_category s = std_category (raw_category r).
Proof.
  unfold standardize_transaction. intro H.
  apply bind_ok in H. destruct H as [ts [_ H]].
  inversion H; subst; simpl. auto.
Qed.

(** The cleaning functions return a table whenever every non-null date of
    the input parses. *)
Lemma clean_customers_returns (df : list raw_customer) :
  (forall r s, In r df -> raw_signup_date r = Some s -> strptime_date s <> None) ->
  exists cs, clean_customers df = Ok cs.
Proof.
  intro H. unfold clean_customers.
  destruct (map_result_total standardize_customer df) as [std Hstd].
  - intros r Hr. unfold standardize_customer, strict_parse.
    destruct (raw_signup_date r) as [s |] eqn:Hs; simpl; [| eauto].
    specialize (H r s Hr Hs).
    destruct (strptime_date s); [simpl; eauto | contradiction].
  - rewrite Hstd. simpl. eauto.
Qed.

Lemma clean_transactions_returns (df : list raw_transaction) :
  (forall r s, In r df -> raw_timestamp r = Some s -> strptime_datetime s <> None) ->
  exists ts, clean_transactions df = Ok ts.
Proof.
  intro H. unfold clean_transactions.
  destruct (map_result_total standardize_transaction df) as [std Hstd].
  - intros r Hr. unfold standardize_transaction, strict_parse.
    destruct (raw_timestamp r) as [s |] eqn:Hs; simpl; [| eauto].
    specialize (H r s Hr Hs).
    destruct (strptime_datetime s); [simpl; eauto | contradiction].
  - rewrite Hstd. simpl. eauto.
Qed.

Lemma clean_customers_unique (raw : list raw_customer) (cs : list customer) :
  clean_customers raw = Ok cs -> NoDup (map c_customer_id cs).
Proof.
  unfold clean_customers. intro H.
  apply bind_ok in H. destruct H as [std [_ H]]. inversion H; subst cs.
  apply sort_on_NoDup, unique_first_NoDup.
Qed.

(** C9.  Whatever the raw tables, a cleaned customer table has pairwise
    distinct [customer_id]s and only countries of [VALID_COUNTRIES]; a
    cleaned transaction table has pairwise distinct [transaction_id]s, in
    every row an [amount] that passed the filter [amount > 0], that is a
    positive number or NaN, and a [currency] and [category] that are
    strings, never null: every cleaned row comes from a raw row with its
    id, and where that row's currency (category) was null the cleaned row
    holds the sentinel "NA". *)
Theorem cleaned_tables_invariants (raw_c : list raw_customer) (raw_t : list raw_transaction)
    (cs : list customer) (ts : list transaction) :
  clean_customers raw_c = Ok cs ->
  clean_transactions raw_t = Ok ts ->
  NoDup (map c_customer_id cs) /\
  Forall (fun c => In (country c) VALID_COUNTRIES) cs /\
  NoDup (map transaction_id ts) /\
  Forall (fun t => amount t = NaN \/ exists q, amount t = Num q /\ (0 < q)%Q) ts /\
  Forall (fun t => exists r, In r raw_t /\
                   raw_transaction_id r = Some (transaction_id t) /\
                   (raw_currency r = None -> currency t = "NA") /\
                   (raw_category r = None -> category t = "NA")) ts.
Proof.
  unfold clean_customers, clean_transactions. intros Hc Ht.
  apply bind_ok in Hc. destruct Hc as [sc [Hsc Hc]]. inversion Hc; subst cs; clear Hc.
  apply bind_ok in Ht. destruct Ht as [st [Hst Ht]]. inversion Ht; subst ts; clear Ht.
  split; [apply sort_on_NoDup, unique_first_NoDup |].
  split.
  { apply Forall_forall. intros c Hin.
    apply sort_on_In, unique_first_In in Hin. destruct Hin as [Hin _].
    apply filter_map_In in Hin. destruct Hin as [s [_ Hs]].
    eapply keep_customer_valid; eassumption. }
  split; [apply sort_on_NoDup, unique_first_NoDup |].
  assert (Hrows : forall t,
             In t (sort_on transaction_id
                     (unique_first transaction_id [] (filter_map keep_transaction st))) ->
             exists s r, keep_transaction s = Some t /\ In r raw_t /\
                         standardize_transaction r = Ok s).
  { intros t Hin.
    apply sort_on_In, unique_first_In in Hin. destruct Hin as [Hin _].
    apply filter_map_In in Hin. destruct Hin as [s [Hs Hk]].
    destruct (map_result_In _ _ _ Hst s Hs) as [r [Hr Hrs]].
    exists s, r. auto. }
  split; apply Forall_forall; intros t Hin;
    destruct (Hrows t Hin) as [s [r [Hk [Hr Hs]]]];
    apply keep_transaction_spec in Hk; destruct Hk as [Hpos [_ [Hid [Hcur Hcat]]]].
  - destruct (amount t) as [q |]; [right; exists q; auto | left; reflexivity].
  - apply standardize_transaction_spec in Hs. destruct Hs as [Hid' [Hcur' Hcat']].
    exists r. split; [exact Hr |]. split; [congruence |].
    split; intro Hn.
    + rewrite Hcur, Hcur', Hn. reflexivity.
    + rewrite Hcat, Hcat', Hn. reflexivity.
Qed.

(** *** remove_orphan_transactions *)

(** C8.  The output of [remove_orphan_transactions] is the input table
    restricted, in row order and row for row unchanged, to the
    transactions whose [customer_id] occurs in the customer table; so its
    [customer_id]s all occur in the customer table, and a row is in the
    output exactly when it is in the input and its customer exists. *)
Theorem remove_orphan_transactions_exact (transactions : list transaction)
    (customers : list customer) :
  let out := remove_orphan_transactions transactions customers in
  out = filter (has_customer customers) transactions /\
  incl (map t_customer_id out) (map c_customer_id customers) /\
  (forall t, In t out <->
             In t transactions /\ In (t_customer_id t) (map c_customer_id customers)).
Proof.
  assert (Hpred : forall t,
             existsb (Z.eqb (t_customer_id t))
                     (nodup Z.eq_dec (map c_customer_id customers)) = true <->
             In (t_customer_id t) (map c_customer_id customers)).
  { intro t. rewrite existsb_Zeqb. apply nodup_In. }
  assert (Hin : forall t, In t (remove_orphan_transactions transactions customers) <->
                          In t transactions /\
                          In (t_customer_id t) (map c_customer_id customers)).
  { intro t. unfold remove_orphan_transactions. rewrite filter_In, Hpred. reflexivity. }
  simpl. split; [| split].
  - unfold remove_orphan_transactions. apply filter_ext. intro t.
    unfold has_customer.
    destruct (in_dec Z.eq_dec (t_customer_id t) (map c_customer_id customers)) as [Hy | Hn].
    + apply Hpred. exact Hy.
    + apply not_true_is_false. intro Ht. apply Hn, Hpred, Ht.
  - intros k Hk. apply in_map_iff in Hk. destruct Hk as [t [<- Ht]].
    apply Hin in Ht. tauto.
  - exact Hin.
Qed.

End EtlFacts.

(** ** Currency inference *)

Lemma filter_unique_key (customers : list customer) (k : Z) :
  NoDup (map c_customer_id customers) ->
  filter (fun c => c_customer_id c =? k) customers =
  match find (fun c => c_customer_id c =? k) customers with
  | Some c => [c]
  | None => []
  end.
Proof.
  induction customers as [| c r IH]; simpl; intro H; [reflexivity |].
  inversion H as [| ? ? Hn Hr]; subst.
  destruct (c_customer_id c =? k) eqn:Hk.
  - f_equal. apply Z.eqb_eq in Hk.
    destruct (filter (fun c0 => c_customer_id c0 =? k) r) as [| c' r'] eqn:Hf; [reflexivity |].
    exfalso. apply Hn.
    assert (Hin : In c' (filter (fun c0 => c_customer_id c0 =? k) r))
      by (rewrite Hf; left; reflexivity).
    apply filter_In in Hin. destruct Hin as [Hin Hc'].
    apply Z.eqb_eq in Hc'. rewrite Hk, <- Hc'. apply in_map. exact Hin.
  - apply IH. exact Hr.
Qed.

Lemma infer_as_map (transactions : list transaction) (customers : list customer) :
  NoDup (map c_customer_id customers) ->
  infer_currency_from_country transactions customers =
  map (infer_row customers) transactions.
Proof.
  intro H. unfold infer_currency_from_country, join_country.
  induction transactions as [| t r IH]; [reflexivity |].
  cbn [flat_map]. rewrite map_app, IH. clear IH.
  rewrite (filter_unique_key customers (t_customer_id t) H).
  unfold infer_row, customer_country.
  destruct (find (fun c => c_customer_id c =? t_customer_id t) customers) eqn:Hf;
    cbn [map app fst snd]; rewrite Hf; reflexivity.
Qed.

Lemma with_currency_same (t : transaction) : with_currency t (currency t) = t.
Proof. destruct t; reflexivity. Qed.

Lemma infer_row_real_currency (customers : list customer) (t : transaction) :
  currency t <> "NA" -> infer_row customers t = t.
Proof.
  intro H. unfold infer_row, inferred_currency.
  destruct (String.eqb (currency t) "NA") eqn:Hc.
  - apply String.eqb_eq in Hc. contradiction.
  - apply with_currency_same.
Qed.

Lemma infer_row_idempotent (customers : list customer) (t : transaction) :
  infer_row customers (infer_row customers t) = infer_row customers t.
Proof.
  unfold infer_row at 2 3. unfold inferred_currency.
  destruct (String.eqb (currency t) "NA") eqn:Hc.
  - set (c' := match replace_strict COUNTRY_CURRENCY_MAP (Some "NA")
                       (customer_country customers (t_customer_id t)) with
               | Some c => c
               | None => "NA"
               end).
    unfold infer_row, inferred_currency. simpl.
    destruct (String.eqb c' "NA") eqn:Hc'; [| reflexivity].
    fold c'. reflexivity.
  - rewrite with_currency_same. unfold infer_row, inferred_currency.
    rewrite Hc. apply with_currency_same.
Qed.

Lemma infer_twice_unique_ids (transactions : list transaction) (customers : list customer) :
  NoDup (map c_customer_id customers) ->
  infer_currency_from_country (infer_currency_from_country transactions customers) customers =
  infer_currency_from_country transactions customers.
Proof.
  intro H. rewrite !(infer_as_map _ _ H).
  rewrite map_map. apply map_ext. intro t. apply infer_row_idempotent.
Qed.

Lemma infer_real_currencies (transactions : list transaction) (customers : list customer) :
  NoDup (map c_customer_id customers) ->
  Forall2 (fun t t' => currency t <> "NA" -> t' = t)
          transactions (infer_currency_from_country transactions customers).
Proof.
  intro H. rewrite (infer_as_map _ _ H).
  induction transactions as [| t r IH]; simpl; constructor; [| exact IH].
  apply infer_row_real_currency.
Qed.

(** Without unique ids the left join repeats rows, and a second inference
    repeats them again. *)
Remark infer_repeats_rows_on_duplicate_ids :
  let twins := [ {| c_customer_id := 1; country := "DK"; signup_date := None; email := None |};
                 {| c_customer_id := 1; country := "DK"; signup_date := None; email := None |} ] in
  let one := [ {| transaction_id := 1; t_customer_id := 1; amount := Num 1; currency := "NA";
                  timestamp := None; category := "NA" |} ] in
  List.length (infer_currency_from_country one twins) = 2%nat /\
  List.length (infer_currency_from_country (infer_currency_from_country one twins) twins) = 4%nat.
Proof. split; reflexivity. Qed.

(** C6.  For a cleaned customer table (its [customer_id]s are unique) and
    any table of cleaned transactions, inferring currencies twice gives
    the same transaction table as inferring once; and inference returns
    every row that bears a real currency as it is. *)
Theorem infer_currency_idempotent {E : Engine} (raw_customers : list raw_customer)
    (customers : list customer) (transactions : list transaction) :
  clean_customers raw_customers = Ok customers ->
  infer_currency_from_country (infer_currency_from_country transactions customers) customers =
  infer_currency_from_country transactions customers /\
  Forall2 (fun t t' => currency t <> "NA" -> t' = t)
          transactions (infer_currency_from_country transactions customers).
Proof.
  intro H. apply clean_customers_unique in H. split.
  - apply infer_twice_unique_ids. exact H.
  - apply infer_real_currencies. exact H.
Qed.

Lemma infer_row_frame (customers : list customer) (t : transaction) :
  inferred_from customers t (infer_row customers t).
Proof.
  unfold inferred_from, infer_row, inferred_currency, customer_country.
  generalize COUNTRY_CURRENCY_MAP as m. intro m. simpl.
  do 5 (split; [reflexivity |]).
  destruct (String.eqb (currency t) "NA") eqn:Hc.
  - apply String.eqb_eq in Hc.
    destruct (find (fun c => c_customer_id c =? t_customer_id t) customers) as [c |] eqn:Hf;
      simpl.
    + apply find_some in Hf. destruct Hf as [Hin Hid]. apply Z.eqb_eq in Hid.
      destruct (lookup (country c) m) as [v |] eqn:Hl.
      * split.
        -- intros _. split; [exact Hc |]. exists c. auto.
        -- intro Hnone. specialize (Hnone c Hin Hid). congruence.
      * split; [intro Hne; congruence | intros _; congruence].
    + split; [intro Hne; congruence | intros _; congruence].
  - split; [intro Hne; congruence | reflexivity].
Qed.

(** C7.  With unique [customer_id]s in the customer table,
    [infer_currency_from_country] returns one row per input row, in order;
    each differs from its input row at most in [currency]; the currency
    differs only where it was "NA" and the customer's country has a
    mapping, and stays where the customer is missing or its country has no
    mapping. *)
Theorem infer_currency_frame (transactions : list transaction) (customers : list customer) :
  NoDup (map c_customer_id customers) ->
  List.length (infer_currency_from_country transactions customers) = List.length transactions /\
  Forall2 (inferred_from customers) transactions
          (infer_currency_from_country transactions customers).
Proof.
  intro H. rewrite (infer_as_map _ _ H). split; [apply length_map |].
  induction transactions as [| t r IH]; simpl; constructor.
  - apply infer_row_frame.
  - exact IH.
Qed.

(** ** Grouping *)

Lemma distinct_In (l : list Z) (k : Z) : In k (distinct l) <-> In k l.
Proof.
  unfold distinct. split.
  - intro H. apply unique_first_In in H. tauto.
  - intro H.
    pose proof (unique_first_keeps (fun k : Z => k) l [] k H (fun F => F)) as Hk.
    rewrite map_id in Hk. exact Hk.
Qed.

Lemma distinct_NoDup (l : list Z) : NoDup (distinct l).
Proof.
  pose proof (unique_first_NoDup (fun k : Z => k) l []) as H.
  rewrite map_id in H. exact H.
Qed.

Lemma group_by_In {A : Type} (key : A -> Z) (l : list A) (g : Z * list A) :
  In g (group_by key l) <->
  In (fst g) (map key l) /\ snd g = filter (fun x => key x =? fst g) l.
Proof.
  unfold group_by. rewrite in_map_iff. split.
  - intros [k [<- Hk]]. simpl. split; [apply distinct_In; exact Hk | reflexivity].
  - intros [Hk Hs]. exists (fst g). split.
    + rewrite <- Hs. destruct g; reflexivity.
    + apply distinct_In. exact Hk.
Qed.

Lemma group_by_keys {A : Type} (key : A -> Z) (l : list A) :
  map fst (group_by key l) = distinct (map key l).
Proof.
  unfold group_by. rewrite map_map. simpl. apply map_id.
Qed.

Section FeatureFacts.

Context {E : Engine}.

(** Every output row of [compute_rfm_features] is the aggregate of the rows
    of one customer that has a transaction. *)
Lemma compute_rfm_features_rows (transactions : list eur_transaction)
    (reference_date : option Z) (fs : list feature) :
  compute_rfm_features transactions reference_date = Ok fs ->
  exists ref,
    match reference_date with
    | Some d => Ok d
    | None => default_reference_date transactions
    end = Ok ref /\
    fs = map (rfm_row ref (interevent_stats transactions)) (group_by t_cust transactions) /\
    forall f, In f fs <->
              exists k, In k (map t_cust transactions) /\
                        f = rfm_row ref (interevent_stats transactions)
                                    (k, rows_of k transactions).
Proof.
  unfold compute_rfm_features. intro H.
  apply bind_ok in H. destruct H as [ref [Href H]].
  inversion H; subst fs; clear H.
  exists ref. split; [exact Href |]. split; [reflexivity |].
  intro f. rewrite in_map_iff. split.
  - intros [g [<- Hg]]. apply group_by_In in Hg. destruct Hg as [Hk Hs].
    exists (fst g). split; [exact Hk |].
    unfold rows_of. rewrite <- Hs. destruct g; reflexivity.
  - intros [k [Hk ->]]. exists (k, rows_of k transactions). split; [reflexivity |].
    apply group_by_In. simpl. auto.
Qed.

(** *** Null amounts *)




(** A null amount is not a zero amount: the mean and the minimum of a
    column with a null differ from those of the column with 0 in its place. *)
Remark null_amount_is_not_zero :
  fcol_mean [Some (Num 10); None] = Some (Num 10) /\
  fcol_mean [Some (Num 10); Some (Num 0)] = Some (Num (10 # 2)) /\
  fcol_min [Some (Num 10); None] = Some (Num 10) /\
  fcol_min [Some (Num 10); Some (Num 0)] = Some (Num 0).
Proof. repeat split; reflexivity. Qed.

(** *** Extrema of a column *)

Lemma drop_nulls_In {A : Type} (c : list (option A)) (x : A) :
  In x (drop_nulls c) <-> In (Some x) c.
Proof.
  unfold drop_nulls. rewrite filter_map_In. split.
  - intros [o [Hin ->]]. exact Hin.
  - intro Hin. exists (Some x). auto.
Qed.

Lemma fold_max_spec (l : list Z) :
  forall x, let m := fold_left Z.max l x in
            x <= m /\ (forall y, In y l -> y <= m) /\ (m = x \/ In m l).
Proof.
  induction l as [| y r IH]; intro x; simpl.
  - split; [lia |]. split; [intros y [] | left; reflexivity].
  - destruct (IH (Z.max x y)) as [H1 [H2 H3]]. split; [lia |]. split.
    + intros z [<- | Hz]; [lia | apply H2; exact Hz].
    + destruct H3 as [H3 | H3]; [| right; right; exact H3].
      rewrite H3. destruct (Z.max_spec x y) as [[_ Hm] | [_ Hm]]; rewrite Hm.
      * right. left. reflexivity.
      * left. reflexivity.
Qed.

Lemma col_max_Z_spec (c : list (option Z)) (m : Z) :
  col_max_Z c = Some m ->
  In (Some m) c /\ forall x, In (Some x) c -> x <= m.
Proof.
  unfold col_max_Z, reduce.
  destruct (drop_nulls c) as [| x r] eqn:Hd; [discriminate |].
  intro H. inversion H as [Hm]. clear H.
  destruct (fold_max_spec r x) as [H1 [H2 H3]]. simpl in H1, H2, H3.
  split.
  - apply drop_nulls_In. rewrite Hd.
    destruct H3 as [H3 | H3]; [left; symmetry; exact H3 | right; exact H3].
  - intros y Hy. apply drop_nulls_In in Hy. rewrite Hd in Hy.
    destruct Hy as [<- | Hy]; [exact H1 | apply H2; exact Hy].
Qed.

Lemma col_max_Z_none (c : list (option Z)) :
  col_max_Z c = None <-> forall x, ~ In (Some x) c.
Proof.
  unfold col_max_Z, reduce. split.
  - destruct (drop_nulls c) as [| y r] eqn:Hd; [| discriminate].
    intros _ x Hx. apply drop_nulls_In in Hx. rewrite Hd in Hx. destruct Hx.
  - intro H. destruct (drop_nulls c) as [| y r] eqn:Hd; [reflexivity |].
    exfalso. apply (H y). apply drop_nulls_In. rewrite Hd. left. reflexivity.
Qed.

Lemma date_of_mono (a b : Z) : a <= b -> date_of a <= date_of b.
Proof.
  intro H. unfold date_of, US_PER_DAY. apply Z.div_le_mono; lia.
Qed.

Lemma rows_of_time (k : Z) (transactions : list eur_transaction) (x : Z) :
  In (Some x) (map t_time (rows_of k transactions)) ->
  In (Some x) (map t_time transactions).
Proof.
  rewrite !in_map_iff. intros [t [Ht Hin]].
  unfold rows_of in Hin. apply filter_In in Hin. exists t. tauto.
Qed.

(** *** Interevent statistics *)

Lemma length_filter_perm {A : Type} (f : A -> bool) (l l' : list A) :
  Permutation l l' -> List.length (filter f l) = List.length (filter f l').
Proof.
  induction 1 as [| x l l' _ IH | x y l | l l' l'' _ IH1 _ IH2]; simpl.
  - reflexivity.
  - destruct (f x); simpl; congruence.
  - destruct (f x), (f y); reflexivity.
  - congruence.
Qed.

(** A row gets an interevent sample only when its customer has an earlier
    row: at least two rows in all. *)
Lemma with_interevent_days_some (l : list eur_transaction) :
  forall before x d,
    In (x, Some d) (with_interevent_days before l) ->
    (2 <= List.length (filter (fun p => (t_cust p =? t_cust x)%Z) (before ++ l)))%nat.
Proof.
  induction l as [| t r IH]; simpl; intros before x d H; [destruct H |].
  destruct H as [H | H].
  - inversion H as [[Hx Hd]]. subst x. clear H.
    rewrite filter_app, length_app. simpl. rewrite Z.eqb_refl. simpl.
    unfold interevent_of, shift_over in Hd.
    destruct (find (fun p => t_cust p =? t_cust t) before) as [p |] eqn:Hf.
    + apply find_some in Hf. destruct Hf as [Hin Hp].
      assert (Hp' : In p (filter (fun p => t_cust p =? t_cust t) before))
        by (apply filter_In; auto).
      destruct (filter (fun p => t_cust p =? t_cust t) before); [destruct Hp' |].
      simpl. lia.
    + destruct (t_time t); discriminate.
  - apply IH in H.
    rewrite (length_filter_perm _ (before ++ t :: r) ((t :: before) ++ r)); [exact H |].
    simpl. apply Permutation_sym, Permutation_middle.
Qed.

Lemma interevent_stats_none (transactions : list eur_transaction) (k : Z) :
  (List.length (rows_of k transactions) < 2)%nat ->
  find (fun s => ie_customer_id s =? k) (interevent_stats transactions) = None.
Proof.
  intro Hlen.
  destruct (find (fun s => ie_customer_id s =? k) (interevent_stats transactions))
    as [s |] eqn:Hf; [| reflexivity].
  exfalso. apply find_some in Hf. destruct Hf as [Hin Hk]. apply Z.eqb_eq in Hk.
  unfold interevent_stats in Hin. apply in_map_iff in Hin.
  destruct Hin as [g [Hs Hg]]. subst s. simpl in Hk.
  apply group_by_In in Hg. destruct Hg as [Hkey _]. rewrite Hk in Hkey.
  apply in_map_iff in Hkey. destruct Hkey as [[x o] [Hx Hrow]]. simpl in Hx.
  apply filter_In in Hrow. destruct Hrow as [Hrow Ho]. simpl in Ho.
  destruct o as [d |]; [| discriminate].
  apply with_interevent_days_some in Hrow. simpl in Hrow.
  rewrite Hx in Hrow.
  rewrite (length_filter_perm _ _ transactions (sort_by_perm _ _)) in Hrow.
  unfold rows_of in Hlen. lia.
Qed.

(** The flags are computed row by row. *)
Lemma add_customer_flags_rows (features : list feature)
    (high_value_percentile : option Q) (churn_days : option Z) (out : list flagged) :
  add_customer_flags features high_value_percentile churn_days = Ok out ->
  exists threshold,
    quantile (map total_spend features)
             match high_value_percentile with
             | Some p => p
             | None => HIGH_VALUE_PERCENTILE
             end = Ok threshold /\
    out = map (flag_row threshold
                        match churn_days with Some d => d | None => CHURN_DAYS end)
              features.
Proof.
  unfold add_customer_flags. intro H.
  apply bind_ok in H. destruct H as [threshold [Hq H]].
  inversion H; subst out. exists threshold. auto.
Qed.

(** C3 (amended).  A customer with exactly one transaction has exactly one
    feature row; it has [transaction_count = 1], a null
    [std_transaction_amount], a null [mean_interevent_days] and
    [std_interevent_days], and [customer_tenure_days = 0] when the
    transaction's timestamp is not null (null when it is).
    [add_customer_flags] sets [has_single_transaction] to true exactly in
    the rows with [transaction_count = 1]. *)
Theorem single_transaction_customer (transactions : list eur_transaction)
    (reference_date : option Z) (fs : list feature) (k : Z) (t : eur_transaction) :
  compute_rfm_features transactions reference_date = Ok fs ->
  rows_of k transactions = [t] ->
  (exists f, In f fs /\ f_customer_id f = k /\
             (forall f', In f' fs -> f_customer_id f' = k -> f' = f) /\
             transaction_count f = 1 /\
             customer_tenure_days f = option_map (fun _ => 0) (t_time t) /\
             std_transaction_amount f = None /\
             mean_interevent_days f = None /\
             std_interevent_days f = None) /\
  (forall p d out, add_customer_flags fs p d = Ok out ->
     List.length out = List.length fs /\
     Forall (fun r => has_single_transaction r = true <-> transaction_count (feat r) = 1) out).
Proof.
  intros H Hrows. split.
  - apply compute_rfm_features_rows in H. destruct H as [ref [_ [_ Hfs]]].
    exists (rfm_row ref (interevent_stats transactions) (k, rows_of k transactions)).
    assert (Hk : In k (map t_cust transactions)).
    { assert (Hin : In t (rows_of k transactions)) by (rewrite Hrows; left; reflexivity).
      unfold rows_of in Hin. apply filter_In in Hin. destruct Hin as [Hin Hc].
      apply Z.eqb_eq in Hc. rewrite <- Hc. apply in_map. exact Hin. }
    split; [apply Hfs; exists k; auto |].
    split; [reflexivity |].
    split.
    { intros f' Hf' Hid. apply Hfs in Hf'. destruct Hf' as [k' [_ ->]].
      simpl in Hid. subst k'. reflexivity. }
    unfold rfm_row. cbn [transaction_count customer_tenure_days std_transaction_amount
                         mean_interevent_days std_interevent_days fst snd].
    rewrite (interevent_stats_none transactions k) by (rewrite Hrows; simpl; lia).
    rewrite Hrows. cbn [map List.length].
    split; [reflexivity |].
    split.
    { unfold col_max_Z, col_min_Z, drop_nulls. simpl.
      destruct (t_time t) as [x |]; simpl; [| reflexivity].
      rewrite Z.sub_diag. reflexivity. }
    split; [| split; reflexivity].
    unfold fcol_std, drop_nulls. simpl.
    destruct (amount_in_eur t); reflexivity.
  - intros p d out Hout. apply add_customer_flags_rows in Hout.
    destruct Hout as [threshold [_ ->]]. split; [apply length_map |].
    apply Forall_forall. intros r Hr. apply in_map_iff in Hr.
    destruct Hr as [f [<- _]]. simpl. apply Z.eqb_eq.
Qed.

(** *** Recency against the default reference date *)

Lemma default_reference_date_none (transactions : list eur_transaction) :
  (forall t, In t transactions -> t_time t = None) ->
  compute_rfm_features transactions None = Err AttributeError.
Proof.
  intro H. unfold compute_rfm_features, default_reference_date.
  replace (col_max_Z (map t_time transactions)) with (@None Z); [reflexivity |].
  symmetry. apply col_max_Z_none. intros x Hx.
  apply in_map_iff in Hx. destruct Hx as [t [Ht Hin]].
  rewrite (H t Hin) in Ht. discriminate.
Qed.

(** C10 (amended).  Called with [reference_date = None] on a table with at
    least one non-null timestamp, [compute_rfm_features] returns, and the
    reference date it uses is the date of the latest timestamp [m] of the
    table: in every row [days_since_last_transaction] is the distance in
    days from the customer's last transaction date to the date of [m].
    It is null exactly in the rows of the customers all of whose
    timestamps are null, [>= 0] in every other row, and 0 for every
    customer that owns a transaction at [m]. *)
Theorem default_reference_date_recency (transactions : list eur_transaction) :
  (exists t, In t transactions /\ t_time t <> None) ->
  exists m fs,
    (exists t, In t transactions /\ t_time t = Some m) /\
    (forall t x, In t transactions -> t_time t = Some x -> x <= m) /\
    compute_rfm_features transactions None = Ok fs /\
    Forall (fun f =>
              days_since_last_transaction f
              = option_map (fun l => date_of m - date_of l) (last_transaction_date f) /\
              (days_since_last_transaction f = None <->
               Forall (fun t => t_time t = None)
                      (rows_of (f_customer_id f) transactions)) /\
              (forall d, days_since_last_transaction f = Some d -> 0 <= d)) fs /\
    (forall t, In t transactions -> t_time t = Some m ->
       exists f, In f fs /\ f_customer_id f = t_cust t /\
                 days_since_last_transaction f = Some 0).
Proof.
  intros [t0 [Hin0 Ht0]].
  destruct (col_max_Z (map t_time transactions)) as [m |] eqn:Hmax.
  2: { exfalso. destruct (t_time t0) as [x |] eqn:Hx; [| congruence].
       apply (proj1 (col_max_Z_none _) Hmax x).
       rewrite <- Hx. apply in_map. exact Hin0. }
  pose proof (col_max_Z_spec _ _ Hmax) as [Hm Hle].
  assert (Hcomp : compute_rfm_features transactions None
                  = Ok (map (rfm_row (date_of m) (interevent_stats transactions))
                            (group_by t_cust transactions))).
  { unfold compute_rfm_features, default_reference_date. rewrite Hmax. reflexivity. }
  exists m. eexists.
  split.
  { apply in_map_iff in Hm. destruct Hm as [t [Ht Hin]]. exists t. auto. }
  split.
  { intros t x Hin Hx. apply Hle. rewrite <- Hx. apply in_map. exact Hin. }
  split; [exact Hcomp |].
  apply compute_rfm_features_rows in Hcomp.
  destruct Hcomp as [ref [Href [_ Hfs]]].
  unfold default_reference_date in Href. rewrite Hmax in Href.
  inversion Href; subst ref; clear Href.
  split.
  - apply Forall_forall. intros f Hf. apply Hfs in Hf. destruct Hf as [k [_ ->]].
    unfold rfm_row.
    cbn [days_since_last_transaction last_transaction_date f_customer_id fst snd].
    destruct (col_max_Z (map t_time (rows_of k transactions))) as [l |] eqn:Hl; simpl.
    + split; [reflexivity |]. split.
      * split; [discriminate |]. intro Hall. exfalso.
        apply col_max_Z_spec in Hl. destruct Hl as [Hl _].
        apply in_map_iff in Hl. destruct Hl as [t [Ht Hin]].
        rewrite Forall_forall in Hall. rewrite (Hall t Hin) in Ht. discriminate.
      * intros d Hd. inversion Hd; subst d.
        apply col_max_Z_spec in Hl. destruct Hl as [Hl _].
        apply rows_of_time, Hle in Hl. apply date_of_mono in Hl. lia.
    + split; [reflexivity |]. split; [| discriminate].
      split; [| reflexivity]. intros _.
      apply Forall_forall. intros t Ht.
      destruct (t_time t) as [x |] eqn:Hx; [| reflexivity].
      exfalso. apply (proj1 (col_max_Z_none _) Hl x).
      rewrite <- Hx. apply in_map. exact Ht.
  - intros t Hin Ht.
    exists (rfm_row (date_of m) (interevent_stats transactions)
                    (t_cust t, rows_of (t_cust t) transactions)).
    split; [apply Hfs; exists (t_cust t); split; [apply in_map; exact Hin | reflexivity] |].
    split; [reflexivity |].
    unfold rfm_row. cbn [days_since_last_transaction fst snd].
    assert (Hrow : In (Some m) (map t_time (rows_of (t_cust t) transactions))).
    { rewrite <- Ht. apply in_map. unfold rows_of. apply filter_In.
      split; [exact Hin | apply Z.eqb_refl]. }
    destruct (col_max_Z (map t_time (rows_of (t_cust t) transactions))) as [l |] eqn:Hl.
    + apply col_max_Z_spec in Hl. destruct Hl as [Hl Hge].
      apply rows_of_time, Hle in Hl. specialize (Hge m Hrow).
      assert (l = m) by lia. subst l. simpl. rewrite Z.sub_diag. reflexivity.
    + exfalso. exact (proj1 (col_max_Z_none _) Hl m Hrow).
Qed.

(** *** The mode *)

Lemma fold_max_ge (f : string -> nat) (l : list string) (v : string) :
  In v l -> (f v <= fold_right Nat.max 0 (map f l))%nat.
Proof.
  induction l as [| x r IH]; simpl; intro H; [destruct H |].
  destruct H as [-> | H]; [lia |]. specialize (IH H). lia.
Qed.

Lemma fold_max_attained (f : string -> nat) (l : list string) :
  l <> [] -> exists v, In v l /\ f v = fold_right Nat.max 0%nat (map f l).
Proof.
  induction l as [| x r IH]; [congruence |]. intros _. simpl.
  destruct r as [| y r'].
  - exists x. simpl. split; [auto | lia].
  - destruct IH as [v [Hin Hv]]; [discriminate |].
    destruct (Nat.max_spec (f x) (fold_right Nat.max 0%nat (map f (y :: r'))))
      as [[_ Hm] | [_ Hm]]; rewrite Hm.
    + exists v. auto.
    + exists x. auto.
Qed.

Lemma max_count_ge (c : list string) (w : string) :
  (count_of w c <= max_count c)%nat.
Proof.
  unfold max_count, count_of.
  destruct (in_dec string_dec w c) as [Hin | Hn].
  - apply (fold_max_ge (fun v => count_occ string_dec c v) c w Hin).
  - apply (count_occ_not_In string_dec) in Hn. rewrite Hn. lia.
Qed.

Lemma mode_first_most_frequent (c : list string) :
  group_order_complete -> c <> [] ->
  exists v, first (mode c) = Some v /\ In v c /\
            forall w, (count_of w c <= count_of v c)%nat.
Proof.
  intros Hgo Hc.
  destruct (fold_max_attained (fun v => count_of v c) c Hc) as [v0 [Hin0 Hv0]].
  fold (max_count c) in Hv0.
  assert (Hmode : In v0 (mode c)).
  { unfold mode. apply filter_In. split; [apply Hgo; exact Hin0 |].
    apply Nat.eqb_eq. exact Hv0. }
  unfold first. destruct (mode c) as [| v r] eqn:Hm; [destruct Hmode |].
  exists v. split; [reflexivity |].
  assert (Hv : In v (mode c)) by (rewrite Hm; left; reflexivity).
  unfold mode in Hv. apply filter_In in Hv. destruct Hv as [Hv Hcount].
  apply Nat.eqb_eq in Hcount. split; [apply Hgo; exact Hv |].
  intro w. rewrite Hcount. apply max_count_ge.
Qed.

(** C5 (amended).  In every feature row, [preferred_category] and
    [preferred_currency] are not null and are a most frequent category and
    a most frequent currency of the customer's transactions: no other
    value occurs more often.  Which of several tied values is taken is
    the engine's choice. *)
Theorem preferred_is_most_frequent (transactions : list eur_transaction)
    (reference_date : option Z) (fs : list feature) :
  group_order_complete ->
  compute_rfm_features transactions reference_date = Ok fs ->
  Forall (fun f =>
            (exists v, preferred_category f = Some v /\
                       In v (categories_of (f_customer_id f) transactions) /\
                       forall w, (count_of w (categories_of (f_customer_id f) transactions)
                                  <= count_of v (categories_of (f_customer_id f) transactions))%nat) /\
            (exists v, preferred_currency f = Some v /\
                       In v (currencies_of (f_customer_id f) transactions) /\
                       forall w, (count_of w (currencies_of (f_customer_id f) transactions)
                                  <= count_of v (currencies_of (f_customer_id f) transactions))%nat))
         fs.
Proof.
  intros Hgo H. apply compute_rfm_features_rows in H.
  destruct H as [ref [_ [_ Hfs]]].
  apply Forall_forall. intros f Hf. apply Hfs in Hf. destruct Hf as [k [Hk ->]].
  unfold rfm_row. cbn [preferred_category preferred_currency f_customer_id fst snd].
  assert (Hne : rows_of k transactions <> []).
  { apply in_map_iff in Hk. destruct Hk as [t [Ht Hin]].
    assert (Hr : In t (rows_of k transactions)).
    { unfold rows_of. apply filter_In. split; [exact Hin | apply Z.eqb_eq; exact Ht]. }
    intro Hnil. rewrite Hnil in Hr. destruct Hr. }
  split; apply mode_first_most_frequent; try exact Hgo;
    unfold categories_of, currencies_of;
    destruct (rows_of k transactions); simpl; congruence.
Qed.

(** *** The flags *)

Lemma default_percentile_in_range : in_unit_interval HIGH_VALUE_PERCENTILE.
Proof. split; apply Qle_bool_iff; reflexivity. Qed.

Lemma quantile_in_range (c : list float64) (q : Q) :
  in_unit_interval q ->
  quantile c q =
  match c with
  | [] => Ok None
  | _ => Ok (nth_error (sort_by f_leb c) (nearest_index (List.length c) q))
  end.
Proof.
  intros [H0 H1]. unfold quantile.
  apply Qle_bool_iff in H0, H1. rewrite H0, H1. reflexivity.
Qed.

Lemma quantile_returns (c : list float64) (q : Q) :
  in_unit_interval q -> exists t, quantile c q = Ok t.
Proof.
  intro H. rewrite (quantile_in_range c q H). destruct c; eauto.
Qed.

(** C1 (amended).  With a percentile in [0, 1] (the default is),
    [add_customer_flags] raises no error and returns one flagged row per
    feature row; in a row whose [mean_interevent_days] or
    [std_interevent_days] is null, [is_churning_2] is null: neither true
    nor false. *)
Theorem churn_flag_null_without_history (features : list feature)
    (high_value_percentile : option Q) (churn_days : option Z) :
  in_unit_interval (percentile_of high_value_percentile) ->
  exists out,
    add_customer_flags features high_value_percentile churn_days = Ok out /\
    Forall2 (fun f r =>
               feat r = f /\
               (mean_interevent_days f = None \/ std_interevent_days f = None ->
                is_churning_2 r = None))
            features out.
Proof.
  intro Hp. unfold add_customer_flags. fold (percentile_of high_value_percentile).
  destruct (quantile_returns (map total_spend features) _ Hp) as [t Ht].
  rewrite Ht. simpl. eexists. split; [reflexivity |]. clear Ht.
  induction features as [| f r IH]; simpl; constructor.
  - split; [reflexivity |]. simpl.
    intros [Hn | Hn]; rewrite Hn; destruct (days_since_last_transaction f);
      try reflexivity; destruct (mean_interevent_days f); reflexivity.
  - exact IH.
Qed.

(** *** The high-value threshold *)

Lemma insert_by_sorted_total {A : Type} (leb : A -> A -> bool) :
  (forall a b, leb a b = true \/ leb b a = true) ->
  (forall a b c, leb a b = true -> leb b c = true -> leb a c = true) ->
  forall x l,
    StronglySorted (fun a b => leb a b = true) l ->
    StronglySorted (fun a b => leb a b = true) (insert_by leb x l).
Proof.
  intros Htot Htrans x l. induction 1 as [| y r Hs IH Hall]; simpl.
  - constructor; constructor.
  - destruct (leb x y) eqn:Hxy.
    + constructor; [constructor; assumption |].
      constructor; [exact Hxy |].
      eapply Forall_impl; [| exact Hall]. intros z Hz. eapply Htrans; eassumption.
    + assert (Hyx : leb y x = true) by (destruct (Htot x y); congruence).
      constructor; [exact IH |].
      apply Forall_forall. intros z Hz.
      apply (Permutation_in _ (insert_by_perm leb x r)) in Hz.
      destruct Hz as [<- | Hz]; [exact Hyx |].
      rewrite Forall_forall in Hall. apply Hall. exact Hz.
Qed.

Lemma sort_by_sorted_total {A : Type} (leb : A -> A -> bool) :
  (forall a b, leb a b = true \/ leb b a = true) ->
  (forall a b c, leb a b = true -> leb b c = true -> leb a c = true) ->
  forall l, StronglySorted (fun a b => leb a b = true) (sort_by leb l).
Proof.
  intros Htot Htrans l. induction l as [| x r IH]; simpl; [constructor |].
  apply insert_by_sorted_total; assumption.
Qed.

(** The order of Float64 values is total and transitive, NaN being its
    greatest element. *)
Lemma f_leb_total (a b : float64) : f_leb a b = true \/ f_leb b a = true.
Proof.
  destruct a as [x |], b as [y |]; simpl; auto.
  destruct (Qlt_le_dec x y) as [H | H].
  - left. apply Qle_bool_iff, Qlt_le_weak, H.
  - right. apply Qle_bool_iff, H.
Qed.

Lemma f_leb_trans (a b c : float64) :
  f_leb a b = true -> f_leb b c = true -> f_leb a c = true.
Proof.
  destruct a as [x |], b as [y |], c as [z |]; simpl; try congruence.
  rewrite !Qle_bool_iff. apply Qle_trans.
Qed.

Lemma sort_by_f_le (l : list float64) : StronglySorted f_le (sort_by f_leb l).
Proof.
  apply (sort_by_sorted_total f_leb f_leb_total f_leb_trans).
Qed.

(** A rank next to [(n - 1) * q] is a rank of the column. *)
Lemma index_adjacent_in_range (n : nat) (q : Q) :
  (0 < n)%nat -> (q <= 1)%Q -> index_adjacent n q -> (nearest_index n q < n)%nat.
Proof.
  intros Hn Hq [_ Hup].
  assert (Hx : ((inject_Z (Z.of_nat n) - 1) * q <= inject_Z (Z.of_nat n - 1))%Q).
  { assert (H1 : (1 <= inject_Z (Z.of_nat n))%Q).
    { change 1%Q with (inject_Z 1). rewrite <- Zle_Qle. lia. }
    assert (He : (inject_Z (Z.of_nat n - 1) == inject_Z (Z.of_nat n) - 1)%Q).
    { unfold Z.sub. rewrite inject_Z_plus. reflexivity. }
    rewrite He. generalize dependent (inject_Z (Z.of_nat n)). intros a _ H1.
    nra. }
  apply Qceiling_resp_le in Hx. rewrite Qceiling_Z in Hx. lia.
Qed.

(** The rank in exact arithmetic is such a rank. *)
Lemma exact_rank_adjacent (n : nat) (q : Q) :
  (0 < n)%nat -> (0 <= q)%Q ->
  let x := ((inject_Z (Z.of_nat n) - 1) * q)%Q in
  Qfloor x <= Z.of_nat (exact_rank n q) <= Qceiling x.
Proof.
  intros Hn Hq x. unfold exact_rank, Qround. fold x.
  assert (H0 : (0 <= x)%Q).
  { unfold x.
    assert (H1 : (1 <= inject_Z (Z.of_nat n))%Q).
    { change 1%Q with (inject_Z 1). rewrite <- Zle_Qle. lia. }
    nra. }
  assert (Hlo : Qfloor x <= Qfloor (x + (1 # 2))).
  { apply Qfloor_resp_le. lra. }
  assert (Hhi : Qfloor (x + (1 # 2)) <= Qceiling x).
  { assert (Hlt : Qfloor (x + (1 # 2)) < Qceiling x + 1); [| lia].
    rewrite Zlt_Qlt. eapply Qle_lt_trans; [apply Qfloor_le |].
    rewrite inject_Z_plus. pose proof (Qle_ceiling x) as Hc.
    change (inject_Z 1) with 1%Q. lra. }
  assert (Hnn : 0 <= Qfloor x).
  { change 0 with (Qfloor (inject_Z 0)) at 1. apply Qfloor_resp_le. exact H0. }
  rewrite Z2Nat.id by lia. lia.
Qed.


End FeatureFacts.

(** ** The engines used for the runs *)

Lemma first_seen_In (l : list string) :
  forall seen v, In v (first_seen seen l) <-> In v l /\ ~ In v seen.
Proof.
  assert (Hin : forall v seen, is_in v seen = true <-> In v seen).
  { intros v seen. unfold is_in. rewrite existsb_exists. split.
    - intros [x [Hx Heq]]. apply String.eqb_eq in Heq. subst. exact Hx.
    - intro H. exists v. split; [exact H | apply String.eqb_refl]. }
  induction l as [| x r IH]; simpl; intros seen v; [tauto |].
  destruct (is_in x seen) eqn:Hx.
  - rewrite IH. apply Hin in Hx. split.
    + tauto.
    + intros [[<- | Hr] Hn]; [contradiction | tauto].
  - assert (Hn : ~ In x seen) by (intro H; apply Hin in H; congruence).
    simpl. rewrite IH. simpl. split.
    + intros [<- | [Hr Hs]]; [tauto |]. split; [tauto |]. intro H. apply Hs. right. exact H.
    + intros [[<- | Hr] Hs]; [left; reflexivity |].
      destruct (string_dec x v) as [-> | Hne]; [left; reflexivity | right].
      split; [exact Hr |]. intros [H | H]; [contradiction | contradiction].
Qed.

Lemma reference_engine_complete : @group_order_complete reference_engine.
Proof.
  intros c v. simpl. rewrite first_seen_In. simpl. tauto.
Qed.

Lemma latest_first_engine_complete : @group_order_complete latest_first_engine.
Proof.
  intros c v. simpl. rewrite <- in_rev, first_seen_In. simpl. tauto.
Qed.

(** ** The claims that fail as stated, on concrete tables *)

(** C1.  The sample tables run through the whole pipeline: the third
    feature row (customer 4, one transaction) has a null interevent mean
    and standard deviation, and its [is_churning_2] is null, not false. *)
Lemma churn_flag_null_not_false :
  compute_rfm_features (E := reference_engine) sample_converted None = Ok sample_features /\
  add_customer_flags (E := reference_engine) sample_features None None = Ok sample_flagged /\
  exists r, nth_error sample_flagged 2 = Some r /\
            f_customer_id (feat r) = 4 /\
            mean_interevent_days (feat r) = None /\
            std_interevent_days (feat r) = None /\
            is_churning_2 r = None /\
            is_churning_2 r <> Some false.
Proof.
  split; [vm_compute; reflexivity |].
  split; [vm_compute; reflexivity |].
  eexists. split; [reflexivity |]. simpl.
  repeat split; try reflexivity. discriminate.
Qed.


(** C3.  A customer whose only transaction has a null timestamp:
    [transaction_count] is 1 and [customer_tenure_days] is null, not 0. *)
Lemma undated_single_transaction_tenure_null :
  rows_of 7 undated_sale = [sale 1 7 50 "food" None] /\
  exists f, compute_rfm_features (E := reference_engine) undated_sale (Some 0) = Ok [f] /\
            f_customer_id f = 7 /\
            transaction_count f = 1 /\
            customer_tenure_days f = None /\
            customer_tenure_days f <> Some 0.
Proof.
  split; [reflexivity |].
  eexists. split; [vm_compute; reflexivity |]. simpl.
  repeat split; try reflexivity. discriminate.
Qed.

(** C5.  One customer with the categories "food" then "toys", once each,
    on an engine whose grouping lists the values latest first (it lists
    every value of the column, as the interface asks): the preferred
    category is "toys", where the stable mode is "food". *)
Lemma mode_tie_not_stable :
  @group_order_complete latest_first_engine /\
  categories_of 7 tied_categories = ["food"; "toys"] /\
  spec_stable_mode (categories_of 7 tied_categories) = Some "food" /\
  exists f, compute_rfm_features (E := latest_first_engine) tied_categories None = Ok [f] /\
            f_customer_id f = 7 /\
            preferred_category f = Some "toys".
Proof.
  split; [exact latest_first_engine_complete |].
  split; [reflexivity |].
  split; [reflexivity |].
  eexists. split; [vm_compute; reflexivity |]. split; reflexivity.
Qed.

(** C9.  A raw transaction whose amount is NaN passes the filter
    [amount > 0], NaN being above every number in the order of polars'
    comparisons: the cleaned table holds the row, and its amount is not a
    positive number. *)
Lemma nan_amount_survives_cleaning :
  exists t, clean_transactions (E := reference_engine) nan_raw_transactions = Ok [t] /\
            transaction_id t = 1 /\
            amount t = NaN /\
            ~ (exists q, amount t = Num q /\ (0 < q)%Q).
Proof.
  eexists. split; [vm_compute; reflexivity |]. cbn [transaction_id amount].
  split; [reflexivity |]. split; [reflexivity |].
  intros [q [Hq _]]. discriminate Hq.
Qed.

(** C10.  On a non-empty table whose only timestamp is null the call with
    [reference_date = None] raises; on a table with a dated and an undated
    customer the undated customer's [days_since_last_transaction] is null,
    not [>= 0]. *)
Lemma undated_rows_break_recency :
  undated_sale <> [] /\
  compute_rfm_features (E := reference_engine) undated_sale None = Err AttributeError /\
  exists f1 f2,
    compute_rfm_features (E := reference_engine) dated_and_undated None = Ok [f1; f2] /\
    f_customer_id f2 = 8 /\
    days_since_last_transaction f1 = Some 0 /\
    days_since_last_transaction f2 = None.
Proof.
  split; [discriminate |].
  split; [reflexivity |].
  eexists. eexists. split; [vm_compute; reflexivity |].
  repeat split; reflexivity.
Qed.

(** ** The theorems at the sample tables *)

Ltac distinct_ids :=
  repeat (constructor; [simpl; intuition discriminate |]); constructor.

Lemma sample_customers_distinct : NoDup (map c_customer_id sample_customers).
Proof. distinct_ids. Defined.

Lemma churn_flag_null_without_history_witness :
  in_unit_interval (percentile_of None) /\
  exists out,
    add_customer_flags (E := reference_engine) sample_features None None = Ok out /\
    Forall2 (fun f r =>
               feat r = f /\
               (mean_interevent_days f = None \/ std_interevent_days f = None ->
                is_churning_2 r = None))
            sample_features out.
Proof.
  split; [exact default_percentile_in_range |].
  exact (churn_flag_null_without_history sample_features None None
           default_percentile_in_range).
Defined.


Lemma single_transaction_customer_witness :
  compute_rfm_features (E := reference_engine) sample_converted None = Ok sample_features /\
  rows_of 4 sample_converted = [nth 4 sample_converted (sale 0 0 0 "" None)] /\
  exists f, In f sample_features /\ f_customer_id f = 4 /\
            transaction_count f = 1 /\
            customer_tenure_days f = Some 0 /\
            std_transaction_amount f = None /\
            mean_interevent_days f = None /\
            std_interevent_days f = None.
Proof.
  assert (H1 : compute_rfm_features (E := reference_engine) sample_converted None
               = Ok sample_features) by (vm_compute; reflexivity).
  assert (H2 : rows_of 4 sample_converted = [nth 4 sample_converted (sale 0 0 0 "" None)])
    by reflexivity.
  split; [exact H1 |]. split; [exact H2 |].
  destruct (single_transaction_customer sample_converted None sample_features 4 _ H1 H2)
    as [[f [Hin [Hid [_ [Hcount [Hten [Hstd [Hmean Hsd]]]]]]]] _].
  exists f. repeat split; assumption.
Defined.


Lemma preferred_is_most_frequent_witness :
  @group_order_complete reference_engine /\
  compute_rfm_features (E := reference_engine) sample_converted None = Ok sample_features /\
  Forall (fun f =>
            (exists v, preferred_category f = Some v /\
                       In v (categories_of (f_customer_id f) sample_converted) /\
                       forall w, (count_of w (categories_of (f_customer_id f) sample_converted)
                                  <= count_of v (categories_of (f_customer_id f) sample_converted))%nat) /\
            (exists v, preferred_currency f = Some v /\
                       In v (currencies_of (f_customer_id f) sample_converted) /\
                       forall w, (count_of w (currencies_of (f_customer_id f) sample_converted)
                                  <= count_of v (currencies_of (f_customer_id f) sample_converted))%nat))
         sample_features.
Proof.
  assert (H : compute_rfm_features (E := reference_engine) sample_converted None
              = Ok sample_features) by (vm_compute; reflexivity).
  split; [exact reference_engine_complete |]. split; [exact H |].
  exact (preferred_is_most_frequent sample_converted None sample_features
           reference_engine_complete H).
Defined.

Lemma infer_currency_idempotent_witness :
  clean_customers (E := reference_engine) sample_raw_customers = Ok sample_customers /\
  infer_currency_from_country
    (infer_currency_from_country sample_transactions sample_customers) sample_customers =
  infer_currency_from_country sample_transactions sample_customers.
Proof.
  assert (H : clean_customers (E := reference_engine) sample_raw_customers
              = Ok sample_customers) by (vm_compute; reflexivity).
  split; [exact H |].
  exact (proj1 (infer_currency_idempotent sample_raw_customers sample_customers
                  sample_transactions H)).
Defined.

Lemma infer_currency_frame_witness :
  NoDup (map c_customer_id sample_customers) /\
  List.length (infer_currency_from_country sample_transactions sample_customers)
  = List.length sample_transactions /\
  Forall2 (inferred_from sample_customers) sample_transactions
          (infer_currency_from_country sample_transactions sample_customers).
Proof.
  split; [exact sample_customers_distinct |].
  exact (infer_currency_frame sample_transactions sample_customers
           sample_customers_distinct).
Defined.

Lemma cleaned_tables_invariants_witness :
  clean_customers (E := reference_engine) sample_raw_customers = Ok sample_customers /\
  clean_transactions (E := reference_engine) sample_raw_transactions = Ok sample_transactions /\
  NoDup (map c_customer_id sample_customers) /\
  Forall (fun c => In (country c) VALID_COUNTRIES) sample_customers /\
  NoDup (map transaction_id sample_transactions) /\
  Forall (fun t => amount t = NaN \/ exists q, amount t = Num q /\ (0 < q)%Q)
         sample_transactions /\
  Forall (fun t => exists r, In r sample_raw_transactions /\
                   raw_transaction_id r = Some (transaction_id t) /\
                   (raw_currency r = None -> currency t = "NA") /\
                   (raw_category r = None -> category t = "NA")) sample_transactions.
Proof.
  assert (Hc : clean_customers (E := reference_engine) sample_raw_customers
               = Ok sample_customers) by (vm_compute; reflexivity).
  assert (Ht : clean_transactions (E := reference_engine) sample_raw_transactions
               = Ok sample_transactions) by (vm_compute; reflexivity).
  split; [exact Hc |]. split; [exact Ht |].
  exact (cleaned_tables_invariants _ _ _ _ Hc Ht).
Defined.

Lemma default_reference_date_recency_witness :
  (exists t, In t sample_converted /\ t_time t <> None) /\
  exists m fs,
    (exists t, In t sample_converted /\ t_time t = Some m) /\
    (forall t x, In t sample_converted -> t_time t = Some x -> x <= m) /\
    compute_rfm_features (E := reference_engine) sample_converted None = Ok fs /\
    Forall (fun f =>
              days_since_last_transaction f
              = option_map (fun l => date_of m - date_of l) (last_transaction_date f) /\
              (days_since_last_transaction f = None <->
               Forall (fun t => t_time t = None)
                      (rows_of (f_customer_id f) sample_converted)) /\
              (forall d, days_since_last_transaction f = Some d -> 0 <= d)) fs /\
    (forall t, In t sample_converted -> t_time t = Some m ->
       exists f, In f fs /\ f_customer_id f = t_cust t /\
                 days_since_last_transaction f = Some 0).
Proof.
  assert (H : exists t, In t sample_converted /\ t_time t <> None).
  { exists (nth 0 sample_converted (sale 0 0 0 "" None)).
    split; [left; reflexivity | discriminate]. }
  split; [exact H |].
  exact (default_reference_date_recency (E := reference_engine) sample_converted H).
Defined.

(** ** Further facts: the cleaning stage *)

Lemma sort_on_ascending {A : Type} (key : A -> Z) (l : list A) :
  NoDup (map key l) -> StronglySorted Z.lt (map key (sort_on key l)).
Proof.
  intro Hnd. apply (sort_on_NoDup key) in Hnd.
  assert (Hs : StronglySorted (fun a b => (key a <=? key b) = true) (sort_on key l)).
  { apply sort_by_sorted_total.
    - intros a b. destruct (Z.leb_spec (key a) (key b)); [left; reflexivity | right].
      apply Z.leb_le. lia.
    - intros a b c Hab Hbc. apply Z.leb_le in Hab, Hbc. apply Z.leb_le. lia. }
  induction Hs as [| x r _ IH Hall]; simpl; [constructor |].
  simpl in Hnd. inversion Hnd as [| ? ? Hx Hr]; subst.
  constructor; [apply IH; exact Hr |].
  apply Forall_forall. intros k Hk. apply in_map_iff in Hk. destruct Hk as [y [<- Hy]].
  rewrite Forall_forall in Hall. specialize (Hall y Hy). apply Z.leb_le in Hall.
  assert (key x <> key y) by (intro Heq; apply Hx; rewrite Heq; apply in_map; exact Hy).
  lia.
Qed.

Lemma unique_first_split {A : Type} (key : A -> Z) (l : list A) :
  forall seen x,
    In x (unique_first key seen l) <->
    exists pre post, l = (pre ++ x :: post)%list /\
                     ~ In (key x) (map key pre) /\ ~ In (key x) seen.
Proof.
  induction l as [| y r IH]; intros seen x; simpl.
  - split; [intros [] | intros [pre [post [H _]]]; destruct pre; discriminate].
  - destruct (existsb (Z.eqb (key y)) seen) eqn:Hy.
    + apply existsb_Zeqb in Hy. rewrite IH. split.
      * intros [pre [post [-> [Hp Hs]]]]. exists (y :: pre), post.
        split; [reflexivity |]. split; [| exact Hs].
        simpl. intros [Heq | Hin]; [apply Hs; rewrite <- Heq; exact Hy | contradiction].
      * intros [pre [post [Hl [Hp Hs]]]]. destruct pre as [| z pre]; simpl in Hl.
        -- inversion Hl; subst. contradiction.
        -- inversion Hl; subst. exists pre, post. split; [reflexivity |].
           split; [| exact Hs]. intro Hin. apply Hp. right. exact Hin.
    + assert (Hny : ~ In (key y) seen)
        by (intro Hin; apply existsb_Zeqb in Hin; congruence).
      simpl. rewrite IH. split.
      * intros [<- | [pre [post [-> [Hp Hs]]]]].
        -- exists [], r. simpl. auto.
        -- exists (y :: pre), post. split; [reflexivity |].
           split; [| intro Hin; apply Hs; right; exact Hin].
           simpl. intros [Heq | Hin]; [apply Hs; left; exact Heq | contradiction].
      * intros [pre [post [Hl [Hp Hs]]]]. destruct pre as [| z pre]; simpl in Hl.
        -- inversion Hl; subst. left. reflexivity.
        -- inversion Hl; subst. right. exists pre, post. split; [reflexivity |].
           split; [intro Hin; apply Hp; right; exact Hin |].
           intros [Heq | Hin]; [apply Hp; left; exact Heq | contradiction].
Qed.

Lemma filter_map_app {A B : Type} (f : A -> option B) (l1 l2 : list A) :
  filter_map f (l1 ++ l2)%list = (filter_map f l1 ++ filter_map f l2)%list.
Proof.
  induction l1 as [| x r IH]; simpl; [reflexivity |].
  destruct (f x); simpl; rewrite IH; reflexivity.
Qed.

Lemma filter_map_split {A B : Type} (f : A -> option B) (l : list A) :
  forall pre' y post',
    filter_map f l = (pre' ++ y :: post')%list ->
    exists pre x post, l = (pre ++ x :: post)%list /\ f x = Some y /\ filter_map f pre = pre'.
Proof.
  induction l as [| x r IH]; simpl; intros pre' y post' H.
  - destruct pre'; discriminate.
  - destruct (f x) as [z |] eqn:Hx.
    + destruct pre' as [| w pre']; simpl in H; inversion H; subst.
      * exists [], x, r. auto.
      * destruct (IH _ _ _ H2) as [pre [x' [post [-> [Hf Hp]]]]].
        exists (x :: pre), x', post. simpl. rewrite Hx, Hp. auto.
    + destruct (IH _ _ _ H) as [pre [x' [post [-> [Hf Hp]]]]].
      exists (x :: pre), x', post. simpl. rewrite Hx. auto.
Qed.

(** The rows a keep-first de-duplication of the passing rows retains. *)
Lemma first_passing_rows {A B : Type} (f : A -> option B) (key : B -> Z)
    (l : list A) (y : B) :
  In y (sort_on key (unique_first key [] (filter_map f l))) <->
  exists pre x post,
    l = (pre ++ x :: post)%list /\ f x = Some y /\
    forall x' y', In x' pre -> f x' = Some y' -> key y' <> key y.
Proof.
  split.
  - intro H. apply sort_on_In, unique_first_split in H.
    destruct H as [pre' [post' [Hl [Hp _]]]].
    apply filter_map_split in Hl. destruct Hl as [pre [x [post [-> [Hx Hpre]]]]].
    exists pre, x, post. split; [reflexivity |]. split; [exact Hx |].
    intros x' y' Hin Hf Heq. apply Hp. rewrite <- Hpre, <- Heq.
    apply in_map, filter_map_In. exists x'. auto.
  - intros [pre [x [post [-> [Hx Hpre]]]]].
    apply (Permutation_in _ (Permutation_sym (sort_by_perm _ _))).
    apply unique_first_split. rewrite filter_map_app. simpl. rewrite Hx.
    exists (filter_map f pre), (filter_map f post). split; [reflexivity |].
    split; [| intros []].
    intro Hin. apply in_map_iff in Hin. destruct Hin as [y' [Hk Hy']].
    apply filter_map_In in Hy'. destruct Hy' as [x' [Hin Hf]].
    exact (Hpre x' y' Hin Hf Hk).
Qed.

Lemma map_result_Forall2 {A B : Type} (f : A -> result B) (l : list A) (l' : list B) :
  map_result f l = Ok l' -> Forall2 (fun x y => f x = Ok y) l l'.
Proof.
  revert l'. induction l as [| x r IH]; simpl; intros l' H.
  - inversion H. constructor.
  - apply bind_ok in H. destruct H as [y [Hx H]].
    apply bind_ok in H. destruct H as [ys [Hr H]]. inversion H; subst.
    constructor; [exact Hx | apply IH; exact Hr].
Qed.

Lemma filter_map_standardized {A S B : Type} (std : A -> result S) (keep : S -> option B)
    (l : list A) (l' : list S) :
  map_result std l = Ok l' ->
  filter_map keep l' =
  filter_map (fun r => match std r with Ok s => keep s | Err _ => None end) l.
Proof.
  intro H. apply map_result_Forall2 in H.
  induction H as [| x s r r' Hx _ IH]; simpl; [reflexivity |].
  rewrite Hx, IH. reflexivity.
Qed.

Lemma map_result_cases {A B : Type} (f : A -> result B) (l : list A) :
  (exists l', map_result f l = Ok l' /\ forall x, In x l -> exists y, f x = Ok y) \/
  (exists x e, In x l /\ f x = Err e /\ map_result f l = Err e).
Proof.
  induction l as [| x r IH]; simpl.
  - left. exists []. split; [reflexivity | intros x []].
  - destruct (f x) as [y | e] eqn:Hx; simpl.
    + destruct IH as [[l' [Hl Hall]] | [x' [e [Hin [Hf Hl]]]]].
      * left. exists (y :: l'). rewrite Hl. split; [reflexivity |].
        intros z [<- | Hz]; [eauto | apply Hall; exact Hz].
      * right. exists x', e. rewrite Hl. auto.
    + right. exists x, e. auto.
Qed.

Section CleaningFacts.

Context {E : Engine}.

(** X1.  Both cleaned tables come out in strictly ascending order of their
    key. *)
Theorem cleaned_tables_ascending (raw_c : list raw_customer) (raw_t : list raw_transaction)
    (cs : list customer) (ts : list transaction) :
  clean_customers raw_c = Ok cs ->
  clean_transactions raw_t = Ok ts ->
  StronglySorted Z.lt (map c_customer_id cs) /\
  StronglySorted Z.lt (map transaction_id ts).
Proof.
  unfold clean_customers, clean_transactions. intros Hc Ht.
  apply bind_ok in Hc. destruct Hc as [sc [_ Hc]]. inversion Hc; subst cs.
  apply bind_ok in Ht. destruct Ht as [st [_ Ht]]. inversion Ht; subst ts.
  split; apply sort_on_ascending, unique_first_NoDup.
Qed.

(** X2.  A row is in the cleaned customer table exactly when it is the
    cleaned form of a raw row that passes the filter and that no earlier
    passing raw row shares its [customer_id] with: of the raw rows with
    one id, the first valid one is kept. *)
Theorem clean_customers_keeps_first (raw : list raw_customer) (cs : list customer) :
  clean_customers raw = Ok cs ->
  forall c,
    In c cs <->
    exists pre r post,
      raw = (pre ++ r :: post)%list /\ cleaned_customer r = Some c /\
      forall r' c', In r' pre -> cleaned_customer r' = Some c' ->
                    c_customer_id c' <> c_customer_id c.
Proof.
  unfold clean_customers. intros H c.
  apply bind_ok in H. destruct H as [std [Hstd H]]. inversion H; subst cs.
  rewrite (filter_map_standardized _ _ _ _ Hstd).
  apply (first_passing_rows cleaned_customer c_customer_id raw c).
Qed.

(** X3.  The same for transactions: of the raw rows with one
    [transaction_id] that pass the filter (ids and amount not null,
    amount > 0), the first is kept, and nothing else is in the table. *)
Theorem clean_transactions_keeps_first (raw : list raw_transaction) (ts : list transaction) :
  clean_transactions raw = Ok ts ->
  forall t,
    In t ts <->
    exists pre r post,
      raw = (pre ++ r :: post)%list /\ cleaned_transaction r = Some t /\
      forall r' t', In r' pre -> cleaned_transaction r' = Some t' ->
                    transaction_id t' <> transaction_id t.
Proof.
  unfold clean_transactions. intros H t.
  apply bind_ok in H. destruct H as [std [Hstd H]]. inversion H; subst ts.
  rewrite (filter_map_standardized _ _ _ _ Hstd).
  apply (first_passing_rows cleaned_transaction transaction_id raw t).
Qed.

(** X4.  The cleaning functions raise exactly when some non-null date
    string of the raw table does not parse, whether or not the filter
    would have dropped that row; otherwise they return. *)
Theorem cleaning_raises_on_unparsed_date (raw_c : list raw_customer)
    (raw_t : list raw_transaction) :
  ((exists cs, clean_customers raw_c = Ok cs) /\
   (forall r s, In r raw_c -> raw_signup_date r = Some s -> strptime_date s <> None)
   \/
   clean_customers raw_c = Err ComputeError /\
   (exists r s, In r raw_c /\ raw_signup_date r = Some s /\ strptime_date s = None))
  /\
  ((exists ts, clean_transactions raw_t = Ok ts) /\
   (forall r s, In r raw_t -> raw_timestamp r = Some s -> strptime_datetime s <> None)
   \/
   clean_transactions raw_t = Err ComputeError /\
   (exists r s, In r raw_t /\ raw_timestamp r = Some s /\ strptime_datetime s = None)).
Proof.
  split.
  - unfold clean_customers.
    destruct (map_result_cases standardize_customer raw_c)
      as [[std [Hstd Hall]] | [r [e [Hin [Hr Hstd]]]]]; rewrite Hstd; simpl.
    + left. split; [eauto |]. intros r s Hin Hs Hp.
      destruct (Hall r Hin) as [y Hy]. unfold standardize_customer, strict_parse in Hy.
      rewrite Hs, Hp in Hy. discriminate.
    + right. unfold standardize_customer, strict_parse in Hr.
      destruct (raw_signup_date r) as [s |] eqn:Hs; [| discriminate].
      destruct (strptime_date s) eqn:Hp; [discriminate |].
      simpl in Hr. inversion Hr; subst. split; [reflexivity |]. exists r, s. auto.
  - unfold clean_transactions.
    destruct (map_result_cases standardize_transaction raw_t)
      as [[std [Hstd Hall]] | [r [e [Hin [Hr Hstd]]]]]; rewrite Hstd; simpl.
    + left. split; [eauto |]. intros r s Hin Hs Hp.
      destruct (Hall r Hin) as [y Hy]. unfold standardize_transaction, strict_parse in Hy.
      rewrite Hs, Hp in Hy. discriminate.
    + right. unfold standardize_transaction, strict_parse in Hr.
      destruct (raw_timestamp r) as [s |] eqn:Hs; [| discriminate].
      destruct (strptime_datetime s) eqn:Hp; [discriminate |].
      simpl in Hr. inversion Hr; subst. split; [reflexivity |]. exists r, s. auto.
Qed.

End CleaningFacts.

(** ** Further facts: currency inference and orphan removal *)

Lemma filter_map_commute {A : Type} (p : A -> bool) (f : A -> A) (l : list A) :
  (forall x, p (f x) = p x) -> filter p (map f l) = map f (filter p l).
Proof.
  intro H. induction l as [| x r IH]; simpl; [reflexivity |].
  rewrite H. destruct (p x); simpl; rewrite IH; reflexivity.
Qed.

Lemma valid_country_mapped (k : string) :
  In k VALID_COUNTRIES ->
  exists v, lookup k COUNTRY_CURRENCY_MAP = Some v /\ v <> "NA".
Proof.
  intros [<- | [<- | [<- | [<- | []]]]]; eexists; (split; [reflexivity | discriminate]).
Qed.

Lemma orphan_filter (customers : list customer) (t : transaction) :
  existsb (Z.eqb (t_customer_id t)) (nodup Z.eq_dec (map c_customer_id customers)) = true <->
  In (t_customer_id t) (map c_customer_id customers).
Proof. rewrite existsb_Zeqb. apply nodup_In. Qed.

Lemma find_customer (customers : list customer) (k : Z) :
  In k (map c_customer_id customers) ->
  exists c, find (fun c => c_customer_id c =? k) customers = Some c /\
            In c customers /\ c_customer_id c = k.
Proof.
  intro H. apply in_map_iff in H. destruct H as [c0 [Hk Hin]].
  destruct (find (fun c => c_customer_id c =? k) customers) as [c |] eqn:Hf.
  - exists c. apply find_some in Hf. destruct Hf as [Hc Hid].
    apply Z.eqb_eq in Hid. auto.
  - exfalso. apply (find_none _ _ Hf) in Hin. apply Z.eqb_neq in Hin. contradiction.
Qed.

Lemma find_no_customer (customers : list customer) (k : Z) :
  ~ In k (map c_customer_id customers) ->
  find (fun c => c_customer_id c =? k) customers = None.
Proof.
  intro H. destruct (find (fun c => c_customer_id c =? k) customers) as [c |] eqn:Hf;
    [| reflexivity].
  exfalso. apply find_some in Hf. destruct Hf as [Hc Hid]. apply Z.eqb_eq in Hid.
  apply H. rewrite <- Hid. apply in_map. exact Hc.
Qed.

Section InferenceFacts.

Context {E : Engine}.

Lemma clean_customers_valid (raw : list raw_customer) (cs : list customer) :
  clean_customers raw = Ok cs -> Forall (fun c => In (country c) VALID_COUNTRIES) cs.
Proof.
  unfold clean_customers. intro H.
  apply bind_ok in H. destruct H as [std [_ H]]. inversion H; subst cs.
  apply Forall_forall. intros c Hin.
  apply sort_on_In, unique_first_In in Hin. destruct Hin as [Hin _].
  apply filter_map_In in Hin. destruct Hin as [s [_ Hs]].
  eapply keep_customer_valid; eassumption.
Qed.

(** The currency inference leaves on a row, for a cleaned customer table:
    the sentinel stays exactly on the rows that had it and whose customer
    is missing. *)
Lemma infer_row_sentinel (customers : list customer) (t : transaction) :
  Forall (fun c => In (country c) VALID_COUNTRIES) customers ->
  String.eqb (currency (infer_row customers t)) "NA" =
  String.eqb (currency t) "NA" && negb (has_customer customers t).
Proof.
  intro Hvalid. unfold infer_row, inferred_currency, customer_country, has_customer.
  cbn [currency with_currency].
  destruct (String.eqb (currency t) "NA") eqn:Hc; cbn [andb].
  - destruct (in_dec Z.eq_dec (t_customer_id t) (map c_customer_id customers)) as [Hin | Hn].
    + destruct (find_customer _ _ Hin) as [c [Hf [Hc' _]]]. rewrite Hf. cbn [option_map].
      rewrite Forall_forall in Hvalid.
      destruct (valid_country_mapped _ (Hvalid c Hc')) as [v [Hv Hna]].
      unfold replace_strict. rewrite Hv. cbn [negb].
      apply String.eqb_neq. exact Hna.
    + rewrite (find_no_customer _ _ Hn). reflexivity.
  - exact Hc.
Qed.

(** X5.  With unique [customer_id]s, removing orphans after inferring
    currencies gives the same table as inferring after removing orphans:
    the two steps commute. *)
Theorem infer_and_orphan_removal_commute (transactions : list transaction)
    (customers : list customer) :
  NoDup (map c_customer_id customers) ->
  remove_orphan_transactions (infer_currency_from_country transactions customers) customers =
  infer_currency_from_country (remove_orphan_transactions transactions customers) customers.
Proof.
  intro H. rewrite !(infer_as_map _ _ H). unfold remove_orphan_transactions.
  apply filter_map_commute. intro t. reflexivity.
Qed.

Lemma inferred_rows_have_currency (customers : list customer)
    (transactions : list transaction) :
  NoDup (map c_customer_id customers) ->
  Forall (fun c => In (country c) VALID_COUNTRIES) customers ->
  Forall (fun t => currency t <> "NA")
         (remove_orphan_transactions
            (infer_currency_from_country transactions customers) customers).
Proof.
  intros Hnd Hvalid.
  rewrite (infer_as_map _ _ Hnd). apply Forall_forall. intros t Ht.
  unfold remove_orphan_transactions in Ht. apply filter_In in Ht.
  destruct Ht as [Ht Hc]. apply orphan_filter in Hc.
  apply in_map_iff in Ht. destruct Ht as [t0 [<- _]].
  apply String.eqb_neq. rewrite (infer_row_sentinel _ _ Hvalid).
  unfold has_customer.
  destruct (in_dec Z.eq_dec (t_customer_id t0) (map c_customer_id customers)) as [_ | Hn].
  - apply andb_false_r.
  - exfalso. apply Hn. exact Hc.
Qed.

(** X6.  After currency inference against a cleaned customer table and
    the removal of orphans, no transaction is left with the currency
    sentinel "NA": every valid country has a currency. *)
Theorem no_sentinel_after_inference (raw_customers : list raw_customer)
    (customers : list customer) (transactions : list transaction) :
  clean_customers raw_customers = Ok customers ->
  Forall (fun t => currency t <> "NA")
         (remove_orphan_transactions
            (infer_currency_from_country transactions customers) customers).
Proof.
  intro H. apply inferred_rows_have_currency.
  - exact (clean_customers_unique _ _ H).
  - exact (clean_customers_valid _ _ H).
Qed.

(** X7.  The count [infer_currency_from_country] reports, for a cleaned
    customer table: the number of transactions with the sentinel whose
    customer exists.  It is never negative. *)
Theorem inferred_count_exact (raw_customers : list raw_customer)
    (customers : list customer) (transactions : list transaction) :
  clean_customers raw_customers = Ok customers ->
  inferred_count transactions customers =
  Z.of_nat (List.length (filter (fun t => String.eqb (currency t) "NA"
                                          && has_customer customers t) transactions)).
Proof.
  intro H. pose proof (clean_customers_unique _ _ H) as Hnd.
  pose proof (clean_customers_valid _ _ H) as Hvalid.
  unfold inferred_count, na_count. rewrite (infer_as_map _ _ Hnd).
  induction transactions as [| t r IH]; [reflexivity |].
  cbn [map filter]. rewrite (infer_row_sentinel _ _ Hvalid).
  destruct (String.eqb (currency t) "NA"), (has_customer customers t);
    cbn [andb negb List.length]; lia.
Qed.

(** X8.  Orphan removal never adds a row, removing orphans twice is
    removing them once, a table whose customers all exist comes back as it
    is, and against an empty customer table nothing is left. *)
Theorem remove_orphan_transactions_shrinks (transactions : list transaction)
    (customers : list customer) :
  (List.length (remove_orphan_transactions transactions customers)
   <= List.length transactions)%nat /\
  remove_orphan_transactions (remove_orphan_transactions transactions customers) customers =
  remove_orphan_transactions transactions customers /\
  (Forall (fun t => In (t_customer_id t) (map c_customer_id customers)) transactions ->
   remove_orphan_transactions transactions customers = transactions) /\
  remove_orphan_transactions transactions [] = [].
Proof.
  unfold remove_orphan_transactions. split; [apply filter_length_le |].
  split.
  { induction transactions as [| t r IH]; simpl; [reflexivity |].
    destruct (existsb (Z.eqb (t_customer_id t))
                      (nodup Z.eq_dec (map c_customer_id customers))) eqn:Ht; simpl.
    - rewrite Ht, IH. reflexivity.
    - exact IH. }
  split.
  { intro Hall. induction Hall as [| t r Ht _ IH]; simpl; [reflexivity |].
    apply orphan_filter in Ht. rewrite Ht, IH. reflexivity. }
  induction transactions as [| t r IH]; simpl; [reflexivity | exact IH].
Qed.

End InferenceFacts.

(** ** Further facts: run_etl *)

Lemma drop_nulls_somes {A B : Type} (g : A -> B) (l : list A) :
  drop_nulls (map (fun x => Some (g x)) l) = map g l.
Proof.
  unfold drop_nulls. induction l as [| x r IH]; simpl; [reflexivity |].
  rewrite IH. reflexivity.
Qed.

Lemma fcol_median_some (c : list (option float64)) :
  drop_nulls c <> [] -> exists m, fcol_median c = Some m.
Proof.
  intro Hne. unfold fcol_median.
  set (v := sort_by f_leb (drop_nulls c)).
  assert (Hlen : (0 < List.length v)%nat).
  { unfold v. rewrite (Permutation_length (sort_by_perm f_leb (drop_nulls c))).
    destruct (drop_nulls c); [congruence | simpl; lia]. }
  assert (Hhalf : (List.length v / 2 < List.length v)%nat)
    by (apply Nat.div_lt; lia).
  destruct (nth_error v (List.length v / 2)) as [hi |] eqn:Hhi.
  2: { apply nth_error_None in Hhi. lia. }
  destruct (Nat.even (List.length v)).
  - destruct (nth_error v (List.length v / 2 - 1)) as [lo |] eqn:Hlo.
    + simpl. eauto.
    + apply nth_error_None in Hlo. lia.
  - eauto.
Qed.

Lemma fcol_stats_some (c : list (option float64)) :
  drop_nulls c <> [] ->
  exists lo hi mean median,
    fcol_min c = Some lo /\ fcol_max c = Some hi /\
    fcol_mean c = Some mean /\ fcol_median c = Some median.
Proof.
  intro Hne. destruct (fcol_median_some c Hne) as [m Hm].
  unfold fcol_min, fcol_max, fcol_mean, reduce.
  destruct (drop_nulls c) as [| x r]; [congruence |].
  do 4 eexists. repeat split; try reflexivity. exact Hm.
Qed.

Section DriverFacts.

Context {E : Engine} {B : Builtins}.

Lemma validate_transactions_empty :
  validate_transactions [] = Raises TypeError.
Proof. reflexivity. Qed.

Lemma validate_transactions_returns (df : list transaction) :
  df <> [] -> exists report, validate_transactions df = Returns report.
Proof.
  intro Hne. unfold validate_transactions.
  destruct (fcol_stats_some (map (fun t => Some (amount t)) df))
    as [lo [hi [mean [median [H1 [H2 [H3 H4]]]]]]].
  { rewrite drop_nulls_somes. destruct df; [congruence | discriminate]. }
  rewrite H1, H2, H3, H4. simpl. eauto.
Qed.

Lemma infer_not_empty (transactions : list transaction) (customers : list customer) :
  transactions <> [] -> infer_currency_from_country transactions customers <> [].
Proof.
  destruct transactions as [| t r]; [congruence |]. intros _.
  unfold infer_currency_from_country, join_country. cbn [flat_map].
  destruct (filter (fun c => c_customer_id c =? t_customer_id t) customers);
    discriminate.
Qed.

Lemma run_etl_cleaned (raw_c : list raw_customer) (raw_t : list raw_transaction)
    (flag : option bool) (cs : list customer) (ct : list transaction) :
  clean_customers raw_c = Ok cs ->
  clean_transactions raw_t = Ok ct ->
  run_etl raw_c raw_t flag =
  match ct with
  | [] => Raises TypeError
  | _ => Returns (cs, resolved flag cs ct)
  end.
Proof.
  intros Hc Ht. unfold run_etl, resolved. rewrite Hc, Ht. cbn [stage and_then].
  destruct ct as [| t r]; [reflexivity |].
  destruct (validate_transactions_returns (t :: r)) as [rep Hrep]; [discriminate |].
  rewrite Hrep. cbn [and_then].
  destruct (match flag with Some b => b | None => INFER_MISSING_CURRENCY end);
    [| reflexivity].
  destruct (validate_transactions_returns (infer_currency_from_country (t :: r) cs))
    as [rep' Hrep']; [apply infer_not_empty; discriminate |].
  rewrite Hrep'. reflexivity.
Qed.

Lemma run_etl_returns_inv (raw_c : list raw_customer) (raw_t : list raw_transaction)
    (flag : option bool) (cs : list customer) (ts : list eur_transaction) :
  run_etl raw_c raw_t flag = Returns (cs, ts) ->
  clean_customers raw_c = Ok cs /\
  exists ct, clean_transactions raw_t = Ok ct /\ ct <> [] /\ ts = resolved flag cs ct.
Proof.
  intro H.
  destruct (clean_customers raw_c) as [cs' | e] eqn:Hc.
  2: { unfold run_etl in H. rewrite Hc in H. discriminate. }
  destruct (clean_transactions raw_t) as [ct | e] eqn:Ht.
  2: { unfold run_etl in H. rewrite Hc, Ht in H. discriminate. }
  rewrite (run_etl_cleaned _ _ flag _ _ Hc Ht) in H.
  destruct ct as [| t r]; [discriminate |].
  inversion H; subst. split; [reflexivity |].
  exists (t :: r). split; [reflexivity |]. split; [discriminate | reflexivity].
Qed.

(** X9.  When both raw tables clean, [run_etl] raises a [TypeError] if no
    transaction survives the cleaning (the report rounds the minimum of an
    empty column), and otherwise returns the cleaned customers with the
    cleaned transactions after inference (when asked for), orphan removal
    and conversion.  When a table does not clean, it raises that error. *)
Theorem run_etl_outcome (raw_c : list raw_customer) (raw_t : list raw_transaction)
    (flag : option bool) :
  run_etl raw_c raw_t flag =
  match clean_customers raw_c, clean_transactions raw_t with
  | Err e, _ => Raises (Raised e)
  | Ok _, Err e => Raises (Raised e)
  | Ok _, Ok [] => Raises TypeError
  | Ok cs, Ok ct => Returns (cs, resolved flag cs ct)
  end.
Proof.
  destruct (clean_customers raw_c) as [cs | e] eqn:Hc.
  - destruct (clean_transactions raw_t) as [ct | e] eqn:Ht.
    + rewrite (run_etl_cleaned _ _ flag _ _ Hc Ht). destruct ct; reflexivity.
    + unfold run_etl. rewrite Hc, Ht. reflexivity.
  - unfold run_etl. rewrite Hc. reflexivity.
Qed.

End DriverFacts.

Lemma StronglySorted_map_filter {A : Type} (key : A -> Z) (p : A -> bool) (l : list A) :
  StronglySorted Z.lt (map key l) -> StronglySorted Z.lt (map key (filter p l)).
Proof.
  induction l as [| x r IH]; simpl; intro H; [constructor |].
  inversion H as [| ? ? Hs Hall]; subst.
  destruct (p x); simpl; [| apply IH; exact Hs].
  constructor; [apply IH; exact Hs |].
  rewrite Forall_forall in *. intros k Hk. apply Hall.
  apply in_map_iff in Hk. destruct Hk as [y [<- Hy]].
  apply filter_In in Hy. apply in_map. tauto.
Qed.

Section EtlOutputFacts.

Context {E : Engine} {B : Builtins}.

Lemma clean_transactions_rows (raw : list raw_transaction) (ts : list transaction) :
  clean_transactions raw = Ok ts ->
  StronglySorted Z.lt (map transaction_id ts) /\
  Forall (fun t => positive_or_nan (amount t)) ts.
Proof.
  unfold clean_transactions. intro H.
  apply bind_ok in H. destruct H as [st [_ H]]. inversion H; subst ts.
  split; [apply sort_on_ascending, unique_first_NoDup |].
  apply Forall_forall. intros t Hin.
  apply sort_on_In, unique_first_In in Hin. destruct Hin as [Hin _].
  apply filter_map_In in Hin. destruct Hin as [s [_ Hk]].
  apply keep_transaction_spec in Hk. tauto.
Qed.

Lemma inferred_or_not (flag : bool) (cs : list customer) (ct : list transaction) :
  NoDup (map c_customer_id cs) ->
  exists f : transaction -> transaction,
    (if flag then infer_currency_from_country ct cs else ct) = map f ct /\
    (forall t, transaction_id (f t) = transaction_id t /\
               t_customer_id (f t) = t_customer_id t /\
               amount (f t) = amount t).
Proof.
  intro Hnd. destruct flag.
  - exists (infer_row cs). split; [apply infer_as_map; exact Hnd |].
    intro t. repeat split; reflexivity.
  - exists (fun t => t). split; [symmetry; apply map_id | auto].
Qed.

(** X10.  In the tables [run_etl] returns, the transactions are in
    strictly ascending order of [transaction_id], each has an [amount]
    that is a positive number or NaN and a customer in the returned
    customer table, its [amount_in_eur] is null exactly when its currency
    has no rate, and, unless inference was switched off, none has the
    currency sentinel "NA". *)
Theorem run_etl_output (raw_c : list raw_customer) (raw_t : list raw_transaction)
    (flag : option bool) (cs : list customer) (ts : list eur_transaction) :
  run_etl raw_c raw_t flag = Returns (cs, ts) ->
  StronglySorted Z.lt (map (fun t => transaction_id (txn t)) ts) /\
  Forall (fun t => (amount (txn t) = NaN \/
                    exists q, amount (txn t) = Num q /\ (0 < q)%Q) /\
                   In (t_cust t) (map c_customer_id cs) /\
                   (amount_in_eur t = None <->
                    lookup (currency (txn t)) CONVERSION_RATES = None)) ts /\
  (flag <> Some false -> Forall (fun t => currency (txn t) <> "NA") ts).
Proof.
  intro H. apply run_etl_returns_inv in H.
  destruct H as [Hc [ct [Ht [_ ->]]]].
  pose proof (clean_customers_unique _ _ Hc) as Hnd.
  pose proof (clean_customers_valid _ _ Hc) as Hvalid.
  apply clean_transactions_rows in Ht. destruct Ht as [Hsorted Hpos].
  unfold resolved.
  set (flag' := match flag with Some b => b | None => INFER_MISSING_CURRENCY end).
  destruct (inferred_or_not flag' cs ct Hnd) as [f [Hf Hkeep]].
  split; [| split].
  - unfold add_amount_in_eur. rewrite map_map. cbn [txn].
    apply StronglySorted_map_filter. rewrite Hf, map_map.
    erewrite map_ext; [exact Hsorted |]. intro t. apply Hkeep.
  - apply Forall_forall. intros r Hr.
    unfold add_amount_in_eur in Hr. apply in_map_iff in Hr.
    destruct Hr as [t [<- Hin]]. unfold t_cust. cbn [txn amount_in_eur].
    unfold remove_orphan_transactions in Hin. apply filter_In in Hin.
    destruct Hin as [Hin Hcust]. apply orphan_filter in Hcust.
    rewrite Hf in Hin. apply in_map_iff in Hin. destruct Hin as [t0 [<- Hin0]].
    destruct (Hkeep t0) as [_ [Hid Ham]].
    split.
    { rewrite Ham. rewrite Forall_forall in Hpos. specialize (Hpos t0 Hin0).
      destruct (amount t0) as [q |]; [right; exists q; auto | left; reflexivity]. }
    split; [exact Hcust |].
    unfold convert, replace_strict.
    destruct (lookup (currency (f t0)) CONVERSION_RATES); cbn [option_map];
      split; congruence.
  - intro Hflag.
    assert (Hon : flag' = true).
    { unfold flag'. destruct flag as [[|] |]; [reflexivity | congruence | reflexivity]. }
    rewrite Hon. apply Forall_forall. intros r Hr.
    unfold add_amount_in_eur in Hr. apply in_map_iff in Hr.
    destruct Hr as [t [<- Hin]]. cbn [txn].
    pose proof (inferred_rows_have_currency cs ct Hnd Hvalid) as Hall.
    rewrite Forall_forall in Hall. apply Hall. exact Hin.
Qed.

End EtlOutputFacts.

(** ** Further facts: the feature table *)

Lemma filter_all {A : Type} (p : A -> bool) (l : list A) :
  (forall x, In x l -> p x = true) -> filter p l = l.
Proof.
  induction l as [| x r IH]; simpl; intro H; [reflexivity |].
  rewrite (H x (or_introl eq_refl)), IH; [reflexivity |].
  intros y Hy. apply H. right. exact Hy.
Qed.

Lemma filter_disjoint_sizes {A : Type} (p q : A -> bool) (l : list A) :
  (forall x, p x = true -> q x = false) ->
  (List.length (filter p l) + List.length (filter q l))%nat =
  List.length (filter (fun x => p x || q x) l).
Proof.
  intro H. induction l as [| x r IH]; [reflexivity |].
  cbn [filter]. destruct (p x) eqn:Hp; cbn [orb].
  - rewrite (H x Hp). cbn [List.length]. rewrite <- IH. reflexivity.
  - destruct (q x); cbn [List.length]; rewrite <- IH; lia.
Qed.

(** The groups of distinct keys partition the rows that have one of them. *)
Lemma group_sizes {A : Type} (key : A -> Z) (l : list A) (keys : list Z) :
  NoDup keys ->
  fold_right Z.add 0
    (map (fun k => Z.of_nat (List.length (filter (fun x => key x =? k) l))) keys) =
  Z.of_nat (List.length (filter (fun x => existsb (Z.eqb (key x)) keys) l)).
Proof.
  induction 1 as [| k ks Hk _ IH]; cbn [map fold_right].
  - induction l as [| x r IHl]; [reflexivity | exact IHl].
  - rewrite IH, <- Nat2Z.inj_add. f_equal.
    rewrite (filter_ext (fun x => existsb (Z.eqb (key x)) (k :: ks))
                        (fun x => (key x =? k) || existsb (Z.eqb (key x)) ks))
      by (intro x; reflexivity).
    apply filter_disjoint_sizes. intros x Hx. apply Z.eqb_eq in Hx.
    destruct (existsb (Z.eqb (key x)) ks) eqn:Hks; [| reflexivity].
    apply existsb_Zeqb in Hks. rewrite Hx in Hks. contradiction.
Qed.

Lemma fold_min_spec (l : list Z) :
  forall x, let m := fold_left Z.min l x in
            m <= x /\ (forall y, In y l -> m <= y) /\ (m = x \/ In m l).
Proof.
  induction l as [| y r IH]; intro x; simpl.
  - split; [lia |]. split; [intros y [] | left; reflexivity].
  - destruct (IH (Z.min x y)) as [H1 [H2 H3]]. split; [lia |]. split.
    + intros z [<- | Hz]; [lia | apply H2; exact Hz].
    + destruct H3 as [H3 | H3]; [| right; right; exact H3].
      rewrite H3. destruct (Z.min_spec x y) as [[_ Hm] | [_ Hm]]; rewrite Hm.
      * left. reflexivity.
      * right. left. reflexivity.
Qed.

Lemma col_min_Z_spec (c : list (option Z)) (m : Z) :
  col_min_Z c = Some m ->
  In (Some m) c /\ forall x, In (Some x) c -> m <= x.
Proof.
  unfold col_min_Z, reduce.
  destruct (drop_nulls c) as [| x r] eqn:Hd; [discriminate |].
  intro H. inversion H as [Hm]. clear H.
  destruct (fold_min_spec r x) as [H1 [H2 H3]]. simpl in H1, H2, H3.
  split.
  - apply drop_nulls_In. rewrite Hd.
    destruct H3 as [H3 | H3]; [left; symmetry; exact H3 | right; exact H3].
  - intros y Hy. apply drop_nulls_In in Hy. rewrite Hd in Hy.
    destruct Hy as [<- | Hy]; [exact H1 | apply H2; exact Hy].
Qed.

Lemma Qmin_cases (x y : Q) :
  (Qmin x y = x /\ (x <= y)%Q) \/ (Qmin x y = y /\ (y <= x)%Q).
Proof.
  unfold Qmin. destruct (Qle_bool x y) eqn:H.
  - left. split; [reflexivity | apply Qle_bool_iff; exact H].
  - right. split; [reflexivity |].
    apply Qlt_le_weak, Qnot_le_lt. intro Hle. apply Qle_bool_iff in Hle. congruence.
Qed.

Lemma Qmax_cases (x y : Q) :
  (Qmax x y = y /\ (x <= y)%Q) \/ (Qmax x y = x /\ (y <= x)%Q).
Proof.
  unfold Qmax. destruct (Qle_bool x y) eqn:H.
  - left. split; [reflexivity | apply Qle_bool_iff; exact H].
  - right. split; [reflexivity |].
    apply Qlt_le_weak, Qnot_le_lt. intro Hle. apply Qle_bool_iff in Hle. congruence.
Qed.

(** Folding a choice between two numbers that passes over NaN: the result
    is one of the values; it is a number on the chosen side of every
    number of the list, or NaN when the list has no number. *)
Lemma fold_skip_nan_spec (g : Q -> Q -> Q) (R : Q -> Q -> Prop) :
  (forall x, R x x) ->
  (forall x y z, R x y -> R y z -> R x z) ->
  (forall x y, (g x y = x /\ R x y) \/ (g x y = y /\ R y x)) ->
  forall l x,
    let m := fold_left (f_skip_nan g) l x in
    (m = x \/ In m l) /\
    match m with
    | Num v => forall a, In (Num a) (x :: l) -> R v a
    | NaN => forall a, ~ In (Num a) (x :: l)
    end.
Proof.
  intros Hrefl Htrans Hcases. induction l as [| y r IH]; intro x; cbn [fold_left].
  - split; [left; reflexivity |]. destruct x as [v |].
    + intros a [Ha | []]. inversion Ha; subst. apply Hrefl.
    + intros a [Ha | []]. discriminate Ha.
  - destruct (IH (f_skip_nan g x y)) as [Hin Hall]. cbn zeta in Hin, Hall.
    set (m := fold_left (f_skip_nan g) r (f_skip_nan g x y)) in *.
    assert (Hpick : f_skip_nan g x y = x \/ f_skip_nan g x y = y).
    { destruct x as [a |], y as [b |]; simpl; auto.
      destruct (Hcases a b) as [[-> _] | [-> _]]; auto. }
    split.
    { destruct Hin as [Hin | Hin]; [| right; right; exact Hin].
      rewrite Hin. destruct Hpick as [-> | ->]; [left | right; left]; reflexivity. }
    destruct m as [v |].
    + intros a [Ha | [Ha | Ha]].
      * subst x. destruct y as [b |]; simpl in Hall.
        -- destruct (Hcases a b) as [[Hg _] | [Hg Hba]].
           ++ apply Hall. left. rewrite Hg. reflexivity.
           ++ apply (Htrans _ b); [| exact Hba]. apply Hall. left. rewrite Hg. reflexivity.
        -- apply Hall. left. reflexivity.
      * subst y. destruct x as [b |]; simpl in Hall.
        -- destruct (Hcases b a) as [[Hg Hba] | [Hg _]].
           ++ apply (Htrans _ b); [| exact Hba]. apply Hall. left. rewrite Hg. reflexivity.
           ++ apply Hall. left. rewrite Hg. reflexivity.
        -- apply Hall. left. reflexivity.
      * apply Hall. right. exact Ha.
    + intros a [Ha | [Ha | Ha]].
      * subst x. destruct y as [b |]; simpl in Hall.
        -- apply (Hall (g a b)). left. reflexivity.
        -- apply (Hall a). left. reflexivity.
      * subst y. destruct x as [b |]; simpl in Hall.
        -- apply (Hall (g b a)). left. reflexivity.
        -- apply (Hall a). left. reflexivity.
      * apply (Hall a). right. exact Ha.
Qed.

Section TableFacts.

Context {E : Engine}.

(** X11.  The feature table has exactly one row for each customer that
    has a transaction, and none for any other customer. *)
Theorem one_row_per_customer (transactions : list eur_transaction)
    (reference_date : option Z) (fs : list feature) :
  compute_rfm_features transactions reference_date = Ok fs ->
  NoDup (map f_customer_id fs) /\
  forall k, In k (map f_customer_id fs) <-> exists t, In t transactions /\ t_cust t = k.
Proof.
  intro H. apply compute_rfm_features_rows in H. destruct H as [ref [_ [-> _]]].
  rewrite map_map.
  assert (Hids : map (fun g => f_customer_id (rfm_row ref (interevent_stats transactions) g))
                     (group_by t_cust transactions)
                 = distinct (map t_cust transactions)).
  { rewrite <- group_by_keys. apply map_ext. intro g. reflexivity. }
  rewrite Hids. split; [apply distinct_NoDup |].
  intro k. rewrite distinct_In, in_map_iff. split.
  - intros [t [Hk Hin]]. exists t. auto.
  - intros [t [Hin Hk]]. exists t. auto.
Qed.

(** X12.  The [transaction_count]s of the feature table add up to the
    number of transactions: every transaction is counted once. *)
Theorem transaction_counts_add_up (transactions : list eur_transaction)
    (reference_date : option Z) (fs : list feature) :
  compute_rfm_features transactions reference_date = Ok fs ->
  fold_right Z.add 0 (map transaction_count fs) = Z.of_nat (List.length transactions).
Proof.
  intro H. apply compute_rfm_features_rows in H. destruct H as [ref [_ [-> _]]].
  unfold group_by. rewrite !map_map. cbn [rfm_row transaction_count snd].
  erewrite map_ext.
  2: { intro k. rewrite length_map. reflexivity. }
  rewrite (group_sizes t_cust transactions _ (distinct_NoDup _)).
  rewrite filter_all; [reflexivity |].
  intros t Ht. apply existsb_Zeqb, distinct_In, in_map. exact Ht.
Qed.

(** X13.  In every feature row the first transaction date is not after
    the last one, the two are null together, and [customer_tenure_days],
    when not null, is not negative. *)
Theorem tenure_not_negative (transactions : list eur_transaction)
    (reference_date : option Z) (fs : list feature) :
  compute_rfm_features transactions reference_date = Ok fs ->
  Forall (fun f =>
            match first_transaction_date f, last_transaction_date f with
            | Some a, Some b =>
                a <= b /\ exists d, customer_tenure_days f = Some d /\ 0 <= d
            | None, None => customer_tenure_days f = None
            | _, _ => False
            end) fs.
Proof.
  intro H. apply compute_rfm_features_rows in H. destruct H as [ref [_ [_ Hfs]]].
  apply Forall_forall. intros f Hf. apply Hfs in Hf. destruct Hf as [k [_ ->]].
  unfold rfm_row.
  cbn [first_transaction_date last_transaction_date customer_tenure_days snd].
  set (c := map t_time (rows_of k transactions)).
  destruct (col_min_Z c) as [a |] eqn:Ha; destruct (col_max_Z c) as [b |] eqn:Hb.
  - apply col_min_Z_spec in Ha. apply col_max_Z_spec in Hb.
    destruct Ha as [Ha _]. destruct Hb as [_ Hb]. specialize (Hb a Ha).
    split; [exact Hb |]. simpl. eexists. split; [reflexivity |].
    apply date_of_mono in Hb. lia.
  - apply col_min_Z_spec in Ha. destruct Ha as [Ha _].
    exact (proj1 (col_max_Z_none c) Hb a Ha).
  - apply col_max_Z_spec in Hb. destruct Hb as [Hb _].
    unfold col_min_Z, reduce in Ha.
    destruct (drop_nulls c) eqn:Hd; [| discriminate].
    apply drop_nulls_In in Hb. rewrite Hd in Hb. destruct Hb.
  - reflexivity.
Qed.

(** X14.  In every feature row [min_transaction_amount] and
    [max_transaction_amount] are null together; when they are not, both
    are converted amounts of the customer's transactions.  They are
    numbers when some converted amount of the customer is a number: every
    such amount then lies between them, and min <= max.  They are both
    NaN when every converted amount of the customer is NaN. *)
Theorem min_max_amounts (transactions : list eur_transaction)
    (reference_date : option Z) (fs : list feature) :
  compute_rfm_features transactions reference_date = Ok fs ->
  Forall (fun f =>
            let amounts := map amount_in_eur (rows_of (f_customer_id f) transactions) in
            match min_transaction_amount f, max_transaction_amount f with
            | Some lo, Some hi =>
                In (Some lo) amounts /\ In (Some hi) amounts /\
                match lo, hi with
                | Num l, Num h =>
                    (l <= h)%Q /\
                    forall a, In (Some (Num a)) amounts -> (l <= a)%Q /\ (a <= h)%Q
                | NaN, NaN => forall a, ~ In (Some (Num a)) amounts
                | _, _ => False
                end
            | None, None => forall a, ~ In (Some a) amounts
            | _, _ => False
            end) fs.
Proof.
  intro H. apply compute_rfm_features_rows in H. destruct H as [ref [_ [_ Hfs]]].
  apply Forall_forall. intros f Hf. apply Hfs in Hf. destruct Hf as [k [_ ->]].
  unfold rfm_row. cbn [min_transaction_amount max_transaction_amount f_customer_id fst snd].
  cbn zeta. set (c := map amount_in_eur (rows_of k transactions)).
  unfold fcol_min, fcol_max, reduce.
  destruct (drop_nulls c) as [| x r] eqn:Hd.
  - intros a Ha. apply drop_nulls_In in Ha. rewrite Hd in Ha. destruct Ha.
  - destruct (fold_skip_nan_spec Qmin Qle Qle_refl Qle_trans Qmin_cases r x) as [L1 L2].
    destruct (fold_skip_nan_spec Qmax (fun v a => (a <= v)%Q)) with (l := r) (x := x)
      as [U1 U2].
    { intro v. apply Qle_refl. }
    { intros u v w Huv Hvw. eapply Qle_trans; eassumption. }
    { intros u v. destruct (Qmax_cases u v) as [[Hm Hle] | [Hm Hle]]; auto. }
    cbn zeta in L1, L2, U1, U2. fold f_min in L1, L2. fold f_max in U1, U2.
    assert (Hin : forall a, In (Some a) c <-> In a (x :: r)).
    { intro a. rewrite <- drop_nulls_In, Hd. reflexivity. }
    split; [apply Hin; destruct L1 as [-> | L1]; [left; reflexivity | right; exact L1] |].
    split; [apply Hin; destruct U1 as [-> | U1]; [left; reflexivity | right; exact U1] |].
    assert (L1' : In (fold_left f_min r x) (x :: r))
      by (destruct L1 as [-> | L1]; [left; reflexivity | right; exact L1]).
    assert (U1' : In (fold_left f_max r x) (x :: r))
      by (destruct U1 as [-> | U1]; [left; reflexivity | right; exact U1]).
    destruct (fold_left f_min r x) as [l |]; destruct (fold_left f_max r x) as [h |].
    + split; [exact (U2 l L1') |].
      intros a Ha. apply Hin in Ha. split; [apply L2 | apply U2]; exact Ha.
    + exact (U2 l L1').
    + exact (L2 h U1').
    + intros a Ha. apply Hin in Ha. exact (L2 a Ha).
Qed.

(** X15.  [compute_rfm_features] raises only when it is given no reference
    date and no transaction has a timestamp (an empty table included); the
    error is then the [AttributeError] of [None.date()]. *)
Theorem compute_rfm_features_raises (transactions : list eur_transaction)
    (reference_date : option Z) (e : error) :
  compute_rfm_features transactions reference_date = Err e <->
  e = AttributeError /\ reference_date = None /\
  forall t, In t transactions -> t_time t = None.
Proof.
  split.
  - unfold compute_rfm_features. destruct reference_date as [d |]; [discriminate |].
    unfold default_reference_date.
    destruct (col_max_Z (map t_time transactions)) as [m |] eqn:Hm; [discriminate |].
    simpl. intro H. inversion H; subst. split; [reflexivity |]. split; [reflexivity |].
    intros t Hin. destruct (t_time t) as [x |] eqn:Hx; [| reflexivity].
    exfalso. apply (proj1 (col_max_Z_none _) Hm x). rewrite <- Hx. apply in_map. exact Hin.
  - intros [-> [-> H]]. apply default_reference_date_none. exact H.
Qed.

(** X16.  The reference date enters the feature table through
    [days_since_last_transaction] alone.  Take two calls on the same
    table, the second with a reference date [delta] days later, in which
    the grouping may list tied values in different orders: every customer
    with a row in one table has a row in the other, and but for the
    preferred category and currency, where a tie may fall either way, the
    second row is the first with its recency moved by [delta]. *)
Theorem reference_date_shifts_recency (g1 g2 : list string -> list string)
    (transactions : list eur_transaction) (d delta : Z) (fs1 fs2 : list feature) :
  compute_rfm_features (E := with_group_order g1) transactions (Some d) = Ok fs1 ->
  compute_rfm_features (E := with_group_order g2) transactions (Some (d + delta)) = Ok fs2 ->
  (forall f1, In f1 fs1 ->
     exists f2, In f2 fs2 /\
                forget_preferences f2 = forget_preferences (shift_recency delta f1)) /\
  (forall f2, In f2 fs2 ->
     exists f1, In f1 fs1 /\
                forget_preferences f2 = forget_preferences (shift_recency delta f1)).
Proof.
  unfold compute_rfm_features. simpl. intros H1 H2.
  inversion H1; subst fs1. inversion H2; subst fs2. clear H1 H2.
  assert (Hrow : forall g,
             forget_preferences
               (rfm_row (E := with_group_order g2) (d + delta)
                        (interevent_stats (E := with_group_order g2) transactions) g)
             = forget_preferences
                 (shift_recency delta
                    (rfm_row (E := with_group_order g1) d
                             (interevent_stats (E := with_group_order g1) transactions) g))).
  { intro g. unfold forget_preferences, shift_recency, rfm_row. cbn. f_equal.
    destruct (col_max_Z (map t_time (snd g))); simpl; [f_equal; lia | reflexivity]. }
  split.
  - intros f1 Hf. apply in_map_iff in Hf. destruct Hf as [g [<- Hg]].
    eexists. split; [apply in_map; exact Hg | apply Hrow].
  - intros f2 Hf. apply in_map_iff in Hf. destruct Hf as [g [<- Hg]].
    eexists. split; [apply in_map; exact Hg | apply Hrow].
Qed.

End TableFacts.

(** ** Further facts: interevent statistics *)

Lemma filter_filter_and {A : Type} (p q : A -> bool) (l : list A) :
  filter p (filter q l) = filter (fun x => q x && p x) l.
Proof.
  induction l as [| x r IH]; simpl; [reflexivity |].
  destruct (q x); simpl; [destruct (p x) |]; rewrite IH; reflexivity.
Qed.

Lemma StronglySorted_filter {A : Type} (R : A -> A -> Prop) (p : A -> bool) (l : list A) :
  StronglySorted R l -> StronglySorted R (filter p l).
Proof.
  induction 1 as [| x r Hs IH Hall]; simpl; [constructor |].
  destruct (p x); [| exact IH]. constructor; [exact IH |].
  rewrite Forall_forall in *. intros y Hy. apply Hall. apply filter_In in Hy. tauto.
Qed.

Lemma opt_leb_total (x y : option Z) : opt_leb x y = true \/ opt_leb y x = true.
Proof.
  destruct x as [a |], y as [b |]; simpl; auto.
  destruct (Z.leb_spec a b); [left; reflexivity | right; apply Z.leb_le; lia].
Qed.

Lemma opt_leb_trans (x y z : option Z) :
  opt_leb x y = true -> opt_leb y z = true -> opt_leb x z = true.
Proof.
  destruct x as [a |], y as [b |], z as [c |]; simpl; try congruence.
  intros H1 H2. apply Z.leb_le in H1, H2. apply Z.leb_le. lia.
Qed.

Lemma customer_time_leb_spec (a b : eur_transaction) :
  customer_time_leb a b = true <->
  t_cust a < t_cust b \/ (t_cust a = t_cust b /\ opt_leb (t_time a) (t_time b) = true).
Proof.
  unfold customer_time_leb. rewrite orb_true_iff, andb_true_iff, Z.ltb_lt, Z.eqb_eq.
  reflexivity.
Qed.

Lemma customer_time_leb_total (a b : eur_transaction) :
  customer_time_leb a b = true \/ customer_time_leb b a = true.
Proof.
  rewrite !customer_time_leb_spec.
  destruct (Z.lt_trichotomy (t_cust a) (t_cust b)) as [H | [H | H]].
  - left. left. exact H.
  - destruct (opt_leb_total (t_time a) (t_time b)); [left | right]; right; auto.
  - right. left. exact H.
Qed.

Lemma customer_time_leb_trans (a b c : eur_transaction) :
  customer_time_leb a b = true -> customer_time_leb b c = true ->
  customer_time_leb a c = true.
Proof.
  rewrite !customer_time_leb_spec.
  intros [H1 | [H1 T1]] [H2 | [H2 T2]].
  - left. lia.
  - left. lia.
  - left. lia.
  - right. split; [lia | eapply opt_leb_trans; eassumption].
Qed.

Lemma find_in_group (k : Z) (t : eur_transaction) (before : list eur_transaction) :
  t_cust t = k ->
  find (fun p => t_cust p =? t_cust t) before =
  find (fun p => t_cust p =? t_cust t) (filter (of_customer k) before).
Proof.
  intro Hk. subst k. induction before as [| p r IH]; simpl; [reflexivity |].
  unfold of_customer at 1.
  destruct (t_cust p =? t_cust t) eqn:Hp; simpl.
  - rewrite Hp. reflexivity.
  - exact IH.
Qed.

Lemma with_interevent_days_of_customer (k : Z) (l : list eur_transaction) :
  forall before,
    filter (fun r => of_customer k (fst r)) (with_interevent_days before l) =
    with_interevent_days (filter (of_customer k) before) (filter (of_customer k) l).
Proof.
  induction l as [| t r IH]; intros prior; simpl; [reflexivity |].
  destruct (of_customer k t) eqn:Ht; simpl.
  - rewrite (IH (t :: prior)). simpl. rewrite Ht. f_equal. f_equal.
    unfold interevent_of, shift_over.
    unfold of_customer in Ht. apply Z.eqb_eq in Ht.
    rewrite (find_in_group k t prior Ht). reflexivity.
  - rewrite (IH (t :: prior)). simpl. rewrite Ht. reflexivity.
Qed.

Lemma with_interevent_days_gaps (k : Z) (l : list eur_transaction) :
  forall before,
    Forall (fun t => t_cust t = k) before ->
    Forall (fun t => t_cust t = k) l ->
    map snd (with_interevent_days before l) = gaps (hd_error before) l.
Proof.
  induction l as [| t r IH]; intros prior Hb Hl; simpl; [reflexivity |].
  apply Forall_cons_iff in Hl. destruct Hl as [Ht Hr].
  rewrite (IH (t :: prior)); [| constructor; assumption | exact Hr]. simpl. f_equal.
  unfold interevent_of, shift_over.
  destruct prior as [| p prior']; simpl; [destruct (t_time t); reflexivity |].
  apply Forall_cons_iff in Hb. destruct Hb as [Hp _].
  rewrite Hp, Ht, Z.eqb_refl. reflexivity.
Qed.

Lemma gaps_sorted (l : list eur_transaction) :
  StronglySorted time_leb l ->
  forall p, Forall (time_leb p) l ->
    List.length (drop_nulls (gaps (Some p) l)) =
    (if dated p then List.length (filter dated l)
     else Nat.pred (List.length (filter dated l))) /\
    List.length (drop_nulls (gaps None l)) = Nat.pred (List.length (filter dated l)) /\
    Forall (fun d => 0 <= d) (drop_nulls (gaps (Some p) l)) /\
    Forall (fun d => 0 <= d) (drop_nulls (gaps None l)).
Proof.
  induction 1 as [| t r Hs IH Hall]; intros p Hp.
  - simpl. destruct (dated p); repeat split; constructor.
  - inversion Hp as [| ? ? Hpt Hpr]; subst.
    destruct (IH t Hall) as [C1 [_ [N1 _]]].
    unfold time_leb in Hpt. unfold dated in *. unfold drop_nulls in *.
    cbn [gaps map filter_map filter].
    destruct (t_time p) as [a |] eqn:Ha; destruct (t_time t) as [b |] eqn:Hb;
      cbn [lift2 option_map filter_map List.length] in *.
    + apply Z.leb_le in Hpt. repeat split.
      * rewrite C1. reflexivity.
      * rewrite C1. reflexivity.
      * constructor; [| exact N1].
        unfold total_days, US_PER_DAY. apply Z.quot_pos; lia.
      * exact N1.
    + discriminate.
    + repeat split; try (rewrite C1; reflexivity); exact N1.
    + repeat split; try (rewrite C1; reflexivity); exact N1.
Qed.

Lemma sorted_rows_of_customer (k : Z) (transactions : list eur_transaction) :
  StronglySorted time_leb
    (filter (of_customer k) (sort_by customer_time_leb transactions)).
Proof.
  assert (Hs : StronglySorted (fun a b => customer_time_leb a b = true)
                 (sort_by customer_time_leb transactions)).
  { apply sort_by_sorted_total.
    - apply customer_time_leb_total.
    - apply customer_time_leb_trans. }
  apply (StronglySorted_filter _ (of_customer k)) in Hs.
  assert (Hk : Forall (fun t => t_cust t = k)
                 (filter (of_customer k) (sort_by customer_time_leb transactions))).
  { apply Forall_forall. intros t Ht. apply filter_In in Ht.
    destruct Ht as [_ Ht]. apply Z.eqb_eq. exact Ht. }
  induction Hs as [| x r _ IH Hall]; [constructor |].
  inversion Hk as [| ? ? Hx Hr]; subst. constructor; [apply IH; exact Hr |].
  rewrite Forall_forall in *. intros y Hy. specialize (Hall y Hy).
  apply customer_time_leb_spec in Hall. destruct Hall as [Hlt | [_ H]]; [| exact H].
  specialize (Hr y Hy). lia.
Qed.

(** The samples of a customer: one fewer than its dated transactions, and
    none of them negative. *)
Lemma samples_of_customer (k : Z) (transactions : list eur_transaction) :
  List.length (samples_of k transactions) = Nat.pred (dated_count k transactions) /\
  Forall (fun d => 0 <= d) (samples_of k transactions).
Proof.
  unfold samples_of. rewrite (with_interevent_days_of_customer k _ []). cbn [filter].
  set (rows := filter (of_customer k) (sort_by customer_time_leb transactions)).
  assert (Hk : Forall (fun t => t_cust t = k) rows).
  { apply Forall_forall. intros t Ht. apply filter_In in Ht.
    destruct Ht as [_ Ht]. apply Z.eqb_eq. exact Ht. }
  rewrite (with_interevent_days_gaps k rows [] (Forall_nil _) Hk). cbn [hd_error].
  pose proof (sorted_rows_of_customer k transactions) as Hs. fold rows in Hs.
  assert (Hcount : List.length (filter dated rows) = dated_count k transactions).
  { unfold rows, dated_count, rows_of. rewrite !filter_filter_and.
    apply length_filter_perm, sort_by_perm. }
  destruct rows as [| t r].
  - simpl in *. rewrite <- Hcount. split; [reflexivity | constructor].
  - inversion Hs as [| ? ? Hs' Hall]; subst.
    destruct (gaps_sorted r Hs' t Hall) as [C1 [_ [N1 _]]].
    rewrite <- Hcount. unfold drop_nulls in *. cbn [gaps map filter_map filter].
    split; [| exact N1].
    rewrite C1. destruct (dated t); reflexivity.
Qed.

Lemma samples_as_floats (k : Z) (X : list (eur_transaction * option Z)) :
  drop_nulls
    (to_float
       (map snd
          (filter (fun r => t_cust (fst r) =? k)
                  (filter (fun r => match snd r with Some _ => true | None => false end) X)))) =
  map inject_Z (drop_nulls (map snd (filter (fun r => of_customer k (fst r)) X))).
Proof.
  unfold drop_nulls, to_float, of_customer.
  induction X as [| [t o] r IH]; simpl; [reflexivity |].
  destruct o as [d |]; simpl.
  - destruct (t_cust t =? k); simpl; rewrite IH; reflexivity.
  - destruct (t_cust t =? k); simpl; exact IH.
Qed.

Section IntereventFacts.

Context {E : Engine}.

Lemma interevent_columns (transactions : list eur_transaction) (k : Z) :
  match find (fun s => ie_customer_id s =? k) (interevent_stats transactions) with
  | Some s => ie_mean s
  | None => None
  end = col_mean (float_samples k transactions) /\
  match find (fun s => ie_customer_id s =? k) (interevent_stats transactions) with
  | Some s => ie_std s
  | None => None
  end = col_std (float_samples k transactions).
Proof.
  unfold float_samples.
  set (W := with_interevent_days [] (sort_by customer_time_leb transactions)).
  set (rows := filter (fun r : eur_transaction * option Z =>
                         match snd r with Some _ => true | None => false end) W).
  assert (Hfloat : drop_nulls (to_float (map snd (filter (fun r => t_cust (fst r) =? k) rows)))
                   = map inject_Z (samples_of k transactions))
    by apply samples_as_floats.
  assert (Hsome : drop_nulls (map (fun d => Some (inject_Z d)) (samples_of k transactions))
                  = map inject_Z (samples_of k transactions))
    by apply drop_nulls_somes.
  destruct (find (fun s => ie_customer_id s =? k) (interevent_stats transactions))
    as [s |] eqn:Hf.
  - apply find_some in Hf. destruct Hf as [Hin Hk]. apply Z.eqb_eq in Hk.
    unfold interevent_stats in Hin. fold W in Hin. fold rows in Hin.
    apply in_map_iff in Hin. destruct Hin as [g [<- Hg]]. simpl in Hk.
    apply group_by_In in Hg. destruct Hg as [_ Hs]. rewrite Hk in Hs.
    cbn [ie_mean ie_std]. rewrite Hs.
    unfold col_mean, col_std. rewrite Hfloat, Hsome. split; reflexivity.
  - assert (Hnil : samples_of k transactions = []).
    { destruct (filter (fun r => t_cust (fst r) =? k) rows) as [| r0 rest] eqn:Hrows.
      - simpl in Hfloat.
        destruct (samples_of k transactions); [reflexivity | discriminate].
      - exfalso.
        assert (Hr0 : In r0 (filter (fun r => t_cust (fst r) =? k) rows))
          by (rewrite Hrows; left; reflexivity).
        apply filter_In in Hr0. destruct Hr0 as [Hr0 Hk0]. apply Z.eqb_eq in Hk0.
        set (g := (k, filter (fun r : eur_transaction * option Z => t_cust (fst r) =? k) rows)).
        assert (Hg : In g (group_by (fun r : eur_transaction * option Z => t_cust (fst r)) rows)).
        { apply group_by_In. simpl. split; [| reflexivity].
          rewrite <- Hk0. apply (in_map (fun r => t_cust (fst r))). exact Hr0. }
        pose proof (find_none _ _ Hf) as Hnone.
        specialize (Hnone {| ie_customer_id := fst g;
                             ie_mean := col_mean (to_float (map snd (snd g)));
                             ie_std := col_std (to_float (map snd (snd g))) |}).
        simpl in Hnone. rewrite Z.eqb_refl in Hnone.
        assert (Hdone : true = false); [| discriminate].
        apply Hnone. unfold interevent_stats. fold W. fold rows.
        apply in_map_iff. exists g. split; [reflexivity | exact Hg]. }
    rewrite Hnil. split; reflexivity.
Qed.

Lemma feature_interevent (transactions : list eur_transaction)
    (reference_date : option Z) (fs : list feature) (f : feature) :
  compute_rfm_features transactions reference_date = Ok fs -> In f fs ->
  mean_interevent_days f = col_mean (float_samples (f_customer_id f) transactions) /\
  std_interevent_days f = col_std (float_samples (f_customer_id f) transactions).
Proof.
  intros H Hf. apply compute_rfm_features_rows in H. destruct H as [ref [_ [_ Hfs]]].
  apply Hfs in Hf. destruct Hf as [k [_ ->]].
  unfold rfm_row. cbn [mean_interevent_days std_interevent_days f_customer_id fst].
  apply interevent_columns.
Qed.

(** X17.  A feature row has a [mean_interevent_days] exactly when its
    customer has at least two transactions with a timestamp, and a
    [std_interevent_days] exactly when it has at least three. *)
Theorem interevent_needs_history (transactions : list eur_transaction)
    (reference_date : option Z) (fs : list feature) :
  compute_rfm_features transactions reference_date = Ok fs ->
  Forall (fun f =>
            (mean_interevent_days f <> None <->
             (2 <= dated_count (f_customer_id f) transactions)%nat) /\
            (std_interevent_days f <> None <->
             (3 <= dated_count (f_customer_id f) transactions)%nat)) fs.
Proof.
  intro H. apply Forall_forall. intros f Hf.
  destruct (feature_interevent _ _ _ _ H Hf) as [-> ->].
  destruct (samples_of_customer (f_customer_id f) transactions) as [Hlen _].
  unfold col_mean, col_std, float_samples. rewrite drop_nulls_somes.
  destruct (samples_of (f_customer_id f) transactions) as [| d1 [| d2 r]];
    simpl in *; split; split; intro Hx; try congruence; try lia; discriminate.
Qed.

Lemma Qsum_nonneg (l : list Q) : Forall (fun x => (0 <= x)%Q) l -> (0 <= Qsum l)%Q.
Proof.
  induction 1 as [| x r Hx _ IH]; simpl; [apply Qle_refl |].
  change 0%Q with (0 + 0)%Q. apply Qplus_le_compat; assumption.
Qed.

(** X18.  [mean_interevent_days] is never negative: within a customer the
    transactions are taken in ascending order of timestamp. *)
Theorem mean_interevent_not_negative (transactions : list eur_transaction)
    (reference_date : option Z) (fs : list feature) :
  compute_rfm_features transactions reference_date = Ok fs ->
  Forall (fun f => forall m, mean_interevent_days f = Some m -> (0 <= m)%Q) fs.
Proof.
  intro H. apply Forall_forall. intros f Hf m Hm.
  destruct (feature_interevent _ _ _ _ H Hf) as [Hmean _]. rewrite Hmean in Hm.
  destruct (samples_of_customer (f_customer_id f) transactions) as [_ Hpos].
  unfold col_mean, float_samples in Hm. rewrite drop_nulls_somes in Hm.
  destruct (samples_of (f_customer_id f) transactions) as [| d r] eqn:Hs;
    [discriminate |].
  cbn [map] in Hm. inversion Hm; subst m. clear Hm.
  unfold Qmean. apply Qle_shift_div_l.
  - unfold Qlen. change 0%Q with (inject_Z 0). rewrite <- Zlt_Qlt. simpl. lia.
  - rewrite Qmult_0_l. apply Qsum_nonneg.
    change (inject_Z d :: map inject_Z r) with (map inject_Z (d :: r)).
    apply Forall_forall. intros q Hq. apply in_map_iff in Hq.
    destruct Hq as [z [<- Hz]]. rewrite Forall_forall in Hpos.
    change 0%Q with (inject_Z 0). rewrite <- Zle_Qle. apply Hpos. exact Hz.
Qed.

End IntereventFacts.

(** ** Further facts: the flags and the enriched table *)

Lemma StronglySorted_after {A : Type} (R : A -> A -> Prop) (a : list A) (t : A) (b : list A) :
  StronglySorted R (a ++ t :: b)%list -> Forall (R t) b.
Proof.
  induction a as [| x a IH]; simpl; intro H.
  - inversion H; assumption.
  - inversion H; subst. apply IH. assumption.
Qed.

Section FlagFacts.

Context {E : Engine}.

Lemma quantile_ok (c : list float64) (q : Q) (t : option float64) :
  quantile c q = Ok t -> in_unit_interval q.
Proof.
  unfold quantile, in_unit_interval.
  destruct (Qle_bool 0 q) eqn:H0; [| discriminate].
  destruct (Qle_bool q 1) eqn:H1; [| discriminate].
  intros _. split; apply Qle_bool_iff; assumption.
Qed.

Lemma high_value_height (t : float64) (d : Z) (features : list feature) :
  height_where is_high_value (map (flag_row (Some t) d) features) =
  List.length (filter (f_leb t) (map total_spend features)).
Proof.
  unfold height_where. induction features as [| f r IH]; [reflexivity |].
  cbn [map filter]. cbn [is_high_value flag_row lift2].
  destruct (f_leb t (total_spend f)); cbn [List.length]; rewrite IH; reflexivity.
Qed.

(** X19.  In a non-empty feature table the customers at and above the
    rank of the threshold are all high-value: with [i] the index the
    engine computes for [round((n - 1) * p)], at least [n - i] of the [n]
    rows are flagged; so at least one is, whatever the percentile, when
    [i] is a whole number next to the exact [(n - 1) * p]. *)
Theorem top_spenders_flagged (features : list feature)
    (high_value_percentile : option Q) (churn_days : option Z) (out : list flagged) :
  features <> [] ->
  add_customer_flags features high_value_percentile churn_days = Ok out ->
  (List.length features
   - nearest_index (List.length features) (percentile_of high_value_percentile)
   <= height_where is_high_value out)%nat /\
  (index_adjacent (List.length features) (percentile_of high_value_percentile) ->
   (1 <= height_where is_high_value out)%nat).
Proof.
  intros Hne H. apply add_customer_flags_rows in H.
  destruct H as [threshold [Hq ->]]. fold (percentile_of high_value_percentile) in Hq.
  pose proof (quantile_ok _ _ _ Hq) as Hp.
  rewrite (quantile_in_range _ _ Hp) in Hq.
  set (c := map total_spend features) in *.
  set (i := nearest_index (List.length features) (percentile_of high_value_percentile)).
  assert (Hlen : List.length c = List.length features) by apply length_map.
  assert (Hpos : (0 < List.length features)%nat)
    by (destruct features; [congruence | simpl; lia]).
  assert (Hth : nth_error (sort_by f_leb c) i = threshold).
  { destruct c as [| x r] eqn:Hc; [simpl in Hlen; lia |].
    unfold i. rewrite <- Hlen. inversion Hq. reflexivity. }
  pose proof (Permutation_length (sort_by_perm f_leb c)) as Hn.
  assert (Hbound : (List.length features - i
                    <= height_where is_high_value
                         (map (flag_row threshold
                                 match churn_days with Some d => d | None => CHURN_DAYS end)
                              features))%nat).
  { destruct threshold as [t |].
    2: { apply nth_error_None in Hth. lia. }
    rewrite high_value_height. fold c.
    rewrite <- (length_filter_perm (f_leb t) _ _ (sort_by_perm f_leb c)).
    pose proof (sort_by_f_le c) as Hs.
    apply nth_error_split in Hth. destruct Hth as [a [b [Hsplit Ha]]].
    rewrite Hsplit in Hs, Hn |- *.
    apply StronglySorted_after in Hs.
    rewrite filter_app, !length_app in *. cbn [filter List.length] in *.
    assert (Ht : f_leb t t = true) by (destruct (f_leb_total t t); assumption).
    rewrite Ht. cbn [List.length].
    rewrite (filter_all (f_leb t) b).
    2: { intros y Hy. rewrite Forall_forall in Hs. apply Hs, Hy. }
    lia. }
  split; [exact Hbound |].
  intro Hadj.
  pose proof (index_adjacent_in_range _ _ Hpos (proj2 Hp) Hadj) as Hidx.
  fold i in Hidx. lia.
Qed.

End FlagFacts.

Lemma enrich_as_map (features : list flagged) (customers : list customer) :
  NoDup (map c_customer_id customers) ->
  enrich_with_customer_data features customers = map (enrich_row customers) features.
Proof.
  intro H. unfold enrich_with_customer_data.
  induction features as [| r rest IH]; [reflexivity |].
  cbn [flat_map]. rewrite IH. clear IH.
  rewrite (filter_unique_key customers (f_customer_id (feat r)) H).
  change (map (enrich_row customers) (r :: rest))
    with (enrich_row customers r :: map (enrich_row customers) rest).
  unfold enrich_row at 2.
  destruct (find (fun c => c_customer_id c =? f_customer_id (feat r)) customers);
    reflexivity.
Qed.

(** Every feature row is in the enriched table, and every enriched row
    carries a feature row, unique ids or not. *)
Lemma enrich_rows (features : list flagged) (customers : list customer) (r : flagged) :
  In r features <-> exists e, In e (enrich_with_customer_data features customers) /\ flags e = r.
Proof.
  unfold enrich_with_customer_data. split.
  - intro Hin.
    destruct (filter (fun c => c_customer_id c =? f_customer_id (feat r)) customers)
      as [| c cs] eqn:Hf.
    + exists {| flags := r; e_country := None; e_signup_date := None; e_email := None |}.
      split; [| reflexivity]. apply in_flat_map. exists r. split; [exact Hin |].
      rewrite Hf. left. reflexivity.
    + exists {| flags := r; e_country := Some (country c);
                e_signup_date := signup_date c; e_email := email c |}.
      split; [| reflexivity]. apply in_flat_map. exists r. split; [exact Hin |].
      rewrite Hf. left. reflexivity.
  - intros [e [He <-]]. apply in_flat_map in He. destruct He as [r' [Hr' He]].
    destruct (filter (fun c => c_customer_id c =? f_customer_id (feat r')) customers).
    + destruct He as [<- | []]. exact Hr'.
    + apply in_map_iff in He. destruct He as [c' [<- _]]. exact Hr'.
Qed.

(** X20.  With unique [customer_id]s in the customer table,
    [enrich_with_customer_data] returns the feature rows one for one and
    in order; a row gets the country, signup date and email of the
    customer with its id, and nulls when there is no such customer. *)
Theorem enrich_keeps_rows (features : list flagged) (customers : list customer) :
  NoDup (map c_customer_id customers) ->
  map flags (enrich_with_customer_data features customers) = features /\
  Forall (fun e =>
            (forall c, In c customers ->
                       c_customer_id c = f_customer_id (feat (flags e)) ->
                       e_country e = Some (country c) /\
                       e_signup_date e = signup_date c /\
                       e_email e = email c) /\
            (~ In (f_customer_id (feat (flags e))) (map c_customer_id customers) ->
             e_country e = None /\ e_signup_date e = None /\ e_email e = None))
         (enrich_with_customer_data features customers).
Proof.
  intro H. rewrite (enrich_as_map _ _ H). split.
  - rewrite map_map. erewrite map_ext; [apply map_id |].
    intro r. unfold enrich_row.
    destruct (find (fun c => c_customer_id c =? f_customer_id (feat r)) customers);
      reflexivity.
  - apply Forall_forall. intros e He. apply in_map_iff in He.
    destruct He as [r [<- _]]. unfold enrich_row.
    destruct (find (fun c => c_customer_id c =? f_customer_id (feat r)) customers)
      as [c0 |] eqn:Hf; cbn [flags e_country e_signup_date e_email].
    + apply find_some in Hf. destruct Hf as [Hin0 Hid0]. apply Z.eqb_eq in Hid0.
      split.
      * intros c Hin Hid.
        assert (c = c0); [| subst; auto].
        pose proof (filter_unique_key customers (f_customer_id (feat r)) H) as Hu.
        assert (Hc : In c (filter (fun c => c_customer_id c =? f_customer_id (feat r)) customers))
          by (apply filter_In; split; [exact Hin | apply Z.eqb_eq; exact Hid]).
        assert (Hc0 : In c0 (filter (fun c => c_customer_id c =? f_customer_id (feat r)) customers))
          by (apply filter_In; split; [exact Hin0 | apply Z.eqb_eq; exact Hid0]).
        rewrite Hu in Hc, Hc0.
        destruct (find (fun c => c_customer_id c =? f_customer_id (feat r)) customers);
          [| destruct Hc].
        destruct Hc as [<- | []]. destruct Hc0 as [<- | []]. reflexivity.
      * intro Hn. exfalso. apply Hn. rewrite <- Hid0. apply in_map. exact Hin0.
    + split; [| auto].
      intros c Hin Hid. exfalso.
      apply (find_none _ _ Hf) in Hin. apply Z.eqb_neq in Hin. contradiction.
Qed.

(** ** Further facts: the summary and the drivers *)

Lemma drop_nulls_to_float (c : list (option Z)) :
  drop_nulls (to_float c) = map inject_Z (drop_nulls c).
Proof.
  unfold drop_nulls, to_float. induction c as [| [x |] r IH]; simpl;
    [reflexivity | rewrite IH; reflexivity | exact IH].
Qed.

Lemma height_where_le {A : Type} (col : A -> option bool) (df : list A) :
  (height_where col df <= List.length df)%nat.
Proof. unfold height_where. apply filter_length_le. Qed.

Section SummaryFacts.

Context {E : Engine} {B : Builtins}.

Lemma compute_feature_summary_cases (features : list enriched) :
  let days := map (fun r => days_since_last_transaction (feat (flags r))) features in
  (drop_nulls days = [] /\ compute_feature_summary features = Raises TypeError) \/
  (drop_nulls days <> [] /\
   exists s, compute_feature_summary features = Returns s /\
             total_customers s = List.length features /\
             high_value_customers s = height_where (fun r => is_high_value (flags r)) features /\
             churning_customers s = height_where (fun r => is_churning (flags r)) features /\
             churning_customers_based_on_z_score s =
               height_where (fun r => is_churning_2 (flags r)) features /\
             single_transaction_customers s =
               height_where (fun r => Some (has_single_transaction (flags r))) features).
Proof.
  cbn zeta. unfold compute_feature_summary.
  destruct features as [| r0 rest] eqn:Hfs.
  { left. split; reflexivity. }
  rewrite <- Hfs.
  assert (Hne : features <> []) by (rewrite Hfs; discriminate).
  clear Hfs r0 rest.
  destruct (fcol_stats_some (map (fun r => Some (total_spend (feat (flags r)))) features))
    as [lo [hi [mean [median [H1 [H2 [H3 H4]]]]]]].
  { rewrite drop_nulls_somes. destruct features; [congruence | discriminate]. }
  rewrite H1, H2, H3, H4. cbn [round_value and_then].
  destruct (col_mean (to_float (map (fun r => Some (transaction_count (feat (flags r))))
                                    features))) as [cm |] eqn:Hcm.
  2: { exfalso. unfold col_mean in Hcm.
       rewrite drop_nulls_to_float, drop_nulls_somes in Hcm.
       destruct features; [congruence | discriminate]. }
  cbn [option_map round_value and_then].
  assert (Hdays : col_mean (to_float (map (fun r => days_since_last_transaction
                                                      (feat (flags r))) features)) =
                  match drop_nulls (map (fun r => days_since_last_transaction
                                                    (feat (flags r))) features) with
                  | [] => None
                  | v => Some (Qmean (map inject_Z v))
                  end).
  { unfold col_mean. rewrite drop_nulls_to_float.
    destruct (drop_nulls (map (fun r => days_since_last_transaction (feat (flags r)))
                              features)); reflexivity. }
  rewrite Hdays. clear Hdays.
  destruct (drop_nulls (map (fun r => days_since_last_transaction (feat (flags r))) features))
    as [| d ds] eqn:Hd.
  - left. split; reflexivity.
  - right. split; [discriminate |]. cbn [option_map round_value and_then].
    eexists. split; [reflexivity |]. cbn. repeat split; reflexivity.
Qed.

(** X21.  [compute_feature_summary] raises a [TypeError] exactly when no
    row has a [days_since_last_transaction] (an empty table included);
    otherwise it returns, with [total_customers] the number of rows and
    none of its four counts above it. *)
Theorem compute_feature_summary_outcome (features : list enriched) :
  ((forall r, In r features -> days_since_last_transaction (feat (flags r)) = None) /\
   compute_feature_summary features = Raises TypeError)
  \/
  ((exists r, In r features /\ days_since_last_transaction (feat (flags r)) <> None) /\
   exists s, compute_feature_summary features = Returns s /\
             total_customers s = List.length features /\
             (high_value_customers s <= total_customers s)%nat /\
             (churning_customers s <= total_customers s)%nat /\
             (churning_customers_based_on_z_score s <= total_customers s)%nat /\
             (single_transaction_customers s <= total_customers s)%nat).
Proof.
  destruct (compute_feature_summary_cases features)
    as [[Hd Hr] | [Hd [s [Hs [Ht [H1 [H2 [H3 H4]]]]]]]].
  - left. split; [| exact Hr]. intros r Hin.
    destruct (days_since_last_transaction (feat (flags r))) as [d |] eqn:Hday;
      [| reflexivity].
    exfalso.
    assert (Hx : In d (drop_nulls (map (fun r => days_since_last_transaction (feat (flags r)))
                                       features))).
    { apply drop_nulls_In. rewrite <- Hday.
      apply (in_map (fun r => days_since_last_transaction (feat (flags r)))). exact Hin. }
    rewrite Hd in Hx. destruct Hx.
  - right. split.
    + destruct (drop_nulls (map (fun r => days_since_last_transaction (feat (flags r)))
                                features)) as [| d ds] eqn:Hdd; [congruence |].
      assert (Hx : In (Some d) (map (fun r => days_since_last_transaction (feat (flags r)))
                                    features)).
      { apply drop_nulls_In. rewrite Hdd. left. reflexivity. }
      apply in_map_iff in Hx. destruct Hx as [r [Hr Hin]].
      exists r. split; [exact Hin | congruence].
    + exists s. split; [exact Hs |]. split; [exact Ht |].
      rewrite H1, H2, H3, H4, Ht. repeat split; apply height_where_le.
Qed.

Lemma run_feature_engineering_inv (customers : list customer)
    (transactions : list eur_transaction) (reference_date : option Z)
    (p : option Q) (d : option Z) (out : list enriched) :
  run_feature_engineering customers transactions reference_date p d = Returns out ->
  exists fs fl s,
    compute_rfm_features transactions reference_date = Ok fs /\
    add_customer_flags fs (Some (percentile_of p))
                       (Some match d with Some x => x | None => CHURN_DAYS end) = Ok fl /\
    out = enrich_with_customer_data fl customers /\
    compute_feature_summary out = Returns s.
Proof.
  unfold run_feature_engineering. fold (percentile_of p). intro H.
  destruct (compute_rfm_features transactions reference_date) as [fs | e] eqn:Hfs;
    [| discriminate].
  cbn [stage and_then] in H.
  destruct (add_customer_flags fs (Some (percentile_of p))
              (Some match d with Some x => x | None => CHURN_DAYS end)) as [fl | e] eqn:Hfl;
    [| discriminate].
  cbn [stage and_then] in H.
  destruct (compute_feature_summary (enrich_with_customer_data fl customers)) as [s | x] eqn:Hs;
    [| discriminate].
  cbn [and_then] in H. inversion H; subst out.
  exists fs, fl, s. split; [reflexivity |]. split; [exact Hfl |].
  split; [reflexivity | exact Hs].
Qed.

Lemma dated_row_has_recency (transactions : list eur_transaction) (ref : Z)
    (t : eur_transaction) :
  In t transactions -> t_time t <> None ->
  days_since_last_transaction
    (rfm_row ref (interevent_stats transactions)
             (t_cust t, rows_of (t_cust t) transactions)) <> None.
Proof.
  intros Hin Ht. unfold rfm_row. cbn [days_since_last_transaction snd].
  destruct (col_max_Z (map t_time (rows_of (t_cust t) transactions))) as [m |] eqn:Hm;
    [discriminate |].
  exfalso. destruct (t_time t) as [x |] eqn:Hx; [| congruence].
  apply (proj1 (col_max_Z_none _) Hm x). rewrite <- Hx. apply in_map.
  unfold rows_of. apply filter_In. split; [exact Hin | apply Z.eqb_refl].
Qed.

(** X22.  [run_feature_engineering] returns a table exactly when the
    percentile is in [0, 1] and some transaction has a timestamp;
    the table is then the flagged feature table joined to the customers. *)
Theorem run_feature_engineering_returns (customers : list customer)
    (transactions : list eur_transaction) (reference_date : option Z)
    (p : option Q) (d : option Z) :
  (exists out,
     run_feature_engineering customers transactions reference_date p d = Returns out) <->
  in_unit_interval (percentile_of p) /\
  exists t, In t transactions /\ t_time t <> None.
Proof.
  split.
  - intros [out H]. apply run_feature_engineering_inv in H.
    destruct H as [fs [fl [s [Hfs [Hfl [-> Hs]]]]]].
    pose proof Hfl as Hrows. apply add_customer_flags_rows in Hrows.
    destruct Hrows as [threshold [Hq ->]]. split; [exact (quantile_ok _ _ _ Hq) |].
    destruct (compute_feature_summary_cases
                (enrich_with_customer_data
                   (map (flag_row threshold match d with Some x => x | None => CHURN_DAYS end) fs)
                   customers)) as [[_ Hr] | [Hd _]]; [congruence |].
    match type of Hd with drop_nulls ?c <> [] =>
      destruct (drop_nulls c) as [| x xs] eqn:Hdd; [congruence |];
      assert (Hx : In (Some x) c) by (apply drop_nulls_In; rewrite Hdd; left; reflexivity)
    end.
    apply in_map_iff in Hx. destruct Hx as [e [He Hin]].
    assert (Hflag : In (flags e)
              (map (flag_row threshold match d with Some x => x | None => CHURN_DAYS end) fs))
      by (apply (enrich_rows _ customers); exists e; auto).
    apply in_map_iff in Hflag. destruct Hflag as [f [Hf Hfin]].
    rewrite <- Hf in He. cbn [feat flag_row] in He.
    apply compute_rfm_features_rows in Hfs. destruct Hfs as [ref [_ [_ Hrow]]].
    apply Hrow in Hfin. destruct Hfin as [k [_ ->]].
    unfold rfm_row in He. cbn [days_since_last_transaction snd] in He.
    destruct (col_max_Z (map t_time (rows_of k transactions))) as [m |] eqn:Hm;
      [| discriminate].
    apply col_max_Z_spec in Hm. destruct Hm as [Hm _]. apply rows_of_time in Hm.
    apply in_map_iff in Hm. destruct Hm as [t [Ht Htin]].
    exists t. split; [exact Htin | congruence].
  - intros [Hp [t [Hin Ht]]].
    assert (Hfs : exists ref,
               compute_rfm_features transactions reference_date =
               Ok (map (rfm_row ref (interevent_stats transactions))
                       (group_by t_cust transactions))).
    { unfold compute_rfm_features.
      destruct reference_date as [r |]; [eexists; reflexivity |].
      unfold default_reference_date.
      destruct (col_max_Z (map t_time transactions)) as [m |] eqn:Hm;
        [eexists; reflexivity |].
      exfalso. destruct (t_time t) as [x |] eqn:Hx; [| congruence].
      apply (proj1 (col_max_Z_none _) Hm x). rewrite <- Hx. apply in_map. exact Hin. }
    destruct Hfs as [ref Hfs].
    unfold run_feature_engineering. fold (percentile_of p). rewrite Hfs.
    cbn [stage and_then].
    set (fs := map (rfm_row ref (interevent_stats transactions))
                   (group_by t_cust transactions)).
    unfold add_customer_flags.
    destruct (quantile_returns (map total_spend fs) _ Hp) as [threshold Hq].
    rewrite Hq. cbn [bind stage and_then].
    set (fl := map (flag_row threshold match d with Some x => x | None => CHURN_DAYS end) fs).
    destruct (compute_feature_summary_cases (enrich_with_customer_data fl customers))
      as [[Hd _] | [_ [s [Hs _]]]].
    + exfalso.
      set (f := rfm_row ref (interevent_stats transactions)
                        (t_cust t, rows_of (t_cust t) transactions)).
      assert (Hf : In f fs).
      { unfold fs. apply in_map_iff. exists (t_cust t, rows_of (t_cust t) transactions).
        split; [reflexivity |]. apply group_by_In. simpl.
        split; [apply in_map; exact Hin | reflexivity]. }
      assert (Hr : In (flag_row threshold match d with Some x => x | None => CHURN_DAYS end f) fl)
        by (unfold fl; apply in_map; exact Hf).
      apply (enrich_rows fl customers) in Hr. destruct Hr as [e [He Hflags]].
      pose proof (dated_row_has_recency transactions ref t Hin Ht) as Hday. fold f in Hday.
      destruct (days_since_last_transaction f) as [x |] eqn:Hx; [| congruence].
      assert (Hin' : In x (drop_nulls
                  (map (fun r => days_since_last_transaction (feat (flags r)))
                       (enrich_with_customer_data fl customers)))).
      { apply drop_nulls_In. rewrite <- Hx.
        replace f with (feat (flags e)) by (rewrite Hflags; reflexivity).
        apply (in_map (fun r => days_since_last_transaction (feat (flags r)))). exact He. }
      rewrite Hd in Hin'. destruct Hin'.
    + rewrite Hs. cbn [and_then]. eauto.
Qed.

End SummaryFacts.

Section PipelineFacts.

Context {E : Engine} {B : Builtins}.

Lemma resolved_has_customer (flag : option bool) (cs : list customer)
    (ct : list transaction) (t : eur_transaction) :
  In t (resolved flag cs ct) -> In (t_cust t) (map c_customer_id cs).
Proof.
  unfold resolved, add_amount_in_eur. intro H.
  apply in_map_iff in H. destruct H as [t0 [<- Hin]]. unfold t_cust. cbn [txn].
  unfold remove_orphan_transactions in Hin. apply filter_In in Hin.
  apply orphan_filter. tauto.
Qed.

(** X23.  When [main] returns, the feature table it writes is not empty,
    has one row per customer id, and every row is joined to a customer of
    the cleaned customer table: its country is not null and is one of
    [VALID_COUNTRIES]. *)
Theorem main_output (raw_c : list raw_customer) (raw_t : list raw_transaction)
    (out : list enriched) :
  main raw_c raw_t = Returns out ->
  out <> [] /\
  NoDup (map (fun e => f_customer_id (feat (flags e))) out) /\
  Forall (fun e => exists c, e_country e = Some c /\ In c VALID_COUNTRIES) out.
Proof.
  unfold main. intro H.
  destruct (run_etl raw_c raw_t None) as [[cs ts] | x] eqn:Hetl; [| discriminate].
  cbn [and_then fst snd] in H.
  apply run_etl_returns_inv in Hetl. destruct Hetl as [Hc [ct [_ [_ Hts]]]].
  pose proof (clean_customers_unique _ _ Hc) as Hnd.
  pose proof (clean_customers_valid _ _ Hc) as Hvalid.
  apply run_feature_engineering_inv in H.
  destruct H as [fs [fl [s [Hfs [Hfl [Hout Hs]]]]]].
  split.
  { intro Hnil. rewrite Hnil in Hs. discriminate. }
  apply add_customer_flags_rows in Hfl. destruct Hfl as [threshold [_ Hfl]].
  apply compute_rfm_features_rows in Hfs. destruct Hfs as [ref [_ [Hmap Hrows]]].
  rewrite (enrich_as_map _ _ Hnd) in Hout.
  split.
  - rewrite Hout, Hfl, !map_map.
    assert (Hids : map (fun f => f_customer_id
                                   (feat (flags (enrich_row cs (flag_row threshold CHURN_DAYS f))))) fs
                   = distinct (map t_cust ts)).
    { rewrite Hmap, map_map, <- group_by_keys. apply map_ext. intro g.
      unfold enrich_row.
      destruct (find (fun c => c_customer_id c =? _) cs); reflexivity. }
    rewrite Hids. apply distinct_NoDup.
  - apply Forall_forall. intros e He. rewrite Hout in He.
    apply in_map_iff in He. destruct He as [r [<- Hr]].
    rewrite Hfl in Hr. apply in_map_iff in Hr. destruct Hr as [f [<- Hf]].
    apply Hrows in Hf. destruct Hf as [k [Hk ->]].
    apply in_map_iff in Hk. destruct Hk as [t [Htk Hin]].
    rewrite Hts in Hin. apply resolved_has_customer in Hin. rewrite Htk in Hin.
    destruct (find_customer cs k Hin) as [c [Hfind [Hcin _]]].
    unfold enrich_row. cbn [feat flag_row f_customer_id rfm_row fst].
    rewrite Hfind. cbn [e_country]. exists (country c). split; [reflexivity |].
    rewrite Forall_forall in Hvalid. apply Hvalid. exact Hcin.
Qed.

End PipelineFacts.

Lemma distinct_length (l : list Z) :
  (List.length (distinct l) <= List.length l)%nat /\
  (l <> [] -> 1 <= List.length (distinct l))%nat.
Proof.
  split.
  - apply NoDup_incl_length; [apply distinct_NoDup |].
    intros k Hk. apply distinct_In. exact Hk.
  - intro Hne. destruct l as [| x r]; [congruence |].
    assert (Hx : In x (distinct (x :: r))) by (apply distinct_In; left; reflexivity).
    destruct (distinct (x :: r)); [destruct Hx | simpl; lia].
Qed.

Section ReportFacts.

Context {B : Builtins}.

(** X24.  [validate_transactions] raises a [TypeError] on an empty table
    and on no other; the report it returns counts every row, at least one
    and at most that many customers, and no more sentinel currencies or
    categories than there are rows. *)
Theorem validate_transactions_outcome (df : list transaction) :
  (df = [] /\ validate_transactions df = Raises TypeError) \/
  (df <> [] /\
   exists report,
     validate_transactions df = Returns report /\
     total_transactions report = List.length df /\
     (1 <= unique_customers report <= total_transactions report)%nat /\
     (na_currency_count report <= total_transactions report)%nat /\
     (na_category_count report <= total_transactions report)%nat).
Proof.
  destruct df as [| t r] eqn:Hdf; [left; split; reflexivity |].
  right. split; [discriminate |]. rewrite <- Hdf.
  assert (Hne : df <> []) by (rewrite Hdf; discriminate).
  unfold validate_transactions.
  destruct (fcol_stats_some (map (fun t => Some (amount t)) df))
    as [lo [hi [mean [median [H1 [H2 [H3 H4]]]]]]].
  { rewrite drop_nulls_somes. destruct df; [congruence | discriminate]. }
  rewrite H1, H2, H3, H4. cbn [round_value and_then].
  eexists. split; [reflexivity |].
  cbn [total_transactions unique_customers na_currency_count na_category_count].
  split; [reflexivity |].
  destruct (distinct_length (map t_customer_id df)) as [Hle Hge].
  rewrite length_map in Hle.
  split.
  { split; [apply Hge; destruct df; [congruence | discriminate] | exact Hle]. }
  split; unfold na_count; apply filter_length_le.
Qed.

End ReportFacts.

(** ** The further theorems at the sample tables *)

Lemma sample_cleaning :
  clean_customers (E := reference_engine) sample_raw_customers = Ok sample_customers /\
  clean_transactions (E := reference_engine) sample_raw_transactions = Ok sample_transactions.
Proof. split; vm_compute; reflexivity. Defined.

Lemma sample_features_computed :
  compute_rfm_features (E := reference_engine) sample_converted None = Ok sample_features.
Proof. vm_compute; reflexivity. Defined.

Lemma cleaned_tables_ascending_witness :
  StronglySorted Z.lt (map c_customer_id sample_customers) /\
  StronglySorted Z.lt (map transaction_id sample_transactions).
Proof.
  exact (cleaned_tables_ascending _ _ _ _ (proj1 sample_cleaning) (proj2 sample_cleaning)).
Defined.

Lemma clean_customers_keeps_first_witness :
  clean_customers (E := reference_engine) sample_raw_customers = Ok sample_customers /\
  forall c,
    In c sample_customers <->
    exists pre r post,
      sample_raw_customers = (pre ++ r :: post)%list /\
      cleaned_customer (E := reference_engine) r = Some c /\
      forall r' c', In r' pre -> cleaned_customer r' = Some c' ->
                    c_customer_id c' <> c_customer_id c.
Proof.
  split; [exact (proj1 sample_cleaning) |].
  exact (clean_customers_keeps_first _ _ (proj1 sample_cleaning)).
Defined.

Lemma clean_transactions_keeps_first_witness :
  clean_transactions (E := reference_engine) sample_raw_transactions = Ok sample_transactions /\
  forall t,
    In t sample_transactions <->
    exists pre r post,
      sample_raw_transactions = (pre ++ r :: post)%list /\
      cleaned_transaction (E := reference_engine) r = Some t /\
      forall r' t', In r' pre -> cleaned_transaction r' = Some t' ->
                    transaction_id t' <> transaction_id t.
Proof.
  split; [exact (proj2 sample_cleaning) |].
  exact (clean_transactions_keeps_first _ _ (proj2 sample_cleaning)).
Defined.

Lemma infer_and_orphan_removal_commute_witness :
  remove_orphan_transactions
    (infer_currency_from_country sample_transactions sample_customers) sample_customers =
  infer_currency_from_country
    (remove_orphan_transactions sample_transactions sample_customers) sample_customers.
Proof.
  exact (infer_and_orphan_removal_commute sample_transactions sample_customers
           sample_customers_distinct).
Defined.

Lemma no_sentinel_after_inference_witness :
  Forall (fun t => currency t <> "NA")
         (remove_orphan_transactions
            (infer_currency_from_country sample_transactions sample_customers)
            sample_customers).
Proof.
  exact (no_sentinel_after_inference _ _ sample_transactions (proj1 sample_cleaning)).
Defined.

Lemma inferred_count_exact_witness :
  inferred_count sample_transactions sample_customers = 2.
Proof.
  rewrite (inferred_count_exact _ _ sample_transactions (proj1 sample_cleaning)).
  reflexivity.
Defined.

Lemma run_etl_output_witness :
  run_etl (E := reference_engine) sample_raw_customers sample_raw_transactions None
  = Returns (sample_customers, sample_converted) /\
  StronglySorted Z.lt (map (fun t => transaction_id (txn t)) sample_converted) /\
  Forall (fun t => currency (txn t) <> "NA") sample_converted.
Proof.
  assert (H : run_etl (E := reference_engine) sample_raw_customers sample_raw_transactions None
              = Returns (sample_customers, sample_converted)) by (vm_compute; reflexivity).
  split; [exact H |].
  destruct (run_etl_output _ _ _ _ _ H) as [Hs [_ Hna]].
  split; [exact Hs | apply Hna; discriminate].
Defined.

Lemma one_row_per_customer_witness :
  NoDup (map f_customer_id sample_features) /\
  forall k, In k (map f_customer_id sample_features) <->
            exists t, In t sample_converted /\ t_cust t = k.
Proof.
  exact (one_row_per_customer _ _ _ sample_features_computed).
Defined.

Lemma transaction_counts_add_up_witness :
  fold_right Z.add 0 (map transaction_count sample_features)
  = Z.of_nat (List.length sample_converted).
Proof.
  exact (transaction_counts_add_up _ _ _ sample_features_computed).
Defined.

Lemma tenure_not_negative_witness :
  Forall (fun f =>
            match first_transaction_date f, last_transaction_date f with
            | Some a, Some b =>
                a <= b /\ exists d, customer_tenure_days f = Some d /\ 0 <= d
            | None, None => customer_tenure_days f = None
            | _, _ => False
            end) sample_features.
Proof.
  exact (tenure_not_negative _ _ _ sample_features_computed).
Defined.

Lemma min_max_amounts_witness :
  Forall (fun f =>
            let amounts := map amount_in_eur (rows_of (f_customer_id f) sample_converted) in
            match min_transaction_amount f, max_transaction_amount f with
            | Some lo, Some hi =>
                In (Some lo) amounts /\ In (Some hi) amounts /\
                match lo, hi with
                | Num l, Num h =>
                    (l <= h)%Q /\
                    forall a, In (Some (Num a)) amounts -> (l <= a)%Q /\ (a <= h)%Q
                | NaN, NaN => forall a, ~ In (Some (Num a)) amounts
                | _, _ => False
                end
            | None, None => forall a, ~ In (Some a) amounts
            | _, _ => False
            end) sample_features.
Proof.
  exact (min_max_amounts _ _ _ sample_features_computed).
Defined.

Lemma reference_date_shifts_recency_witness :
  exists fs2,
    compute_rfm_features (E := with_group_order (E := reference_engine) (first_seen []))
                         sample_converted (Some 19732)
    = Ok sample_features /\
    compute_rfm_features
      (E := with_group_order (E := reference_engine) (fun c => rev (first_seen [] c)))
      sample_converted (Some (19732 + 30))
    = Ok fs2 /\
    (forall f1, In f1 sample_features ->
       exists f2, In f2 fs2 /\
                  forget_preferences f2 = forget_preferences (shift_recency 30 f1)) /\
    (forall f2, In f2 fs2 ->
       exists f1, In f1 sample_features /\
                  forget_preferences f2 = forget_preferences (shift_recency 30 f1)).
Proof.
  assert (H1 : compute_rfm_features
                 (E := with_group_order (E := reference_engine) (first_seen []))
                 sample_converted (Some 19732)
               = Ok sample_features) by (vm_compute; reflexivity).
  destruct (compute_rfm_features
              (E := with_group_order (E := reference_engine) (fun c => rev (first_seen [] c)))
              sample_converted (Some (19732 + 30))) as [fs2 | e] eqn:H2.
  - exists fs2. split; [exact H1 |]. split; [reflexivity |].
    exact (reference_date_shifts_recency (E := reference_engine) _ _ _ _ _ _ _ H1 H2).
  - vm_compute in H2. discriminate H2.
Defined.

Lemma interevent_needs_history_witness :
  Forall (fun f =>
            (mean_interevent_days f <> None <->
             (2 <= dated_count (f_customer_id f) sample_converted)%nat) /\
            (std_interevent_days f <> None <->
             (3 <= dated_count (f_customer_id f) sample_converted)%nat)) sample_features.
Proof.
  exact (interevent_needs_history _ _ _ sample_features_computed).
Defined.

Lemma mean_interevent_not_negative_witness :
  Forall (fun f => forall m, mean_interevent_days f = Some m -> (0 <= m)%Q) sample_features.
Proof.
  exact (mean_interevent_not_negative _ _ _ sample_features_computed).
Defined.

Lemma top_spenders_flagged_witness :
  five_spenders <> [] /\
  add_customer_flags (E := reference_engine) five_spenders None None
  = Ok (map (flag_row (Some (Num 40)) CHURN_DAYS) five_spenders) /\
  index_adjacent (E := reference_engine) (List.length five_spenders) (percentile_of None) /\
  (2 <= height_where is_high_value (map (flag_row (Some (Num 40)) CHURN_DAYS) five_spenders))%nat /\
  (1 <= height_where is_high_value (map (flag_row (Some (Num 40)) CHURN_DAYS) five_spenders))%nat.
Proof.
  assert (H : add_customer_flags (E := reference_engine) five_spenders None None
              = Ok (map (flag_row (Some (Num 40)) CHURN_DAYS) five_spenders))
    by (vm_compute; reflexivity).
  assert (Hne : five_spenders <> []) by discriminate.
  assert (Hadj : index_adjacent (E := reference_engine) (List.length five_spenders)
                                (percentile_of None)).
  { apply exact_rank_adjacent; [simpl; lia | discriminate]. }
  split; [exact Hne |]. split; [exact H |]. split; [exact Hadj |].
  destruct (top_spenders_flagged (E := reference_engine) five_spenders None None _ Hne H)
    as [Hbound Hone].
  split; [exact Hbound | exact (Hone Hadj)].
Defined.

Lemma enrich_keeps_rows_witness :
  map flags (enrich_with_customer_data sample_flagged sample_customers) = sample_flagged.
Proof.
  exact (proj1 (enrich_keeps_rows sample_flagged sample_customers sample_customers_distinct)).
Defined.

Lemma main_output_witness :
  main (E := reference_engine) sample_raw_customers sample_raw_transactions
  = Returns sample_enriched /\
  sample_enriched <> [] /\
  NoDup (map (fun e => f_customer_id (feat (flags e))) sample_enriched) /\
  Forall (fun e => exists c, e_country e = Some c /\ In c VALID_COUNTRIES) sample_enriched.
Proof.
  assert (H : main (E := reference_engine) sample_raw_customers sample_raw_transactions
              = Returns sample_enriched) by (vm_compute; reflexivity).
  split; [exact H |].
  exact (main_output _ _ _ H).
Defined.
